(** * KFactory: cells, ports, instances, the parametric-cell cache and the
      bundle placer, embedded from the Python sources

    Source files embedded here:
    - [src/kfactory/kcell.py]          (KLib, Port, Ports, KCell, Instance,
                                        autocell and its cache)
    - [src/kfactory/cross_section.py]  (SymmetricalCrossSection)
    - [src/kfactory/routing/generic.py]     (route_bundle, check_collisions)
    - [src/kfactory/routing/electrical.py]  (place_single_wire,
                                             place_dual_rails)

    Python exceptions are values of [exn]; a call that may raise returns
    [result A].  Stateful code threads its state explicitly and returns the
    state it leaves behind also when it raises.  What the layout back end
    (klayout.db), hashlib and cachetools do is written down from their
    documented behaviour; what they compute from geometry is a parameter.

    The first part holds the definitions, module by module as in the
    sources; the second part the properties. *)

From Stdlib Require Import ZArith List Bool Lia Ascii String.
From Stdlib.Strings Require Import Byte.
From Stdlib Require Import DecimalString DecimalPos DecimalZ Permutation.
From Stdlib Require Import Floats Uint63.
From stdpp Require Import gmap strings.

#[local] Unset Default Proof Using.
#[local] Set Warnings "-register-all".
#[local] Open Scope string_scope.
#[local] Open Scope list_scope.
#[local] Open Scope Z_scope.
Import ListNotations.

(* ------------------------------------------------------------------ *)
(** ** Exceptions and results *)

(** The exception classes the embedded code raises.  [PortWidthMismatch],
    [PortLayerMismatch] and [PortTypeMismatch] derive from [ValueError],
    [FrozenError] from [AttributeError], [PlacerError] from [ValueError];
    pydantic's [ValidationError] is a [ValueError] too and is kept under
    that constructor.  All of them are subclasses of [Exception], so an
    [except Exception] clause catches every one.  Messages built with
    f-strings are kept where they are static. *)
Inductive exn : Type :=
| ValueError (msg : string)
| KeyError (msg : string)
| TypeError (msg : string)
| IndexError
| OverflowError
| StopIteration (key : string)
| RuntimeError (msg : string)
| PortWidthMismatch
| PortLayerMismatch
| PortTypeMismatch
| FrozenError
| PlacerError.

Inductive result (A : Type) : Type :=
| Ok (a : A)
| Raise (e : exn).
Arguments Ok {A} a.
Arguments Raise {A} e.

Definition rbind {A B : Type} (r : result A) (k : A -> result B) : result B :=
  match r with
  | Ok a => k a
  | Raise e => Raise e
  end.

Definition is_ok {A : Type} (r : result A) : bool :=
  match r with Ok _ => true | Raise _ => false end.

(** [str(n)] of a Python int. *)
Definition str_of_Z (z : Z) : string := NilZero.string_of_int (Z.to_int z).

(* ------------------------------------------------------------------ *)
(** ** klayout.db transformations

    [kdb.Trans] belongs to the layout back end, not to this repository.  It
    is one of the eight rigid motions in steps of 90 degrees followed by an
    integer displacement.  The back end keeps a coordinate in 32 bits and a
    sum that leaves the range wraps around.  The operations below compute
    on unbounded [Z]; [wrap_trans] takes a result into the 32 bits the back
    end keeps, and is applied where a statement depends on the number a
    coordinate is. *)
Module Kdb.

Inductive angle4 : Type := A0 | A90 | A180 | A270.

Definition angle_code (a : angle4) : Z :=
  match a with A0 => 0 | A90 => 1 | A180 => 2 | A270 => 3 end.

(** [rot & 3], as the constructor [kdb.Trans(rot, mirror, x, y)] does. *)
Definition angle_of_Z (r : Z) : angle4 :=
  match r mod 4 with
  | 0 => A0 | 1 => A90 | 2 => A180 | _ => A270
  end.

Definition angle_add (a b : angle4) : angle4 :=
  angle_of_Z (angle_code a + angle_code b).
Definition angle_sub (a b : angle4) : angle4 :=
  angle_of_Z (angle_code a - angle_code b).
Definition angle_neg (a : angle4) : angle4 :=
  angle_of_Z (- angle_code a).

Record Vector : Type := mkVector { vx : Z; vy : Z }.

Definition Point : Type := Vector.

Definition vadd (u v : Vector) : Vector :=
  mkVector (vx u + vx v) (vy u + vy v).
Definition vsub (u v : Vector) : Vector :=
  mkVector (vx u - vx v) (vy u - vy v).
Definition vneg (u : Vector) : Vector := mkVector (- vx u) (- vy u).

(** [kdb.LayerInfo(layer, datatype)]. *)
Record LayerInfo : Type := mkLayerInfo { li_layer : Z; li_datatype : Z }.

Definition layer_info_eqb (a b : LayerInfo) : bool :=
  (li_layer a =? li_layer b) && (li_datatype a =? li_datatype b).

Record Trans : Type := mkTrans {
  angle : angle4;
  is_mirror : bool;
  disp : Vector
}.

(** The rotation/mirror part applied to a vector: mirror at the x axis
    first, then rotate by [angle] quarter turns. *)
Definition fix_apply (a : angle4) (m : bool) (v : Vector) : Vector :=
  let w := if m then mkVector (vx v) (- vy v) else v in
  match a with
  | A0 => w
  | A90 => mkVector (- vy w) (vx w)
  | A180 => mkVector (- vx w) (- vy w)
  | A270 => mkVector (vy w) (- vx w)
  end.

Definition apply (t : Trans) (p : Point) : Point :=
  vadd (fix_apply (angle t) (is_mirror t) p) (disp t).

(** [a * b]: the transformation that applies [b] first, then [a]. *)
Definition mul (a b : Trans) : Trans :=
  mkTrans
    (if is_mirror a then angle_sub (angle a) (angle b)
     else angle_add (angle a) (angle b))
    (xorb (is_mirror a) (is_mirror b))
    (vadd (disp a) (fix_apply (angle a) (is_mirror a) (disp b))).

Definition inverted (t : Trans) : Trans :=
  let a' := if is_mirror t then angle t else angle_neg (angle t) in
  mkTrans a' (is_mirror t)
    (vneg (fix_apply a' (is_mirror t) (disp t))).

Definition R0 : Trans := mkTrans A0 false (mkVector 0 0).
Definition R180 : Trans := mkTrans A180 false (mkVector 0 0).
Definition M90 : Trans := mkTrans A180 true (mkVector 0 0).

(** [kdb.Trans(rot)]: a pure rotation, the code taken modulo 4. *)
Definition of_rot (r : Z) : Trans := mkTrans (angle_of_Z r) false (mkVector 0 0).

(** [kdb.Trans(u)]: a pure displacement. *)
Definition of_disp (u : Vector) : Trans := mkTrans A0 false u.

(** The signed 32-bit integer congruent to [z] modulo 2^32. *)
Definition wrap32 (z : Z) : Z := (z + 2 ^ 31) mod 2 ^ 32 - 2 ^ 31.

Definition in_range32 (z : Z) : Prop := - 2 ^ 31 <= z < 2 ^ 31.

Definition wrap_vector (v : Vector) : Vector :=
  mkVector (wrap32 (vx v)) (wrap32 (vy v)).

(** A transformation as the back end keeps it. *)
Definition wrap_trans (t : Trans) : Trans :=
  mkTrans (angle t) (is_mirror t) (wrap_vector (disp t)).

Definition angle_eqb (a b : angle4) : bool :=
  angle_code a =? angle_code b.

Definition vector_eqb (u v : Vector) : bool :=
  (vx u =? vx v) && (vy u =? vy v).

Definition trans_eqb (a b : Trans) : bool :=
  angle_eqb (angle a) (angle b)
  && Bool.eqb (is_mirror a) (is_mirror b)
  && vector_eqb (disp a) (disp b).

End Kdb.

Infix "*t" := Kdb.mul (at level 40, left associativity).

(* ------------------------------------------------------------------ *)
(** ** SymmetricalCrossSection  (cross_section.py)  *)
Module CrossSection.

Definition LayerInfo : Type := Kdb.LayerInfo.

(** The part of [LayerEnclosure] the cross-section reads. *)
Record LayerEnclosure : Type := mkLayerEnclosure {
  enc_name : string;
  main_layer : option LayerInfo
}.

Record SymmetricalCrossSection : Type := mkSymmetricalCrossSection {
  width : Z;
  enclosure : LayerEnclosure;
  name : string;
  radius : option Z;
  radius_min : option Z;
  bbox_sections : list (LayerInfo * (Z * Z * Z * Z))
}.

(** [name or f"{enclosure.name}_{width}"]: the empty string is falsy. *)
Definition name_or_default (n : option string) (enc : LayerEnclosure) (w : Z)
  : string :=
  match n with
  | Some s => if String.eqb s "" then (enc_name enc ++ "_" ++ str_of_Z w)%string else s
  | None => (enc_name enc ++ "_" ++ str_of_Z w)%string
  end.

(** model_validator(mode="after") [_validate_enclosure_main_layer]. *)
Definition _validate_enclosure_main_layer (self : SymmetricalCrossSection)
  : result SymmetricalCrossSection :=
  match main_layer (enclosure self) with
  | None =>
      Raise (ValueError "Enclosures of cross sections must have a main layer.")
  | Some _ =>
      if negb ((width self / 2) * 2 =? width self)
      then Raise (ValueError
             "Width of symmetrical cross sections must have be a multiple of 2.")
      else Ok self
  end.

(** model_validator(mode="after") [_validate_width]. *)
Definition _validate_width (self : SymmetricalCrossSection)
  : result SymmetricalCrossSection :=
  if width self <=? 0
  then Raise (ValueError "Width must be greater than 0.")
  else Ok self.

(** [SymmetricalCrossSection.__init__]: the fields are set ([radius] and
    [radius_min] take their default [None]), then the two "after"
    validators run in the order of their definition. *)
Definition init (w : Z) (enc : LayerEnclosure) (n : option string)
    (bbox : option (list (LayerInfo * (Z * Z * Z * Z))))
  : result SymmetricalCrossSection :=
  let self :=
    mkSymmetricalCrossSection w enc (name_or_default n enc w) None None
      (match bbox with Some b => b | None => [] end) in
  rbind (_validate_enclosure_main_layer self) _validate_width.

End CrossSection.

(* ------------------------------------------------------------------ *)
(** ** Python values used as cell function arguments and settings *)

(** The part of Python's object universe the decorator is exercised with.
    [VInt] also stands for [bool] (a subclass of [int] with equal hash).
    [VFloat] is a float object with its identity and its value: the
    identity matters for a NaN, which is not equal to itself.  [VCell] is
    a [KCell] object and [VFunc] a function object; neither class defines
    [__eq__] or [__hash__], so that both are known by their identity.
    A [VDict] keeps its items in insertion order; a [VFrozenset] of
    [(key, value)] pairs is kept sorted by key. *)
Inductive Value : Type :=
| VNone
| VInt (z : Z)
| VFloat (obj : nat) (x : float)
| VStr (s : string)
| VTuple (l : list Value)
| VList (l : list Value)
| VDict (d : list (string * Value))
| VFrozenset (items : list (string * Value))
| VCell (id : nat)
| VFunc (obj : nat).

(** [hash(v)] succeeds: lists and dicts are unhashable, a tuple is
    hashable when its elements are. *)
Fixpoint hashable (v : Value) : bool :=
  match v with
  | VList _ | VDict _ => false
  | VTuple l => forallb hashable l
  | VFrozenset items => forallb (fun kv => hashable (snd kv)) items
  | _ => true
  end.

(** Induction on values that reaches the elements of tuples, lists and
    dicts. *)
Section ValueInduction.
Variable P : Value -> Prop.
Hypothesis HNone : P VNone.
Hypothesis HInt : forall z, P (VInt z).
Hypothesis HFloat : forall o x, P (VFloat o x).
Hypothesis HStr : forall s, P (VStr s).
Hypothesis HTuple : forall l, Forall P l -> P (VTuple l).
Hypothesis HList : forall l, Forall P l -> P (VList l).
Hypothesis HDict : forall d, Forall (fun kv => P (snd kv)) d -> P (VDict d).
Hypothesis HFrozenset :
  forall d, Forall (fun kv => P (snd kv)) d -> P (VFrozenset d).
Hypothesis HCell : forall i, P (VCell i).
Hypothesis HFunc : forall f, P (VFunc f).

Fixpoint Value_nested_ind (v : Value) : P v :=
  let fix all (l : list Value) : Forall P l :=
    match l with
    | [] => @List.Forall_nil _ P
    | x :: l' => @List.Forall_cons _ P x l' (Value_nested_ind x) (all l')
    end in
  let fix all_items (d : list (string * Value))
    : Forall (fun kv => P (snd kv)) d :=
    match d with
    | [] => @List.Forall_nil _ (fun kv => P (snd kv))
    | kv :: d' =>
        @List.Forall_cons _ (fun kv => P (snd kv)) kv d'
          (Value_nested_ind (snd kv)) (all_items d')
    end in
  match v with
  | VNone => HNone
  | VInt z => HInt z
  | VFloat o x => HFloat o x
  | VStr s => HStr s
  | VTuple l => HTuple l (all l)
  | VList l => HList l (all l)
  | VDict d => HDict d (all_items d)
  | VFrozenset d => HFrozenset d (all_items d)
  | VCell i => HCell i
  | VFunc f => HFunc f
  end.
End ValueInduction.

Section ListEqb.
Variable A : Type.
Variable eqb : A -> A -> bool.

(** Equality of two Python sequences, element by element. *)
Fixpoint list_eqb (l1 l2 : list A) {struct l1} : bool :=
  match l1, l2 with
  | [], [] => true
  | x :: l1', y :: l2' => eqb x y && list_eqb l1' l2'
  | _, _ => false
  end.
End ListEqb.
Arguments list_eqb {A} eqb l1 l2.

(** [x == z] for a float [x] and an int [z]: Python compares the two
    numbers exactly. *)
Definition float_eqb_Z (x : float) (z : Z) : bool :=
  match Prim2SF x with
  | S754_zero _ => z =? 0
  | S754_finite s m e =>
      let v := if s then Zneg m else Zpos m in
      if 0 <=? e then z =? v * 2 ^ e else z * 2 ^ (- e) =? v
  | S754_infinity _ | S754_nan => false
  end.

(** [a is b or a == b], the comparison of the elements of two cache keys
    (and of two tuples, lists or sets): numbers by value, an int and a
    float alike; floats also by identity, which makes a NaN object equal to
    itself; cell and function objects by identity alone. *)
Fixpoint Value_eqb (a b : Value) {struct a} : bool :=
  match a, b with
  | VNone, VNone => true
  | VInt x, VInt y => x =? y
  | VInt z, VFloat _ x => float_eqb_Z x z
  | VFloat _ x, VInt z => float_eqb_Z x z
  | VFloat o x, VFloat o' x' => Nat.eqb o o' || PrimFloat.eqb x x'
  | VStr s, VStr s' => String.eqb s s'
  | VTuple l, VTuple l' => list_eqb Value_eqb l l'
  | VList l, VList l' => list_eqb Value_eqb l l'
  | VDict d, VDict d' =>
      list_eqb (fun kv kv' =>
                  String.eqb (fst kv) (fst kv') && Value_eqb (snd kv) (snd kv'))
        d d'
  | VFrozenset d, VFrozenset d' =>
      list_eqb (fun kv kv' =>
                  String.eqb (fst kv) (fst kv') && Value_eqb (snd kv) (snd kv'))
        d d'
  | VCell i, VCell j => Nat.eqb i j
  | VFunc f, VFunc g => Nat.eqb f g
  | _, _ => false
  end.

(** A Python [dict] with string keys, in insertion order. *)
Definition pydict : Type := list (string * Value).

(** Equality of two tuples of [(name, value)] items: cache keys. *)
Definition items_eqb (d d' : pydict) : bool :=
  list_eqb (fun kv kv' =>
              String.eqb (fst kv) (fst kv') && Value_eqb (snd kv) (snd kv'))
    d d'.

(** [d[k] = v]: an existing key keeps its position. *)
Fixpoint dict_set (d : pydict) (k : string) (v : Value) : pydict :=
  match d with
  | [] => [(k, v)]
  | (k', v') :: d' =>
      if String.eqb k' k then (k, v) :: d' else (k', v') :: dict_set d' k v
  end.

(** [d.update(other)]. *)
Definition dict_update (d other : pydict) : pydict :=
  fold_left (fun acc kv => dict_set acc (fst kv) (snd kv)) other d.

(** [d.get(k)]. *)
Fixpoint dict_get (d : pydict) (k : string) : option Value :=
  match d with
  | [] => None
  | (k', v) :: d' => if String.eqb k' k then Some v else dict_get d' k
  end.

(** Insertion of an item into a list sorted by key ([sorted(kwargs.items())]
    compares the keys, which are distinct). *)
Fixpoint insert_by_key (kv : string * Value) (l : pydict) : pydict :=
  match l with
  | [] => [kv]
  | kv' :: l' =>
      if String.leb (fst kv) (fst kv') then kv :: l
      else kv' :: insert_by_key kv l'
  end.

Definition sort_by_key (d : pydict) : pydict :=
  fold_right insert_by_key [] d.

Notation "'do' x <- e ; k" := (rbind e (fun x => k))
  (at level 10, x name, e at level 100, k at level 200, only parsing).

Fixpoint mapM {A B : Type} (f : A -> result B) (l : list A) : result (list B) :=
  match l with
  | [] => Ok []
  | a :: l' => do b <- f a; do bs <- mapM f l'; Ok (b :: bs)
  end.

(* ------------------------------------------------------------------ *)
(** ** Bytes, [int.to_bytes], [str.encode] and [hashlib.sha3_512] *)
Module Hashlib.

Definition bytes : Type := list Byte.byte.

Definition byte_of_Z (z : Z) : Byte.byte :=
  match Byte.of_N (Z.to_N (z mod 256)) with
  | Some b => b
  | None => Byte.x00
  end.

(** The eight bytes of [z mod 2^64], most significant first. *)
Definition be8 (z : Z) : bytes :=
  map (fun i => byte_of_Z (Z.shiftr z (8 * i))) [7; 6; 5; 4; 3; 2; 1; 0].

(** [z.to_bytes(8, "big")]: unsigned, raises [OverflowError] for a
    negative number or one that does not fit in eight bytes. *)
Definition to_bytes8 (z : Z) : result bytes :=
  if (0 <=? z) && (z <? 2 ^ 64) then Ok (be8 z) else Raise OverflowError.

(** [s.encode("UTF-8")]: strings are kept as their UTF-8 bytes. *)
Definition encode_utf8 (s : string) : bytes := list_byte_of_string s.

(** [s.encode("ascii", "ignore")]: every character outside ASCII is
    dropped, that is every byte of a multi-byte UTF-8 sequence. *)
Definition encode_ascii_ignore (s : string) : bytes :=
  filter (fun b => (Byte.to_N b <? 128)%N) (list_byte_of_string s).

(** A [sha3_512()] object is the message absorbed so far; [update]
    appends to it and [digest] applies the hash function, which is a
    parameter of everything that hashes. *)
Definition hasher : Type := bytes.
Definition new : hasher := [].
Definition update (h : hasher) (data : bytes) : hasher := h ++ data.
Definition digest (sha3_512 : bytes -> bytes) (h : hasher) : bytes :=
  sha3_512 h.

(** Order on [bytes] objects (lexicographic), and [sorted]. *)
Fixpoint bytes_leb (a b : bytes) : bool :=
  match a, b with
  | [], _ => true
  | _ :: _, [] => false
  | x :: a', y :: b' =>
      if (Byte.to_N x <? Byte.to_N y)%N then true
      else if (Byte.to_N y <? Byte.to_N x)%N then false
      else bytes_leb a' b'
  end.

Fixpoint insert_sorted (x : bytes) (l : list bytes) : list bytes :=
  match l with
  | [] => [x]
  | y :: l' => if bytes_leb x y then x :: l else y :: insert_sorted x l'
  end.

Definition sorted (l : list bytes) : list bytes :=
  fold_right insert_sorted [] l.

End Hashlib.

(* ------------------------------------------------------------------ *)
(** ** Port and Ports  (kcell.py) *)
Module Port.

(** [class Port]: the integer based port with a simple transformation. *)
Record t : Type := mk {
  name : string;
  trans : Kdb.Trans;
  width : Z;
  layer : Z;
  port_type : string
}.

(** [Port(name=, width=, layer=, port_type=, trans=, angle=, position=,
    mirror_x=)] with [port is None] and [name], [width], [layer] given. *)
Definition init (name : string) (width layer : Z) (port_type : string)
    (trans : option Kdb.Trans) (angle : option Z) (position : option (Z * Z))
    (mirror_x : bool) : result t :=
  match trans with
  | Some tr => Ok (mk name tr width layer port_type)
  | None =>
      match angle, position with
      | Some a, Some (x, y) =>
          Ok (mk name
                (Kdb.mkTrans (Kdb.angle_of_Z a) mirror_x (Kdb.mkVector x y))
                width layer port_type)
      | _, _ =>
          Raise (ValueError
            "angle and position must be given if creating a gdsfactory like port")
      end
  end.

(** [Port.copy(trans)]. *)
Definition copy (self : t) (tr : Kdb.Trans) : t :=
  mk (name self) (tr *t trans self) (width self) (layer self) (port_type self).

(** [self.trans = ...]. *)
Definition set_trans (self : t) (tr : Kdb.Trans) : t :=
  mk (name self) tr (width self) (layer self) (port_type self).

(** [Port.move(origin, destination)]: with one argument the port is moved
    by [origin], with two by [destination - origin].  The difference and
    the product are computed by the back end, in 32 bits; the coordinates
    handed in are taken to fit in 32 bits. *)
Definition move (self : t) (origin : Z * Z) (destination : option (Z * Z))
  : t :=
  let dest :=
    match destination with
    | None => Kdb.mkVector (fst origin) (snd origin)
    | Some d => Kdb.mkVector (fst d) (snd d)
    end in
  let org :=
    match destination with
    | None => Kdb.mkVector 0 0
    | Some _ => Kdb.mkVector (fst origin) (snd origin)
    end in
  set_trans self
    (Kdb.wrap_trans (trans self *t Kdb.of_disp (Kdb.vsub dest org))).

(** [Port.rotate(angle)]. *)
Definition rotate (self : t) (angle : Z) : t :=
  set_trans self (trans self *t Kdb.of_rot angle).

(** [IPortLike.hash], statement by statement. *)
Definition hash (sha3_512 : Hashlib.bytes -> Hashlib.bytes)
    (trans_hash : Kdb.Trans -> Z) (self : t) : result Hashlib.bytes :=
  let h := Hashlib.new in
  let h := Hashlib.update h (Hashlib.encode_utf8 (name self)) in
  do tb <- Hashlib.to_bytes8 (trans_hash (trans self));
  let h := Hashlib.update h tb in
  do wb <- Hashlib.to_bytes8 (width self);
  let h := Hashlib.update h wb in
  let h := Hashlib.update h (Hashlib.encode_utf8 (port_type self)) in
  do lb <- Hashlib.to_bytes8 (layer self);
  let h := Hashlib.update h lb in
  Ok (Hashlib.digest sha3_512 h).

(** The hash as the specification words it: the digest of
    [name || trans.hash || width || port_type || layer]. *)
Definition spec_hash (sha3_512 : Hashlib.bytes -> Hashlib.bytes)
    (trans_hash : Kdb.Trans -> Z) (self : t) : Hashlib.bytes :=
  sha3_512
    (Hashlib.encode_utf8 (name self)
     ++ Hashlib.be8 (trans_hash (trans self))
     ++ Hashlib.be8 (width self)
     ++ Hashlib.encode_utf8 (port_type self)
     ++ Hashlib.be8 (layer self)).

End Port.

Module Ports.

(** [class Ports]: the list [_ports]. *)
Definition t : Type := list Port.t.

(** [Ports.copy]. *)
Definition copy (self : t) : t := map (fun p => Port.copy p Kdb.R0) self.

(** [Ports.__getitem__]: the first port of that name. *)
Definition getitem (self : t) (key : string) : result Port.t :=
  match find (fun p => String.eqb (Port.name p) key) self with
  | Some p => Ok p
  | None => Raise (StopIteration key)
  end.

(** [self.get_all().get(name, None) is not None]. *)
Definition has_name (self : t) (n : string) : bool :=
  existsb (fun p => String.eqb (Port.name p) n) self.

(** [Ports.get_all]: the dictionary from names to ports; a later port
    replaces an earlier one of the same name. *)
Definition get_all (self : t) : gmap string Port.t :=
  fold_left (fun d v => <[Port.name v := v]> d) self empty.

(** [Ports.add_port(port, name)]. *)
Definition add_port (self : t) (port : Port.t) (name : option string)
  : result unit * t :=
  let _port := Port.copy port Kdb.R0 in
  let _port :=
    match name with
    | Some n => Port.mk n (Port.trans _port) (Port.width _port)
                  (Port.layer _port) (Port.port_type _port)
    | None => _port
    end in
  if has_name self (Port.name _port)
  then (Raise (ValueError "Port hase already been added to this cell"), self)
  else (Ok tt, self ++ [_port]).

(** [Ports.create_port(name=, width=, layer=, port_type=, trans=,
    position=, angle=, mirror_x=)]: no check for a name already taken. *)
Definition create_port (self : t) (name : string) (width layer : Z)
    (port_type : string) (trans : option Kdb.Trans)
    (position : option (Z * Z)) (angle : option Z) (mirror_x : bool)
  : result Port.t * t :=
  match trans, angle, position with
  | Some tr, _, _ =>
      match Port.init name width layer port_type (Some tr) None None false with
      | Ok port => (Ok port, self ++ [port])
      | Raise e => (Raise e, self)
      end
  | None, Some a, Some pos =>
      match Port.init name width layer port_type None (Some a) (Some pos)
              mirror_x with
      | Ok port => (Ok port, self ++ [port])
      | Raise e => (Raise e, self)
      end
  | None, _, _ =>
      (Raise (ValueError "You need to define trans or angle and position"), self)
  end.

End Ports.

(* ------------------------------------------------------------------ *)
(** ** KCell and Instance  (kcell.py) *)
Module KCell.

(** A shape of the back-end cell, known to this code only through the
    iteration flags of [Shapes.each] and through its [hash()]:
    [SRegions] selects polygons, boxes and paths, [STexts] texts. *)
Inductive Shape : Type :=
| SRegion (polygon_hash : Z)
| SText (text_hash : Z)
| SOther.

(** [class Instance]: a reference to a cell with the transformation of the
    back-end instance.  Instances with a complex (arbitrary angle)
    transformation are not embedded. *)
Record inst_of (C : Type) : Type := mkInstance {
  cell : C;
  trans : Kdb.Trans
}.
Arguments mkInstance {C} cell trans.
Arguments cell {C} i.
Arguments trans {C} i.

(** [class KCell]: the attributes set by [__init__], and the name and the
    shapes (by layer index) of the back-end cell. *)
Inductive t : Type := mk {
  name : string;
  shapes : list (Z * Shape);
  ports : Ports.t;
  insts : list (inst_of t);
  settings : pydict;
  _locked : bool;
  info : pydict
}.

Definition set_ports (c : t) (p : Ports.t) : t :=
  mk (name c) (shapes c) p (insts c) (settings c) (_locked c) (info c).
Definition set_insts (c : t) (i : list (inst_of t)) : t :=
  mk (name c) (shapes c) (ports c) i (settings c) (_locked c) (info c).
Definition set_name (c : t) (n : string) : t :=
  mk n (shapes c) (ports c) (insts c) (settings c) (_locked c) (info c).
Definition set_settings (c : t) (s : pydict) : t :=
  mk (name c) (shapes c) (ports c) (insts c) s (_locked c) (info c).
Definition set_locked (c : t) (b : bool) : t :=
  mk (name c) (shapes c) (ports c) (insts c) (settings c) b (info c).

(** [KCell.create_port]: the keyword arguments are handed on to
    [self.ports.create_port]. *)
Definition create_port (self : t) (name : string) (width layer : Z)
    (port_type : string) (trans : option Kdb.Trans)
    (position : option (Z * Z)) (angle : option Z) (mirror_x : bool)
  : result unit * t :=
  match Ports.create_port (ports self) name width layer port_type trans
          position angle mirror_x with
  | (Ok _, ps) => (Ok tt, set_ports self ps)
  | (Raise e, ps) => (Raise e, set_ports self ps)
  end.

(** [KCell.add_port(port, name)] for a [Port] argument (the conversion of
    the other port classes is not embedded). *)
Definition add_port (self : t) (port : Port.t) (name : option string)
  : result unit * t :=
  match Ports.add_port (ports self) port name with
  | (r, ps) => (r, set_ports self ps)
  end.

(** [KCell.create_inst(cell, trans)]: the back end inserts the cell
    instance array, the [Instance] is appended to [insts]. *)
Definition create_inst (self : t) (cell : t) (trans : Kdb.Trans)
  : inst_of t * t :=
  let inst := mkInstance cell trans in
  (inst, set_insts self (insts self ++ [inst])).

(** [KCell.copy]: a new cell around a duplicate of the back-end cell (which
    names it [dup_name]), with copies of the ports and the instances
    created again; settings and info start empty. *)
Definition copy (self : t) (dup_name : string) : t :=
  let c := mk dup_name (shapes self) [] [] [] false [] in
  let c := set_ports c (Ports.copy (ports self)) in
  let c :=
    fold_left (fun c inst => snd (create_inst c (cell inst) (trans inst)))
      (insts self) c in
  set_locked c false.

Section Hash.
Variable sha3_512 : Hashlib.bytes -> Hashlib.bytes.
Variable trans_hash : Kdb.Trans -> Z.
(** [self.layout().layer_indexes()]. *)
Variable layer_indexes : list Z.

Definition shapes_on (c : t) (l : Z) : list Shape :=
  map snd (filter (fun ls => fst ls =? l) (shapes c)).

Definition region_hashes (ss : list Shape) : list Z :=
  flat_map (fun s => match s with SRegion h => [h] | _ => [] end) ss.
Definition text_hashes (ss : list Shape) : list Z :=
  flat_map (fun s => match s with SText h => [h] | _ => [] end) ss.

(** [for x in zs: h.update(x.to_bytes(8, "big"))]. *)
Fixpoint update_all (h : Hashlib.hasher) (zs : list Z)
  : result Hashlib.hasher :=
  match zs with
  | [] => Ok h
  | z :: zs' =>
      do b <- Hashlib.to_bytes8 z; update_all (Hashlib.update h b) zs'
  end.

(** The loop over the layers: polygons first, then texts. *)
Fixpoint update_layers (c : t) (h : Hashlib.hasher) (ls : list Z)
  : result Hashlib.hasher :=
  match ls with
  | [] => Ok h
  | l :: ls' =>
      do h1 <- update_all h (region_hashes (shapes_on c l));
      do h2 <- update_all h1 (text_hashes (shapes_on c l));
      update_layers c h2 ls'
  end.

(** [KCell.hash], with [Instance.hash] unfolded in the comprehension over
    [self.insts].  The sorted instance hashes are bound to [insts_hashs]
    and not used again. *)
Fixpoint hash (self : t) {struct self} : result Hashlib.bytes :=
  let h := Hashlib.new in
  let h := Hashlib.update h (Hashlib.encode_ascii_ignore (name self)) in
  do h <- update_layers self h layer_indexes;
  do port_hashs0 <- mapM (Port.hash sha3_512 trans_hash) (ports self);
  let port_hashs := Hashlib.sorted port_hashs0 in
  let h := fold_left Hashlib.update port_hashs h in
  do insts_hashs0 <-
    (fix each (l : list (inst_of t)) : result (list Hashlib.bytes) :=
       match l with
       | [] => Ok []
       | inst :: l' =>
           do x <-
             (let hi := Hashlib.new in
              do ch <- hash (cell inst);
              let hi := Hashlib.update hi ch in
              do tb <- Hashlib.to_bytes8 (trans_hash (trans inst));
              let hi := Hashlib.update hi tb in
              Ok (Hashlib.digest sha3_512 hi));
           do xs <- each l';
           Ok (x :: xs)
       end) (insts self);
  let insts_hashs := Hashlib.sorted insts_hashs0 in
  Ok (Hashlib.digest sha3_512 h).

(** The hash as the specification words it: name, per-layer shape
    hashes, sorted port hashes, then the sorted instance hashes. *)
Definition spec_hash (inst_hash : inst_of t -> result Hashlib.bytes)
    (self : t) : result Hashlib.bytes :=
  let h := Hashlib.update Hashlib.new
             (Hashlib.encode_ascii_ignore (name self)) in
  do h <- update_layers self h layer_indexes;
  do port_hashs0 <- mapM (Port.hash sha3_512 trans_hash) (ports self);
  let h := fold_left Hashlib.update (Hashlib.sorted port_hashs0) h in
  do insts_hashs0 <- mapM inst_hash (insts self);
  let h := fold_left Hashlib.update (Hashlib.sorted insts_hashs0) h in
  Ok (Hashlib.digest sha3_512 h).

End Hash.

End KCell.

Module Instance.

Definition t : Type := KCell.inst_of KCell.t.

(** [Instance.hash]. *)
Definition hash (sha3_512 : Hashlib.bytes -> Hashlib.bytes)
    (trans_hash : Kdb.Trans -> Z) (layer_indexes : list Z) (self : t)
  : result Hashlib.bytes :=
  let h := Hashlib.new in
  do ch <- KCell.hash sha3_512 trans_hash layer_indexes (KCell.cell self);
  let h := Hashlib.update h ch in
  do tb <- Hashlib.to_bytes8 (trans_hash (KCell.trans self));
  let h := Hashlib.update h tb in
  Ok (Hashlib.digest sha3_512 h).

(** [InstancePorts.__getitem__] for an instance that is not complex:
    [p.copy(trans=self.instance.trans)]. *)
Definition ports_getitem (self : t) (key : string) : result Port.t :=
  do p <- Ports.getitem (KCell.ports (KCell.cell self)) key;
  Ok (Port.copy p (KCell.trans self)).

(** [InstancePorts.copy] for an instance that is not complex. *)
Definition ports_copy (self : t) : Ports.t :=
  map (fun port => Port.copy port (KCell.trans self))
    (KCell.ports (KCell.cell self)).

(** The [other] argument of [connect]: an [Instance], a [Port], or an
    object of any other class. *)
Inductive other_arg : Type :=
| OtherInstance (i : t)
| OtherPort (p : Port.t)
| OtherObject.

(** The first statement of [connect]: the other port [op]. *)
Definition other_port (other : other_arg) (other_port_name : option string)
  : result Port.t :=
  match other with
  | OtherInstance o =>
      match other_port_name with
      | None =>
          Raise (ValueError
            "portname cannot be None if an Instance Object is given.")
      | Some n => ports_getitem o n
      end
  | OtherPort p => Ok p
  | OtherObject =>
      Raise (ValueError "other_instance must be of type Instance or Port")
  end.

(** [Instance.connect(portname, other, other_port_name, mirror=,
    allow_width_mismatch=, allow_layer_mismatch=, allow_type_mismatch=)].
    The result is paired with the instance as the call leaves it.  The
    other port [op] is a simple integer port here, so the branch
    [is_simple_port(op)] is the one taken. *)
Definition connect (self : t) (portname : string) (other : other_arg)
    (other_port_name : option string)
    (mirror allow_width_mismatch allow_layer_mismatch allow_type_mismatch
       : bool)
  : result unit * t :=
  match other_port other other_port_name with
  | Raise e => (Raise e, self)
  | Ok op =>
      match Ports.getitem (KCell.ports (KCell.cell self)) portname with
      | Raise e => (Raise e, self)
      | Ok p =>
          if negb (Port.width p =? Port.width op)
             && negb allow_width_mismatch
          then (Raise PortWidthMismatch, self)
          else if negb (Port.layer p =? Port.layer op)
                  && negb allow_layer_mismatch
          then (Raise PortLayerMismatch, self)
          else if negb (String.eqb (Port.port_type p) (Port.port_type op))
                  && negb allow_type_mismatch
          then (Raise PortTypeMismatch, self)
          else
            let conn_trans := if mirror then Kdb.M90 else Kdb.R180 in
            (Ok tt,
             KCell.mkInstance (KCell.cell self)
               (Port.trans op *t conn_trans *t Kdb.inverted (Port.trans p)))
      end
  end.

End Instance.

(* ------------------------------------------------------------------ *)
(** ** Floating point lengths

    [kdb.Vector.length()] returns a C double and the placer sums the
    lengths in a Python float; both are binary64, as Rocq's primitive
    floats. *)
Module Float.

Definition of_Z (z : Z) : float :=
  match z with
  | Z0 => PrimFloat.of_uint63 (Uint63.of_Z 0)
  | Zpos _ => PrimFloat.of_uint63 (Uint63.of_Z z)
  | Zneg p => PrimFloat.opp (PrimFloat.of_uint63 (Uint63.of_Z (Zpos p)))
  end.

(** [v.length()]: [sqrt(double(x) * double(x) + double(y) * double(y))]. *)
Definition vector_length (v : Kdb.Vector) : float :=
  let ddx := of_Z (Kdb.vx v) in
  let ddy := of_Z (Kdb.vy v) in
  PrimFloat.sqrt (PrimFloat.add (PrimFloat.mul ddx ddx) (PrimFloat.mul ddy ddy)).

(** [n / d] rounded to the nearest integer, ties to the even one. *)
Definition round_half_even (n d : Z) : Z :=
  let q := n / d in
  let r := n mod d in
  if 2 * r <? d then q
  else if d <? 2 * r then q + 1
  else if Z.even q then q else q + 1.

(** [round(x)] of a Python float. *)
Definition py_round (x : float) : result Z :=
  match Prim2SF x with
  | S754_zero _ => Ok 0
  | S754_infinity _ => Raise OverflowError
  | S754_nan => Raise (ValueError "cannot convert float NaN to integer")
  | S754_finite s m e =>
      let mag :=
        if 0 <=? e then Zpos m * 2 ^ e
        else round_half_even (Zpos m) (2 ^ (- e)) in
      Ok (if s then - mag else mag)
  end.

End Float.

(* ------------------------------------------------------------------ *)
(** ** Placers  (routing/electrical.py) and the route record
       (routing/generic.py) *)
Module Routing.

(** Modelled from the spec: the [Port] class the routing code imports is
    not among the sources; the attributes are the ones the routing code
    reads ([name], [trans], [width], [layer_info]) and the specification
    lists for a port. *)
Record Port : Type := mkPort {
  name : string;
  trans : Kdb.Trans;
  width : Z;
  layer_info : Kdb.LayerInfo;
  port_type : string
}.

(** Modelled from the spec: [p.copy(post_trans=t)] applies [t] after the
    port's own transformation. *)
Definition copy_post_trans (p : Port) (post_trans : Kdb.Trans) : Port :=
  mkPort (name p) (trans p *t post_trans) (width p) (layer_info p)
    (port_type p).

(** Modelled from the spec: the step grammar of the router input. *)
Inductive Step : Type :=
| Straight (dist : Z)
| Left (radius : Z)
| Right (radius : Z)
| AngleStep (delta : Z).

(** Modelled from the spec: what [route_bundle] reads of a
    [ManhattanRouter]; [start_pts] is [router.start.pts]. *)
Record ManhattanRouter : Type := mkRouter {
  start_transformation : Kdb.Trans;
  end_transformation : Kdb.Trans;
  start_pts : list Kdb.Point;
  router_width : Z
}.

(** Polygons the placers insert, kept as the expression that builds them:
    the hull of a path, or the [index]-th polygon of the region
    [Region(Path(pts, outer)) - Region(Path(pts, inner))]. *)
Inductive Polygon : Type :=
| PathPolygon (pts : list Kdb.Point) (width : Z)
| RailPolygon (pts : list Kdb.Point) (outer inner : Z) (index : nat).

Inductive RouteInstance : Type :=
| mkRouteInstance (cell_name : string) (trans : Kdb.Trans).

(** [class ManhattanRoute]. *)
Record ManhattanRoute : Type := mkManhattanRoute {
  backbone : list Kdb.Point;
  start_port : Port;
  end_port : Port;
  instances : list RouteInstance;
  n_bend90 : Z;
  n_taper : Z;
  bend90_radius : Z;
  taper_length : Z;
  length : Z;
  length_straights : Z;
  polygons : list (Kdb.LayerInfo * list Polygon)
}.

(** The shapes of the cell the routes are placed in. *)
Definition cell : Type := list (Kdb.LayerInfo * Polygon).

(** [c.shapes(c.layer(layer_info)).insert(poly)]. *)
Definition insert_shape (c : cell) (l : Kdb.LayerInfo) (poly : Polygon) : cell :=
  c ++ [(l, poly)].

(** The keyword arguments handed to a placer: [route_width] and
    [layer_info] (absent and [None] are the same to both placers),
    [separation_rails] (absent, or given with a value that may be [None])
    and the names of any further keywords. *)
Record placer_kwargs : Type := mkPlacerKwargs {
  kw_route_width : option Z;
  kw_layer_info : option Kdb.LayerInfo;
  kw_separation_rails : option (option Z);
  kw_extra : list string
}.

Definition or_default {A : Type} (o : option A) (d : A) : A :=
  match o with Some a => a | None => d end.

(** The loop of [place_single_wire]:
    [pt1 = pts[0]; for pt2 in pts[1:]: length += (pt2 - pt1).length()]. *)
Definition wire_length (pt1 : Kdb.Point) (rest : list Kdb.Point) : float :=
  fold_left
    (fun length pt2 =>
       PrimFloat.add length (Float.vector_length (Kdb.vsub pt2 pt1)))
    rest (Float.of_Z 0).

(** [place_single_wire(c, p1, p2, pts, route_width, layer_info)] with
    further keywords collected in [kwargs];
    [separation_rails] is no parameter of it and lands in [kwargs]. *)
Definition place_single_wire (c : cell) (p1 p2 : Port)
    (pts : list Kdb.Point) (kw : placer_kwargs)
  : result ManhattanRoute * cell :=
  let layer_info := or_default (kw_layer_info kw) (layer_info p1) in
  let route_width := or_default (kw_route_width kw) (width p1) in
  match kw_separation_rails kw, kw_extra kw with
  | None, [] =>
      let shape := PathPolygon pts route_width in
      let c := insert_shape c layer_info shape in
      match pts with
      | [] => (Raise IndexError, c)
      | pt1 :: rest =>
          match Float.py_round (wire_length pt1 rest) with
          | Raise e => (Raise e, c)
          | Ok n =>
              (Ok (mkManhattanRoute pts p1 p2 [] 0 0 0 0 0 n
                     [(layer_info, [shape])]), c)
          end
      end
  | _, _ =>
      (Raise (ValueError
         "Additional kwargs aren't supported in route_single_wire"), c)
  end.

(** The sum the specification gives for [length_straights]: the lengths of
    the segments between consecutive backbone points, accumulated in the
    order of the backbone. *)
Fixpoint spec_length_from (length : float) (p : Kdb.Point)
    (rest : list Kdb.Point) : float :=
  match rest with
  | [] => length
  | q :: rest' =>
      spec_length_from
        (PrimFloat.add length (Float.vector_length (Kdb.vsub q p))) q rest'
  end.

Definition spec_length (pts : list Kdb.Point) : float :=
  match pts with
  | [] => Float.of_Z 0
  | p :: rest => spec_length_from (Float.of_Z 0) p rest
  end.

(** [place_dual_rails(c, p1, p2, pts, route_width, layer_info,
    separation_rails)] with further keywords collected in [kwargs].
    [region_size] is the number of polygons of the region difference, which
    the back end computes.  The two rails are inserted one after the
    other.  For a region without polygon the back end raises
    [RuntimeError] before anything is inserted; for a region of one
    polygon [region[1]] is [None], which the back end refuses to insert
    with a [TypeError], the first rail being in the cell by then.  The
    messages are the back end's and stand for themselves here. *)
Definition place_dual_rails
    (region_size : list Kdb.Point -> Z -> Z -> nat)
    (c : cell) (p1 p2 : Port) (pts : list Kdb.Point) (kw : placer_kwargs)
  : result ManhattanRoute * cell :=
  match kw_extra kw with
  | _ :: _ =>
      (Raise (ValueError
         "Additional kwargs aren't supported in route_dual_rails"), c)
  | [] =>
      let layer_info := or_default (kw_layer_info kw) (layer_info p1) in
      let route_width := or_default (kw_route_width kw) (width p1) in
      match kw_separation_rails kw with
      | None | Some None =>
          (Raise (ValueError
             "Must specify a separation between the two rails."), c)
      | Some (Some separation_rails) =>
          if route_width <=? separation_rails
          then (Raise (ValueError
                  "separation_rails must be smaller than the route_width"), c)
          else
            let n := region_size pts route_width separation_rails in
            if (n <=? 0)%nat
            then (Raise (RuntimeError "the region has no polygon"), c)
            else
              let s0 := RailPolygon pts route_width separation_rails 0 in
              let c := insert_shape c layer_info s0 in
              if (n <=? 1)%nat
              then (Raise (TypeError "None is not a shape"), c)
              else
                let s1 := RailPolygon pts route_width separation_rails 1 in
                let c := insert_shape c layer_info s1 in
                (Ok (mkManhattanRoute pts p1 p2 [] 0 0 0 0 0 0
                       [(layer_info, [s0; s1])]), c)
      end
  end.

End Routing.

(* ------------------------------------------------------------------ *)
(** ** route_bundle  (routing/generic.py) *)
Module Generic.
Import Routing.

(** [Literal["error", "show_error"]]. *)
Inductive on_error : Type := OnError | OnShowError.

(** [TUnit | Sequence[TUnit] | Sequence[Step] | Sequence[Sequence[Step]]
    | None] for [starts] and [ends]. *)
Inductive steps_arg : Type :=
| StepsNone
| StepsUnit (d : Z)
| StepsUnits (ds : list Z)
| StepsList (ss : list Step)
| StepsLists (sss : list (list Step)).

(** [TUnit | Sequence[TUnit] | None] for the angles and the route width. *)
Inductive units_arg : Type :=
| UnitsNone
| UnitsOne (a : Z)
| UnitsMany (l : list Z).

(** What the call does to the outside, in order. *)
Inductive event : Type :=
| EvRoutingFunction
| EvPostProcess
| EvPlacer (ps pe : Port) (pts : list Kdb.Point)
| EvShow
| EvLogError (e : exn)
| EvCheckCollisions.

(** The cell [c] and the log of events. *)
Record world : Type := mkWorld {
  w_cell : cell;
  w_trace : list event
}.

Definition log (ev : event) (w : world) : world :=
  mkWorld (w_cell w) (w_trace w ++ [ev]).

Record args : Type := mkArgs {
  start_ports : list Port;
  end_ports : list Port;
  route_width : units_arg;
  on_collision : option on_error;
  on_placer_error : option on_error;
  collision_check_layers : option (list Kdb.LayerInfo);
  placer_kw : placer_kwargs;
  starts : steps_arg;
  ends : steps_arg;
  start_angles : units_arg;
  end_angles : units_arg
}.

(** The event of handing one router to the placer. *)
Definition placer_event (x : ManhattanRouter * Port * Port) : event :=
  EvPlacer (snd (fst x)) (snd x) (start_pts (fst (fst x))).

Section RouteBundle.

(** [c.to_dbu]. *)
Variable to_dbu : Z -> Z.
(** [routing_function] with its [routing_kwargs] applied. *)
Variable routing_function :
  list Port -> list Port -> list Z -> list (list Step) -> list (list Step)
  -> result (list ManhattanRouter).
(** [placer_function]. *)
Variable placer_function :
  cell -> Port -> Port -> list Kdb.Point -> placer_kwargs
  -> result ManhattanRoute * cell.
(** [router_post_process_function] with its kwargs applied; it may
    change the routers in place. *)
Variable router_post_process_function :
  option (cell -> list Port -> list Port -> list ManhattanRouter
          -> result (list ManhattanRouter) * cell).
(** The geometric tests of [check_collisions], computed by the back end:
    some router reports colliding edges; some checked layer has
    overlapping route shapes or instances. *)
Variable router_collisions : list ManhattanRouter -> bool.
Variable layer_collisions :
  cell -> list ManhattanRoute -> list Kdb.LayerInfo -> bool.

(** [start_angles_] / [end_angles_]. *)
Definition angles_to_dbu (a : units_arg) : units_arg :=
  match a with
  | UnitsNone => UnitsNone
  | UnitsOne x => UnitsOne (to_dbu x)
  | UnitsMany l => UnitsMany (map to_dbu l)
  end.

(** [starts_] / [ends_]; [n] is the number of ports repeated over. *)
Definition steps_normal (s : steps_arg) (n : nat) : list (list Step) :=
  match s with
  | StepsNone | StepsUnits [] | StepsList [] | StepsLists [] =>
      repeat [] n
  | StepsUnit d => repeat [Straight (to_dbu d)] n
  | StepsUnits ds => map (fun s => [Straight (to_dbu s)]) ds
  | StepsList ss => repeat ss n
  | StepsLists sss => sss
  end.

Definition rotate_to (a : Z) (p : Port) : Port :=
  copy_post_trans p (Kdb.of_rot (a - Kdb.angle_code (Kdb.angle (trans p)))).

(** The rotation of the ports to the given angles.  [ports] is the list
    whose length is checked and that is rotated when one angle is given;
    [zipped] is the list the angles are zipped with when there are many
    (for the end ports the source zips with [start_ports_]). *)
Definition rotate_ports (angles_ : units_arg) (ports zipped : list Port)
  : result (list Port) :=
  match angles_ with
  | UnitsNone => Ok ports
  | UnitsOne a => Ok (map (rotate_to a) ports)
  | UnitsMany l =>
      if negb (List.length l =? List.length ports)%nat
      then Raise (ValueError
             "If more than one end port should be rotated, a rotation for all ports must be provided.")
      else Ok (map (fun ap => rotate_to (fst ap) (snd ap)) (combine l zipped))
  end.

Definition widths_of (rw : units_arg) (start_ports_ : list Port) : list Z :=
  match rw with
  | UnitsNone | UnitsOne 0 | UnitsMany [] => map width start_ports_
  | UnitsOne w => repeat (to_dbu w) (List.length start_ports_)
  | UnitsMany l => map to_dbu l
  end.

(** [{p.trans: p for p in ports}[t]]: the last port with that
    transformation, [KeyError] when there is none. *)
Definition mapping_get (ports : list Port) (t : Kdb.Trans) : result Port :=
  match find (fun p => Kdb.trans_eqb (trans p) t) (rev ports) with
  | Some p => Ok p
  | None => Raise (KeyError "transformation")
  end.

(** Everything up to the loop over the routers: [Ok None] is the early
    [return []], [Ok (Some (routers, pp_start_ports, pp_end_ports))] the
    state in which the placer loop starts. *)
Definition plan (a : args) (w : world)
  : result (option (list ManhattanRouter * list Port * list Port)) * world :=
  match start_ports a with
  | [] => (Ok None, w)
  | _ :: _ =>
    if negb (List.length (start_ports a) =? List.length (end_ports a))%nat
    then (Raise (ValueError
            "For bundle routing the input port list must have the same size as the end ports and be the same length."), w)
    else
      let start_ports_ := start_ports a in
      let end_ports_ := end_ports a in
      let start_angles_ := angles_to_dbu (start_angles a) in
      let end_angles_ := angles_to_dbu (end_angles a) in
      let length := List.length start_ports_ in
      let starts_ := steps_normal (starts a) length in
      let ends_ := steps_normal (ends a) length in
      match rotate_ports start_angles_ start_ports_ start_ports_ with
      | Raise e => (Raise e, w)
      | Ok start_ports_ =>
      match rotate_ports end_angles_ end_ports_ start_ports_ with
      | Raise e => (Raise e, w)
      | Ok end_ports_ =>
        let widths := widths_of (route_width a) start_ports_ in
        let w := log EvRoutingFunction w in
        match routing_function start_ports_ end_ports_ widths starts_ ends_ with
        | Raise e => (Raise e, w)
        | Ok [] => (Ok None, w)
        | Ok routers =>
          match mapM (fun r =>
                        do sp <- mapping_get start_ports_ (start_transformation r);
                        do ep <- mapping_get end_ports_ (end_transformation r);
                        Ok (sp, ep)) routers with
          | Raise e => (Raise e, w)
          | Ok pps =>
            let pp_start_ports := map fst pps in
            let pp_end_ports := map snd pps in
            match router_post_process_function with
            | None => (Ok (Some (routers, pp_start_ports, pp_end_ports)), w)
            | Some post =>
                let w := log EvPostProcess w in
                match post (w_cell w) pp_start_ports pp_end_ports routers with
                | (Raise e, c) => (Raise e, mkWorld c (w_trace w))
                | (Ok routers', c) =>
                    (Ok (Some (routers', pp_start_ports, pp_end_ports)),
                     mkWorld c (w_trace w))
                end
            end
          end
        end
      end
      end
  end.

(** [zip(routers, pp_start_ports, pp_end_ports)]. *)
Definition zip3 (routers : list ManhattanRouter) (sps eps : list Port)
  : list (ManhattanRouter * Port * Port) :=
  combine (combine routers sps) eps.

(** The state of the placer loop: [routes], [placer_errors],
    [error_routes] and the world. *)
Record loop_state : Type := mkLoop {
  routes : list ManhattanRoute;
  placer_errors : list exn;
  error_routes : list (Port * Port * list Kdb.Point * Z);
  loop_world : world
}.

(** One turn of the loop: the placer is called inside [try]; a route is
    appended, or the exception and the route that failed are. *)
Definition place_one (kw : placer_kwargs) (st : loop_state)
    (x : ManhattanRouter * Port * Port) : loop_state :=
  let '(router, ps, pe) := x in
  let w := log (EvPlacer ps pe (start_pts router)) (loop_world st) in
  match placer_function (w_cell w) ps pe (start_pts router) kw with
  | (Ok route, c) =>
      mkLoop (routes st ++ [route]) (placer_errors st) (error_routes st)
        (mkWorld c (w_trace w))
  | (Raise e, c) =>
      mkLoop (routes st) (placer_errors st ++ [e])
        (error_routes st ++ [(ps, pe, start_pts router, router_width router)])
        (mkWorld c (w_trace w))
  end.

Definition place_all (kw : placer_kwargs)
    (routers : list ManhattanRouter) (sps eps : list Port) (w : world)
  : loop_state :=
  fold_left (place_one kw) (zip3 routers sps eps) (mkLoop [] [] [] w).

(** [list({p.layer_info for p in start_ports})], first occurrences. *)
Fixpoint layer_set (ps : list Port) (seen : list Kdb.LayerInfo)
  : list Kdb.LayerInfo :=
  match ps with
  | [] => rev seen
  | p :: ps' =>
      if existsb (Kdb.layer_info_eqb (layer_info p)) seen
      then layer_set ps' seen
      else layer_set ps' (layer_info p :: seen)
  end.

(** [check_collisions]: nothing is looked at when [on_collision] is
    [None]; the layers are only checked when a router reports a
    collision; a collision found raises, after [c.show] for
    ["show_error"]. *)
Definition check_collisions (start_ports_ : list Port)
    (routers : list ManhattanRouter) (routes_ : list ManhattanRoute)
    (on_coll : option on_error) (layers : option (list Kdb.LayerInfo))
    (w : world) : result unit * world :=
  let w := log EvCheckCollisions w in
  match on_coll with
  | None => (Ok tt, w)
  | Some mode =>
      if router_collisions routers then
        let layers_ :=
          match layers with
          | Some l => l
          | None => layer_set start_ports_ []
          end in
        if layer_collisions (w_cell w) routes_ layers_ then
          match mode with
          | OnShowError =>
              (Raise (RuntimeError "Routing collision"), log EvShow w)
          | OnError => (Raise (RuntimeError "Routing collision"), w)
          end
        else (Ok tt, w)
      else (Ok tt, w)
  end.

(** [route_bundle]. *)
Definition route_bundle (a : args) (w : world)
  : result (list ManhattanRoute) * world :=
  match plan a w with
  | (Raise e, w) => (Raise e, w)
  | (Ok None, w) => (Ok [], w)
  | (Ok (Some (routers, pp_start_ports, pp_end_ports)), w) =>
      let st := place_all (placer_kw a) routers pp_start_ports pp_end_ports w in
      let w := loop_world st in
      let w :=
        match placer_errors st, on_placer_error a with
        | _ :: _, Some OnShowError => log EvShow w
        | _, _ => w
        end in
      match placer_errors st, on_placer_error a with
      | _ :: _, Some _ =>
          (Raise PlacerError,
           fold_left (fun w e => log (EvLogError e) w) (placer_errors st) w)
      | _, _ =>
          match check_collisions (start_ports a) routers (routes st)
                  (on_collision a) (collision_check_layers a) w with
          | (Raise e, w) => (Raise e, w)
          | (Ok _, w) => (Ok (routes st), w)
          end
      end
  end.

End RouteBundle.

End Generic.

(* ------------------------------------------------------------------ *)
(** ** KLib, the cell registry  (kcell.py) *)
Module KLib.

(** [class KLib(kdb.Layout)]: the dictionary [kcells] from names to
    [KCell] objects (known by identity) and, of the layout it extends, the
    names of the back-end cells in the order of their cell index. *)
Record t : Type := mk {
  kcells : gmap string nat;
  cells : list string
}.

(** [kdb.Layout.cell(name)]: the back-end cell of that name, if any. *)
Definition cell (self : t) (name : string) : option nat :=
  (fix index (l : list string) (i : nat) : option nat :=
     match l with
     | [] => None
     | n :: l' => if String.eqb n name then Some i else index l' (S i)
     end) (cells self) O.

Definition suffixed (name : string) (k : nat) : string :=
  (name ++ "$" ++ str_of_Z (Z.of_nat k))%string.

(** The first of [name$k], [name$(k+1)], ... that no cell has. *)
Fixpoint first_free (names : list string) (name : string) (k fuel : nat)
  : string :=
  match fuel with
  | O => suffixed name k
  | S fuel' =>
      if existsb (String.eqb (suffixed name k)) names
      then first_free names name (S k) fuel'
      else suffixed name k
  end.

(** The name the back end gives a new cell: the requested one when it is
    free, else the requested one with a suffix [$n] that makes it unique
    (the back end's choice of [n] is taken to be the first free one). *)
Definition uniquify_cell_name (names : list string) (name : string) : string :=
  if existsb (String.eqb name) names
  then first_free names name 1 (List.length names)
  else name.

(** [kdb.Layout.create_cell(self, name)]: the new cell index and the
    layout with the cell added. *)
Definition Layout_create_cell (names : list string) (name : string)
  : nat * list string :=
  (List.length names, names ++ [uniquify_cell_name names name]).

(** [KLib.create_cell(kcell, name, allow_duplicate=)]. *)
Definition create_cell (self : t) (kcell : nat) (name : string)
    (allow_duplicate : bool) : result nat * t :=
  if allow_duplicate
     || match cell self name with None => true | Some _ => false end
  then
    let kcells' := <[name := kcell]> (kcells self) in
    let '(idx, cells') := Layout_create_cell (cells self) name in
    (Ok idx, mk kcells' cells')
  else
    (Raise (ValueError
       "Cellname already exists. Please make sure the cellname is unique or pass `allow_duplicate` when creating the library"),
     self).

(** [KLib.register_cell(kcell)], for the cell object [kcell] named
    [name]. *)
Definition register_cell (self : t) (kcell : nat) (name : string)
  : result unit * t :=
  match kcells self !! name with
  | Some k' =>
      if negb (Nat.eqb kcell k')
      then (Raise (KeyError
              "Cannot register a new cell with a name that already exists in the library"),
            self)
      else (Ok tt, mk (<[name := kcell]> (kcells self)) (cells self))
  | None => (Ok tt, mk (<[name := kcell]> (kcells self)) (cells self))
  end.

(** [KLib.update_cell_name(name, new_name)]. *)
Definition update_cell_name (self : t) (name new_name : string)
  : result unit * t :=
  if negb (String.eqb new_name name) then
    match kcells self !! name with
    | None => (Raise (KeyError name), self)
    | Some k =>
        (Ok tt, mk (delete name (<[new_name := k]> (kcells self))) (cells self))
    end
  else (Ok tt, self).

(** [kdb.Cell.name = new_name] for the back-end cell with index [idx]:
    the back end renames without looking at the other names. *)
Definition Layout_rename (names : list string) (idx : nat) (new_name : string)
  : list string :=
  <[idx := new_name]> names.

(** The setter of [KCell.name] for the cell with back-end index [idx]: the
    back-end cell is renamed first, then the registry is told. *)
Definition name_setter (self : t) (idx : nat) (new_name : string)
  : result unit * t :=
  let name := nth idx (cells self) "" in
  let self := mk (kcells self) (Layout_rename (cells self) idx new_name) in
  update_cell_name self name new_name.

(** [self.name = new_name], which goes through [KCell.__setattr__]: the
    setter of the property runs, then the attribute of the back-end cell is
    set once more. *)
Definition setattr_name (self : t) (idx : nat) (new_name : string)
  : result unit * t :=
  match name_setter self idx new_name with
  | (Raise e, lib) => (Raise e, lib)
  | (Ok _, lib) =>
      (Ok tt, mk (kcells lib) (Layout_rename (cells lib) idx new_name))
  end.

(** [KCell.__init__(name, library)] without [kdb_cell], as far as the
    library is concerned: [kcell] is the object under construction, the
    result its back-end cell index. *)
Definition KCell_init (self : t) (kcell : nat) (name : option string)
  : result nat * t :=
  let _name := match name with Some n => n | None => "Unnamed_" end in
  match create_cell self kcell _name false with
  | (Raise e, lib) => (Raise e, lib)
  | (Ok idx, lib) =>
      match name with
      | Some _ => (Ok idx, lib)
      | None =>
          match setattr_name lib idx
                  ("Unnamed_" ++ str_of_Z (Z.of_nat idx))%string with
          | (Raise e, lib) => (Raise e, lib)
          | (Ok _, lib) => (Ok idx, lib)
          end
      end
  end.

End KLib.

(* ------------------------------------------------------------------ *)
(** ** The parametric cell decorator [autocell] and its cache  (kcell.py) *)
Module Autocell.

(** [dict_to_frozen_set(d)]: [frozenset(d.items())] hashes every item. *)
Definition dict_to_frozen_set (d : pydict) : result Value :=
  if forallb (fun kv => hashable (snd kv)) d
  then Ok (VFrozenset (sort_by_key d))
  else Raise (TypeError "unhashable type").

(** [frozenset_to_dict(fs)]. *)
Definition frozenset_to_dict (items : pydict) : Value := VDict items.

(** [cachetools.keys.hashkey] of the keyword arguments [params]: the items
    sorted by name, hashed. *)
Definition hashkey (params : pydict) : result pydict :=
  if forallb (fun kv => hashable (snd kv)) params
  then Ok (sort_by_key params)
  else Raise (TypeError "unhashable type").

(** [class KCellCache(Cache)]: the entries in insertion order; every
    value has size one. *)
Record cache : Type := mkCache {
  maxsize : nat;
  data : list (pydict * nat)
}.

(** [cache[k]]. *)
Definition cache_get (c : cache) (k : pydict) : option nat :=
  match find (fun e => items_eqb (fst e) k) (data c) with
  | Some e => Some (snd e)
  | None => None
  end.

(** [while self.currsize + 1 > maxsize: self.popitem()]: the entry
    inserted first goes first. *)
Fixpoint evict (maxsize : nat) (d : list (pydict * nat)) : list (pydict * nat) :=
  match d with
  | [] => []
  | _ :: d' => if (maxsize <? List.length d + 1)%nat then evict maxsize d' else d
  end.

(** [cache[k] = v] ([Cache.__setitem__]). *)
Definition cache_set (c : cache) (k : pydict) (v : nat) : result unit * cache :=
  if (maxsize c <? 1)%nat then (Raise (ValueError "value too large"), c)
  else
    match cache_get c k with
    | Some _ =>
        (Ok tt,
         mkCache (maxsize c)
           (map (fun e => if items_eqb (fst e) k then (fst e, v) else e) (data c)))
    | None =>
        (Ok tt, mkCache (maxsize c) (evict (maxsize c) (data c) ++ [(k, v)]))
    end.

(** The cell objects, by identity: object [i] is the [i]-th of the list. *)
Abbreviation heap := (list KCell.t).

(** The cell object [i] exists and is locked. *)
Definition locked_at (h : heap) (i : nat) : Prop :=
  exists c, h !! i = Some c /\ KCell._locked c = true.

(** A cell function that leaves locked cells locked (it neither deletes
    them nor resets [_locked]). *)
Definition keeps_locked (f : pydict -> heap -> result nat * heap) : Prop :=
  forall p h r h', f p h = (r, h') ->
    forall i, locked_at h i -> locked_at h' i.

(** What every call of a decorated function maintains: the cached cells
    are locked, and no cell is cached twice. *)
Definition cache_inv (st : heap * cache) : Prop :=
  (forall k v, In (k, v) (data (snd st)) -> locked_at (fst st) v)
  /\ List.NoDup (map snd (data (snd st))).

Section Decorator.

(** [signature(f)]: the parameters with their defaults (the marker
    [inspect.Parameter.empty] for a parameter without one). *)
Variable sig : pydict.
(** [f.__name__] and [f] itself: called with the parameters, it returns
    a cell object and may create and change cells.  It does not call
    functions decorated with this very cache. *)
Variable fname : string.
Variable f : pydict -> heap -> result nat * heap.
Variable set_settings : bool.
Variable set_name : bool.
(** [get_component_name], which only decides the new name. *)
Variable get_component_name : string -> pydict -> string.
(** The name the back end gives the duplicate of a cell. *)
Variable dup_name : string -> string.

(** The binding of [args] and [kwargs] to the parameters. *)
Definition bind_params (args : list Value) (kwargs : pydict) : pydict :=
  let params := sig in
  let arg_par := combine (map fst sig) args in
  let params :=
    fold_left (fun acc ka => dict_set acc (fst ka) (snd ka)) arg_par params in
  dict_update params kwargs.

(** [for key, value in params.items(): if isinstance(value, dict): ...]. *)
Definition freeze_dicts (params : pydict) : result pydict :=
  mapM (fun kv =>
          match snd kv with
          | VDict d => do fs <- dict_to_frozen_set d; Ok (fst kv, fs)
          | _ => Ok kv
          end) params.

Definition thaw_frozensets (params : pydict) : pydict :=
  map (fun kv =>
         match snd kv with
         | VFrozenset items => (fst kv, frozenset_to_dict items)
         | _ => kv
         end) params.

(** The body of [wrapped_cell].  A cell function returns an object that
    exists; the branch for an identity without object is there to make the
    function total.  What the name setter tells the registry and the copy
    of the settings into back-end properties are not embedded. *)
Definition wrapped_cell (params : pydict) (h : heap) : result nat * heap :=
  let params := thaw_frozensets params in
  match f params h with
  | (Raise e, h) => (Raise e, h)
  | (Ok id, h) =>
      match h !! id with
      | None => (Raise (RuntimeError "no such cell object"), h)
      | Some cell =>
          let '(id, cell, h) :=
            if KCell._locked cell
            then
              let c := KCell.copy cell (dup_name (KCell.name cell)) in
              (List.length h, c, h ++ [c])
            else (id, cell, h) in
          let cell :=
            if set_name
            then KCell.set_name cell (get_component_name fname params)
            else cell in
          let cell :=
            if set_settings
            then KCell.set_settings cell
                   (dict_update (KCell.settings cell) params)
            else cell in
          let cell := KCell.set_locked cell true in
          (Ok id, <[id := cell]> h)
      end
  end.

(** The cache key of a call. *)
Definition call_key (args : list Value) (kwargs : pydict) : result pydict :=
  do params <- freeze_dicts (bind_params args kwargs);
  hashkey params.

(** [wrapper_autocell]: the decorated function. *)
Definition wrapper_autocell (args : list Value) (kwargs : pydict)
    (st : heap * cache) : result nat * (heap * cache) :=
  let '(h, c) := st in
  match freeze_dicts (bind_params args kwargs) with
  | Raise e => (Raise e, st)
  | Ok params =>
      match hashkey params with
      | Raise e => (Raise e, st)
      | Ok k =>
          match cache_get c k with
          | Some v => (Ok v, st)
          | None =>
              match wrapped_cell params h with
              | (Raise e, h') => (Raise e, (h', c))
              | (Ok v, h') => (Ok v, (h', snd (cache_set c k v)))
              end
          end
      end
  end.

End Decorator.

End Autocell.

(* ------------------------------------------------------------------ *)
(** ** Names of parametric cells  (kcell.py)

    Strings are kept as their UTF-8 bytes.  The characters the functions
    below look for are ASCII, and an ASCII byte is never part of the
    encoding of another character, so that replacing and splitting on bytes
    is replacing and splitting on characters. *)
Module Naming.

(** [s.replace(k, v)] for a pattern [k] of one character. *)
Fixpoint replace (k : ascii) (v : string) (s : string) : string :=
  match s with
  | EmptyString => EmptyString
  | String c s' =>
      if Ascii.eqb c k then (v ++ replace k v s')%string
      else String c (replace k v s')
  end.

(** [replace_map] of [clean_name], in the order of the dictionary. *)
Definition replace_map : list (ascii * string) :=
  [("="%char, ""); (","%char, "_"); (")"%char, ""); ("("%char, "");
   ("-"%char, "m"); ("."%char, "p"); (":"%char, "_"); ("["%char, "");
   ("]"%char, ""); (" "%char, "_")].

(** [clean_name(name)]. *)
Definition clean_name (name : string) : string :=
  fold_left (fun name kv => replace (fst kv) (snd kv) name) replace_map name.

(** [s.split(sep)] for a separator of one character. *)
Fixpoint split (sep : ascii) (s : string) : list string :=
  match s with
  | EmptyString => [EmptyString]
  | String c s' =>
      if Ascii.eqb c sep then EmptyString :: split sep s'
      else
        match split sep s' with
        | x :: xs => String c x :: xs
        | [] => [String c EmptyString]
        end
  end.

(** A byte [10xxxxxx] continues the encoding of a character. *)
Definition is_continuation (c : ascii) : bool :=
  let n := N_of_ascii c in ((128 <=? n) && (n <? 192))%N.

Fixpoint continuation_prefix (s : string) : string :=
  match s with
  | EmptyString => EmptyString
  | String c s' =>
      if is_continuation c then String c (continuation_prefix s')
      else EmptyString
  end.

(** [x[0]] of a string that is not empty: its first character. *)
Definition first_char (x : string) : string :=
  match x with
  | EmptyString => EmptyString
  | String c x' => String c (continuation_prefix x')
  end.

(** [join_first_letters(name)]. *)
Definition join_first_letters (name : string) : string :=
  String.concat ""
    (map first_char
       (List.filter (fun x => negb (String.eqb x "")) (split "_"%char name))).

End Naming.

(* ------------------------------------------------------------------ *)
(** ** Cells, registries and bundles used as examples *)

(** A cell with one polygon and one port, and the same cell after
    [create_inst] of a child cell. *)
Definition hash_example_child : KCell.t :=
  KCell.mk "child" [(0, KCell.SRegion 7)] [] [] [] false [].

Definition hash_example_top : KCell.t :=
  KCell.mk "top" [(0, KCell.SRegion 11)]
    [Port.mk "o1" Kdb.R180 500 0 "optical"] [] [] false [].

Definition locked_example : KCell.t :=
  KCell.mk "straight_L10" [] [] [] [("length", VInt 10)] true [].

Definition connect_example_cell : KCell.t :=
  KCell.mk "straight" []
    [Port.mk "o1" (Kdb.mkTrans Kdb.A180 false (Kdb.mkVector 0 0)) 500 0 "optical";
     Port.mk "o2" (Kdb.mkTrans Kdb.A0 false (Kdb.mkVector 10000 0)) 500 0 "optical"]
    [] [] false [].

Definition registry_example : KLib.t :=
  snd (KLib.create_cell (KLib.mk empty []) 0 "straight" false).

(** A bundle of two routes for the examples: port [a1] is 500 wide, port
    [a2] 1000; the routing function joins each pair of ports by a straight
    backbone; the dual-rail placer is asked for rails 600 apart, which makes
    it fail for the first route only. *)
Definition bundle_example_layer : Kdb.LayerInfo := Kdb.mkLayerInfo 1 0.

Definition bundle_example_a1 : Routing.Port :=
  Routing.mkPort "a1" (Kdb.mkTrans Kdb.A0 false (Kdb.mkVector 0 0)) 500
    bundle_example_layer "electrical".

Definition bundle_example_a2 : Routing.Port :=
  Routing.mkPort "a2" (Kdb.mkTrans Kdb.A0 false (Kdb.mkVector 0 5000)) 1000
    bundle_example_layer "electrical".

Definition bundle_example_b1 : Routing.Port :=
  Routing.mkPort "b1" (Kdb.mkTrans Kdb.A180 false (Kdb.mkVector 50000 0)) 500
    bundle_example_layer "electrical".

Definition bundle_example_b2 : Routing.Port :=
  Routing.mkPort "b2" (Kdb.mkTrans Kdb.A180 false (Kdb.mkVector 50000 5000)) 1000
    bundle_example_layer "electrical".

Definition bundle_example_router
    (sps eps : list Routing.Port) (widths : list Z)
    (starts ends : list (list Routing.Step))
  : result (list Routing.ManhattanRouter) :=
  Ok (map (fun x =>
             Routing.mkRouter (Routing.trans (fst (fst x)))
               (Routing.trans (snd (fst x)))
               [Kdb.disp (Routing.trans (fst (fst x)));
                Kdb.disp (Routing.trans (snd (fst x)))]
               (snd x))
        (combine (combine sps eps) widths)).

Definition bundle_example_placer :=
  Routing.place_dual_rails (fun _ _ _ => 2%nat).

Definition bundle_example_args (sps eps : list Routing.Port) : Generic.args :=
  Generic.mkArgs sps eps Generic.UnitsNone (Some Generic.OnError)
    (Some Generic.OnError) None
    (Routing.mkPlacerKwargs None None (Some (Some 600)) [])
    Generic.StepsNone Generic.StepsNone Generic.UnitsNone Generic.UnitsNone.

Definition bundle_example_run (sps eps : list Routing.Port)
  : result (list Routing.ManhattanRoute) * Generic.world :=
  Generic.route_bundle (fun z => z) bundle_example_router
    bundle_example_placer None (fun _ => false) (fun _ _ _ => false)
    (bundle_example_args sps eps) (Generic.mkWorld [] []).

Definition wire_example_port (n : string) (x : Z) : Routing.Port :=
  Routing.mkPort n (Kdb.mkTrans Kdb.A0 false (Kdb.mkVector x 0)) 1000
    (Kdb.mkLayerInfo 1 0) "electrical".

Definition wire_example_backbone : list Kdb.Point :=
  [Kdb.mkVector 0 0; Kdb.mkVector 3 0; Kdb.mkVector 3 4].

(** A decorated cell function of one parameter [a] that builds a new cell
    at every call. *)
Definition autocell_example_f (params : pydict) (h : Autocell.heap)
  : result nat * Autocell.heap :=
  (Ok (List.length h), h ++ [KCell.mk "cell" [] [] [] [] false []]).

Definition autocell_example_call (a : Value) (st : Autocell.heap * Autocell.cache)
  : result nat * (Autocell.heap * Autocell.cache) :=
  Autocell.wrapper_autocell [("a", VNone)] "straight" autocell_example_f
    true true (fun name _ => name) (fun name => (name ++ "$1")%string)
    [a] [] st.

Definition autocell_example_start : Autocell.heap * Autocell.cache :=
  ([], Autocell.mkCache 512 []).

(* ================================================================== *)
(** * Properties *)

(* ------------------------------------------------------------------ *)
(** ** The definitions on small inputs *)

Example be8_258 :
  Hashlib.be8 258 = [x00; x00; x00; x00; x00; x00; x01; x02]%byte.
Proof. reflexivity. Qed.

Example to_bytes8_negative : Hashlib.to_bytes8 (-1) = Raise OverflowError.
Proof. reflexivity. Qed.

Example encode_ascii_ignore_drops :
  Hashlib.encode_ascii_ignore (String (Ascii.ascii_of_nat 195)
                                 (String (Ascii.ascii_of_nat 169) "a"))
  = Hashlib.encode_utf8 "a".
Proof. reflexivity. Qed.

Example str_of_Z_examples :
  str_of_Z 0 = "0" /\ str_of_Z 1000 = "1000" /\ str_of_Z (-7) = "-7".
Proof. repeat split. Qed.

(** [M90] mirrors at the y axis, [R180] is the half turn. *)
Example M90_R180_on_a_point :
  Kdb.apply Kdb.M90 (Kdb.mkVector 3 4) = Kdb.mkVector (-3) 4
  /\ Kdb.apply Kdb.R180 (Kdb.mkVector 3 4) = Kdb.mkVector (-3) (-4).
Proof. split; reflexivity. Qed.

Example of_rot_negative : Kdb.of_rot (-1) = Kdb.mkTrans Kdb.A270 false (Kdb.mkVector 0 0).
Proof. reflexivity. Qed.

Example py_round_ties_to_even :
  Float.py_round 2.5%float = Ok 2 /\ Float.py_round 3.5%float = Ok 4
  /\ Float.py_round (-0.5)%float = Ok 0 /\ Float.py_round 7.75%float = Ok 8.
Proof. repeat split; vm_compute; reflexivity. Qed.

Example vector_length_3_4 :
  Float.py_round (Float.vector_length (Kdb.mkVector 3 (-4))) = Ok 5.
Proof. vm_compute. reflexivity. Qed.

Example cross_section_default_name :
  rbind (CrossSection.init 500
           (CrossSection.mkLayerEnclosure "WG" (Some (Kdb.mkLayerInfo 1 0)))
           None None)
    (fun cs => Ok (CrossSection.name cs))
  = Ok "WG_500".
Proof. reflexivity. Qed.

Example cross_section_negative_odd :
  CrossSection.init (-3)
    (CrossSection.mkLayerEnclosure "WG" (Some (Kdb.mkLayerInfo 1 0))) None None
  = Raise (ValueError
             "Width of symmetrical cross sections must have be a multiple of 2.").
Proof. reflexivity. Qed.

Example sort_by_key_example :
  sort_by_key [("width", VInt 1); ("length", VInt 2); ("layer", VInt 3)]
  = [("layer", VInt 3); ("length", VInt 2); ("width", VInt 1)].
Proof. reflexivity. Qed.

Example uniquify_example :
  KLib.uniquify_cell_name ["a"; "a$1"; "b"] "a" = "a$2"
  /\ KLib.uniquify_cell_name ["a"; "a$1"; "b"] "c" = "c".
Proof. split; reflexivity. Qed.

Example evict_full_cache :
  Autocell.data
    (snd (Autocell.cache_set
            (Autocell.mkCache 2 [([("a", VInt 1)], 0%nat); ([("a", VInt 2)], 1%nat)])
            [("a", VInt 3)] 2%nat))
  = [([("a", VInt 2)], 1%nat); ([("a", VInt 3)], 2%nat)].
Proof. reflexivity. Qed.

(* ------------------------------------------------------------------ *)
(** ** Cross-sections *)

Lemma even_iff_double (w : Z) : (w / 2) * 2 = w <-> w mod 2 = 0.
Proof.
  pose proof (Z.div_mod w 2 ltac:(lia)) as Hdm.
  split; intros H; lia.
Qed.

(** C9. A [SymmetricalCrossSection] cannot be built with a width that is
    not positive or not a multiple of two: the constructor raises a
    [ValueError] and returns no object; hence every cross-section that was
    built has the requested width, and that width is positive and even. *)
Theorem SymmetricalCrossSection_width_validated :
  forall (w : Z) (enc : CrossSection.LayerEnclosure) (n : option string)
         (bbox : option (list (CrossSection.LayerInfo * (Z * Z * Z * Z)))),
    ((w <= 0 \/ w mod 2 <> 0) ->
       exists msg, CrossSection.init w enc n bbox = Raise (ValueError msg))
    /\ (forall cs, CrossSection.init w enc n bbox = Ok cs ->
           CrossSection.width cs = w /\ 0 < w /\ Z.even w = true).
Proof.
  intros w enc n bbox.
  unfold CrossSection.init, CrossSection._validate_enclosure_main_layer,
    CrossSection._validate_width; cbn [CrossSection.enclosure CrossSection.width].
  destruct (CrossSection.main_layer enc) as [ml|]; cbn [rbind].
  - destruct (Z.eqb_spec (w / 2 * 2) w) as [Heven|Hodd]; cbn [negb rbind].
    + cbn [CrossSection.width].
      destruct (Z.leb_spec w 0) as [Hle|Hgt].
      * split; [intros _; eexists; reflexivity | intros cs H; discriminate H].
      * split.
        -- intros [Hw|Hw]; [lia | apply even_iff_double in Heven; contradiction].
        -- intros cs H; injection H as <-; cbn.
           repeat split; [lia|].
           rewrite <- Heven, Z.mul_comm. apply Z.even_mul.
    + split; [intros _; eexists; reflexivity | intros cs H; discriminate H].
  - split; [intros _; eexists; reflexivity | intros cs H; discriminate H].
Qed.

Lemma SymmetricalCrossSection_width_validated_witness :
  (exists msg,
      CrossSection.init 3 (CrossSection.mkLayerEnclosure "WG"
                             (Some (Kdb.mkLayerInfo 1 0))) None None
      = Raise (ValueError msg))
  /\ (CrossSection.width
        (CrossSection.mkSymmetricalCrossSection 4
           (CrossSection.mkLayerEnclosure "WG" (Some (Kdb.mkLayerInfo 1 0)))
           "WG_4" None None []) = 4
      /\ 0 < 4 /\ Z.even 4 = true).
Proof.
  split.
  - apply (proj1 (SymmetricalCrossSection_width_validated 3 _ None None)).
    right. discriminate.
  - apply (proj2 (SymmetricalCrossSection_width_validated 4
                    (CrossSection.mkLayerEnclosure "WG"
                       (Some (Kdb.mkLayerInfo 1 0))) None None)).
    reflexivity.
Defined.


(* ------------------------------------------------------------------ *)
(** ** The transformations form a group *)

Ltac kdb_crush :=
  repeat match goal with
         | t : Kdb.Trans |- _ => destruct t as [[] [] [? ?]]
         end;
  cbv [Kdb.mul Kdb.inverted Kdb.R0 Kdb.angle Kdb.is_mirror Kdb.disp
       Kdb.angle_add Kdb.angle_sub Kdb.angle_neg Kdb.angle_code
       Kdb.fix_apply Kdb.vadd Kdb.vneg Kdb.vx Kdb.vy xorb];
  repeat match goal with
         | |- context [Kdb.angle_of_Z ?z] =>
             let v := eval vm_compute in (Kdb.angle_of_Z z) in
             change (Kdb.angle_of_Z z) with v
         end;
  cbv beta iota;
  f_equal; try reflexivity; f_equal; lia.

Lemma Kdb_mul_R0_l (t : Kdb.Trans) : Kdb.R0 *t t = t.
Proof. kdb_crush. Qed.

Lemma Kdb_mul_R0_r (t : Kdb.Trans) : t *t Kdb.R0 = t.
Proof. kdb_crush. Qed.

Lemma Kdb_mul_inverted_l (t : Kdb.Trans) : Kdb.inverted t *t t = Kdb.R0.
Proof. kdb_crush. Qed.

Lemma Kdb_mul_inverted_r (t : Kdb.Trans) : t *t Kdb.inverted t = Kdb.R0.
Proof. kdb_crush. Qed.

Lemma Kdb_mul_assoc (a b c : Kdb.Trans) : a *t b *t c = a *t (b *t c).
Proof. kdb_crush. Qed.

Lemma Kdb_apply_mul (a b : Kdb.Trans) (p : Kdb.Point) :
  Kdb.apply (a *t b) p = Kdb.apply a (Kdb.apply b p).
Proof.
  destruct p as [px py]. destruct a as [[] [] [? ?]], b as [[] [] [? ?]];
    cbv [Kdb.apply Kdb.mul Kdb.angle Kdb.is_mirror Kdb.disp Kdb.angle_add
         Kdb.angle_sub Kdb.angle_code Kdb.fix_apply Kdb.vadd Kdb.vx Kdb.vy xorb];
    repeat match goal with
           | |- context [Kdb.angle_of_Z ?z] =>
               let v := eval vm_compute in (Kdb.angle_of_Z z) in
               change (Kdb.angle_of_Z z) with v
           end;
    cbv beta iota; f_equal; lia.
Qed.

(* ------------------------------------------------------------------ *)
(** ** Hashes of ports and cells *)


Lemma Port_copy_R0 (p : Port.t) : Port.copy p Kdb.R0 = p.
Proof. destruct p; unfold Port.copy; cbn. now rewrite Kdb_mul_R0_l. Qed.






Section CellHash.
Variable sha3_512 : Hashlib.bytes -> Hashlib.bytes.
Variable trans_hash : Kdb.Trans -> Z.
Variable layer_indexes : list Z.

Let cell_hash := KCell.hash sha3_512 trans_hash layer_indexes.
Let inst_hash := Instance.hash sha3_512 trans_hash layer_indexes.

(** [KCell.hash] with the comprehension over the instances folded back
    into [Instance.hash]. *)
Lemma KCell_hash_unfold (self : KCell.t) :
  cell_hash self =
  (do h <- KCell.update_layers self
             (Hashlib.update Hashlib.new
                (Hashlib.encode_ascii_ignore (KCell.name self)))
             layer_indexes;
   do port_hashs0 <- mapM (Port.hash sha3_512 trans_hash) (KCell.ports self);
   do insts_hashs0 <- mapM inst_hash (KCell.insts self);
   Ok (Hashlib.digest sha3_512
         (fold_left Hashlib.update (Hashlib.sorted port_hashs0) h))).
Proof.
  destruct self as [n sh ps ins se lk inf].
  unfold cell_hash. cbn [KCell.hash KCell.name KCell.ports KCell.insts].
  destruct (KCell.update_layers _ _ _) as [h|e]; [|reflexivity].
  cbn [rbind].
  destruct (mapM (Port.hash sha3_512 trans_hash) ps) as [phs|e]; [|reflexivity].
  cbn [rbind].
  match goal with
  | |- rbind ?lhs _ = rbind ?rhs _ => replace lhs with rhs; [reflexivity|]
  end.
  induction ins as [|i ins IH]; [reflexivity|].
  cbn [mapM]. rewrite IH. reflexivity.
Qed.

Lemma update_layers_set_insts (c : KCell.t) (l : list (KCell.inst_of KCell.t))
    (h : Hashlib.hasher) (ls : list Z) :
  KCell.update_layers (KCell.set_insts c l) h ls = KCell.update_layers c h ls.
Proof.
  revert h. induction ls as [|x ls IH]; intros h; [reflexivity|].
  cbn [KCell.update_layers].
  change (KCell.shapes_on (KCell.set_insts c l) x) with (KCell.shapes_on c x).
  destruct (KCell.update_all h _) as [h1|]; [|reflexivity]. cbn [rbind].
  destruct (KCell.update_all h1 _) as [h2|]; [|reflexivity]. cbn [rbind].
  apply IH.
Qed.

(** C5 (the code departs from it). The instance hashes are computed and
    dropped: a cell hashes the same whatever instances it holds, as long as
    their own hashes can be computed. *)
Theorem KCell_hash_ignores_instances :
  forall (c : KCell.t) (insts' : list Instance.t),
    is_ok (mapM inst_hash (KCell.insts c)) = true ->
    is_ok (mapM inst_hash insts') = true ->
    cell_hash (KCell.set_insts c insts') = cell_hash c.
Proof.
  intros c insts' Hc Hi.
  rewrite !KCell_hash_unfold.
  rewrite update_layers_set_insts.
  cbn [KCell.set_insts KCell.name KCell.ports KCell.insts].
  destruct (KCell.update_layers c _ _) as [h|]; [|reflexivity]. cbn [rbind].
  destruct (mapM (Port.hash sha3_512 trans_hash) (KCell.ports c)) as [phs|];
    [|reflexivity].
  cbn [rbind].
  destruct (mapM inst_hash insts'); [|discriminate Hi].
  destruct (mapM inst_hash (KCell.insts c)); [|discriminate Hc].
  reflexivity.
Qed.

(** Without instances the code computes the specified hash. *)
Lemma KCell_hash_spec_without_instances (c : KCell.t) :
  KCell.insts c = [] ->
  cell_hash c = KCell.spec_hash sha3_512 trans_hash layer_indexes inst_hash c.
Proof.
  intros Hnil. rewrite KCell_hash_unfold. unfold KCell.spec_hash.
  rewrite Hnil. reflexivity.
Qed.

End CellHash.


Lemma KCell_hash_ignores_instances_witness :
  KCell.hash (fun b => b) (fun t => Kdb.angle_code (Kdb.angle t)) [0]
    (snd (KCell.create_inst hash_example_top hash_example_child Kdb.R0))
  = KCell.hash (fun b => b) (fun t => Kdb.angle_code (Kdb.angle t)) [0]
      hash_example_top.
Proof.
  apply (KCell_hash_ignores_instances (fun b => b)
           (fun t => Kdb.angle_code (Kdb.angle t)) [0] hash_example_top
           [KCell.mkInstance hash_example_child Kdb.R0]);
    vm_compute; reflexivity.
Defined.

(* ------------------------------------------------------------------ *)
(** ** Locked cells *)

Lemma app_one_neq {A : Type} (l : list A) (x : A) : l ++ [x] <> l.
Proof.
  intros H. apply (f_equal (@List.length A)) in H.
  rewrite length_app in H. cbn in H. lia.
Qed.

(** C1 (the code departs from it). No mutator looks at [_locked]: on a
    locked cell [create_port], [add_port] and [create_inst] return normally
    and leave a cell with one more port or instance; [FrozenError] is never
    raised. *)
Theorem locked_cell_is_mutated :
  forall (c : KCell.t),
    KCell._locked c = true ->
    (forall name width layer port_type tr,
        KCell.create_port c name width layer port_type (Some tr) None None false
        = (Ok tt,
           KCell.set_ports c
             (KCell.ports c ++ [Port.mk name tr width layer port_type]))
        /\ snd (KCell.create_port c name width layer port_type (Some tr)
                  None None false) <> c)
    /\ (forall port,
           Ports.has_name (KCell.ports c) (Port.name port) = false ->
           KCell.add_port c port None
           = (Ok tt, KCell.set_ports c (KCell.ports c ++ [port]))
           /\ snd (KCell.add_port c port None) <> c)
    /\ (forall child tr,
           KCell.create_inst c child tr
           = (KCell.mkInstance child tr,
              KCell.set_insts c (KCell.insts c ++ [KCell.mkInstance child tr]))
           /\ snd (KCell.create_inst c child tr) <> c).
Proof.
  intros c Hlocked. repeat split.
  - cbn. intros H. apply (f_equal KCell.ports) in H. cbn in H.
    now apply app_one_neq in H.
  - unfold KCell.add_port, Ports.add_port.
    rewrite Port_copy_R0, H. reflexivity.
  - unfold KCell.add_port, Ports.add_port.
    rewrite Port_copy_R0, H. cbn.
    intros H'. apply (f_equal KCell.ports) in H'. cbn in H'.
    now apply app_one_neq in H'.
  - cbn. intros H. apply (f_equal KCell.insts) in H. cbn in H.
    now apply app_one_neq in H.
Qed.


Lemma locked_cell_is_mutated_witness :
  KCell._locked locked_example = true
  /\ KCell.create_port locked_example "o1" 500 0 "optical" (Some Kdb.R180)
       None None false
     = (Ok tt,
        KCell.set_ports locked_example
          [Port.mk "o1" Kdb.R180 500 0 "optical"]).
Proof.
  split; [reflexivity|].
  exact (proj1 (proj1 (locked_cell_is_mutated locked_example eq_refl)
                  "o1" 500 0 "optical" Kdb.R180)).
Defined.

(* ------------------------------------------------------------------ *)
(** ** Connecting an instance *)

(** The path of [connect] on which nothing is raised. *)
Lemma connect_matching (self : Instance.t) (portname : string)
    (other : Instance.other_arg) (other_port_name : option string)
    (mirror allow_width allow_layer allow_type : bool) (p op : Port.t) :
  Instance.other_port other other_port_name = Ok op ->
  Ports.getitem (KCell.ports (KCell.cell self)) portname = Ok p ->
  Port.width p = Port.width op ->
  Port.layer p = Port.layer op ->
  Port.port_type p = Port.port_type op ->
  Instance.connect self portname other other_port_name mirror
    allow_width allow_layer allow_type
  = (Ok tt,
     KCell.mkInstance (KCell.cell self)
       (Port.trans op *t (if mirror then Kdb.M90 else Kdb.R180)
          *t Kdb.inverted (Port.trans p))).
Proof.
  intros Hop Hp Hw Hl Ht. unfold Instance.connect. rewrite Hop, Hp.
  rewrite Hw, Z.eqb_refl, Hl, Z.eqb_refl, Ht, String.eqb_refl.
  reflexivity.
Qed.

(** C2. When the own port [p] and the other port [op] agree in width, layer
    and port type, [connect] sets the transformation of the instance to
    [op.trans * (M90 if mirror else R180) * p.trans.inverted()]; and a call
    that raises, in particular with one of the three mismatch errors, leaves
    the instance as it was. *)
Theorem connect_sets_trans :
  forall (self : Instance.t) (portname : string) (other : Instance.other_arg)
         (other_port_name : option string)
         (mirror allow_width allow_layer allow_type : bool) (p op : Port.t),
    Instance.other_port other other_port_name = Ok op ->
    Ports.getitem (KCell.ports (KCell.cell self)) portname = Ok p ->
    (Port.width p = Port.width op ->
     Port.layer p = Port.layer op ->
     Port.port_type p = Port.port_type op ->
     Instance.connect self portname other other_port_name mirror
       allow_width allow_layer allow_type
     = (Ok tt,
        KCell.mkInstance (KCell.cell self)
          (Port.trans op *t (if mirror then Kdb.M90 else Kdb.R180)
             *t Kdb.inverted (Port.trans p))))
    /\ (forall e self',
           Instance.connect self portname other other_port_name mirror
             allow_width allow_layer allow_type = (Raise e, self') ->
           self' = self
           /\ (e = PortWidthMismatch /\ Port.width p <> Port.width op
               \/ e = PortLayerMismatch /\ Port.layer p <> Port.layer op
               \/ e = PortTypeMismatch
                  /\ Port.port_type p <> Port.port_type op)).
Proof.
  intros self portname other opn mirror aw al aty p op Hop Hp. split.
  - intros Hw Hl Ht. now apply connect_matching.
  - unfold Instance.connect. rewrite Hop, Hp. intros e self'.
    destruct (Z.eqb_spec (Port.width p) (Port.width op)) as [Hw|Hw];
      cbn [negb andb].
    + destruct (Z.eqb_spec (Port.layer p) (Port.layer op)) as [Hl|Hl];
        cbn [negb andb].
      * destruct (String.eqb_spec (Port.port_type p) (Port.port_type op))
          as [Ht|Ht]; cbn [negb andb].
        -- intros H; discriminate H.
        -- destruct aty; cbn [negb]; intros H; [discriminate H|].
           injection H as <- <-. auto.
      * destruct al; cbn [negb].
        -- destruct (negb (String.eqb _ _) && negb aty) eqn:E.
           ++ intros H; injection H as <- <-. split; [reflexivity|].
              right; right. split; [reflexivity|].
              apply andb_true_iff in E as [E _].
              apply negb_true_iff in E.
              now apply String.eqb_neq in E.
           ++ intros H; discriminate H.
        -- intros H; injection H as <- <-. auto.
    + destruct aw; cbn [negb].
      * destruct (negb (Port.layer p =? Port.layer op) && negb al) eqn:El.
        -- intros H; injection H as <- <-. split; [reflexivity|].
           right; left. split; [reflexivity|].
           apply andb_true_iff in El as [El _].
           apply negb_true_iff in El. now apply Z.eqb_neq in El.
        -- destruct (negb (String.eqb _ _) && negb aty) eqn:E.
           ++ intros H; injection H as <- <-. split; [reflexivity|].
              right; right. split; [reflexivity|].
              apply andb_true_iff in E as [E _].
              apply negb_true_iff in E.
              now apply String.eqb_neq in E.
           ++ intros H; discriminate H.
      * intros H; injection H as <- <-. auto.
Qed.

(** What the specification calls connect correctness: after a successful
    [connect] the own port, seen through the instance, sits at
    [op.trans * conn]. *)
Lemma connect_places_port (self : Instance.t) (portname : string) (p op : Port.t)
    (mirror : bool) :
  Ports.getitem (KCell.ports (KCell.cell self)) portname = Ok p ->
  Port.width p = Port.width op ->
  Port.layer p = Port.layer op ->
  Port.port_type p = Port.port_type op ->
  exists self',
    Instance.connect self portname (Instance.OtherPort op) None mirror
      false false false = (Ok tt, self')
    /\ rbind (Instance.ports_getitem self' portname)
         (fun q => Ok (Port.trans q))
       = Ok (Port.trans op *t (if mirror then Kdb.M90 else Kdb.R180)).
Proof.
  intros Hp Hw Hl Ht.
  eexists. split;
    [exact (connect_matching self portname (Instance.OtherPort op) None
              mirror false false false p op eq_refl Hp Hw Hl Ht)|].
  unfold Instance.ports_getitem. cbn [KCell.cell KCell.trans].
  rewrite Hp. cbn [rbind Port.copy Port.trans].
  now rewrite Kdb_mul_assoc, Kdb_mul_inverted_l, Kdb_mul_R0_r.
Qed.


Lemma connect_sets_trans_witness :
  Instance.connect (KCell.mkInstance connect_example_cell Kdb.R0) "o1"
    (Instance.OtherPort
       (Port.mk "o2" (Kdb.mkTrans Kdb.A0 false (Kdb.mkVector 10000 0))
          500 0 "optical"))
    None false false false false
  = (Ok tt,
     KCell.mkInstance connect_example_cell
       (Kdb.mkTrans Kdb.A0 false (Kdb.mkVector 10000 0))).
Proof.
  exact (proj1 (connect_sets_trans
                  (KCell.mkInstance connect_example_cell Kdb.R0) "o1"
                  (Instance.OtherPort
                     (Port.mk "o2"
                        (Kdb.mkTrans Kdb.A0 false (Kdb.mkVector 10000 0))
                        500 0 "optical"))
                  None false false false false
                  (Port.mk "o1"
                     (Kdb.mkTrans Kdb.A180 false (Kdb.mkVector 0 0))
                     500 0 "optical")
                  _ eq_refl eq_refl) eq_refl eq_refl eq_refl).
Defined.

(** Any call of [connect] that raises leaves the instance as it was. *)
Lemma connect_raise_unchanged (self : Instance.t) (portname : string)
    (other : Instance.other_arg) (opn : option string)
    (mirror aw al aty : bool) (e : exn) (self' : Instance.t) :
  Instance.connect self portname other opn mirror aw al aty = (Raise e, self') ->
  self' = self.
Proof.
  unfold Instance.connect.
  destruct (Instance.other_port other opn) as [op|e0];
    [|intros H; now injection H].
  destruct (Ports.getitem _ portname) as [p|e0]; [|intros H; now injection H].
  repeat match goal with
         | |- context [if ?b then _ else _] => destruct b
         end; intros H; try discriminate H; now injection H.
Qed.

(* ------------------------------------------------------------------ *)
(** ** The registry and colliding names *)

Lemma str_of_Z_inj (a b : Z) : str_of_Z a = str_of_Z b -> a = b.
Proof.
  unfold str_of_Z. intros H.
  assert (Hnn : forall z, Z.to_int z <> Decimal.Pos Decimal.Nil
                          /\ Z.to_int z <> Decimal.Neg Decimal.Nil).
  { intros [|p|p]; cbn; split; try discriminate;
      intros E; injection E as E; now apply DecimalPos.Unsigned.to_uint_nonnil in E. }
  apply DecimalZ.to_int_inj.
  assert (E : NilZero.int_of_string (NilZero.string_of_int (Z.to_int a))
              = NilZero.int_of_string (NilZero.string_of_int (Z.to_int b)))
    by now rewrite H.
  rewrite !NilZero.isi in E by apply Hnn. now injection E.
Qed.

Lemma string_app_inv_head (p s1 s2 : string) :
  (p ++ s1 = p ++ s2)%string -> s1 = s2.
Proof.
  induction p as [|c p IH]; cbn; intros H; [assumption|].
  injection H as H. now apply IH.
Qed.

Lemma suffixed_inj (name : string) (j k : nat) :
  KLib.suffixed name j = KLib.suffixed name k -> j = k.
Proof.
  unfold KLib.suffixed. intros H.
  apply string_app_inv_head in H. cbn in H. injection H as H.
  apply str_of_Z_inj in H. lia.
Qed.

Lemma existsb_eqb_In (x : string) (l : list string) :
  existsb (String.eqb x) l = true <-> In x l.
Proof.
  rewrite existsb_exists. split.
  - intros [y [Hy E]]. apply String.eqb_eq in E. now subst.
  - intros H. exists x. split; [assumption|apply String.eqb_refl].
Qed.

Lemma first_free_spec (names : list string) (name : string) (fuel k : nat) :
  exists n,
    (k <= n <= k + fuel)%nat
    /\ KLib.first_free names name k fuel = KLib.suffixed name n
    /\ (forall j, (k <= j < n)%nat -> In (KLib.suffixed name j) names)
    /\ ((n < k + fuel)%nat -> ~ In (KLib.suffixed name n) names).
Proof.
  revert k. induction fuel as [|fuel IH]; intros k; cbn [KLib.first_free].
  - exists k. split; [lia|]. split; [reflexivity|]. split.
    + intros j Hj; lia.
    + intros Hlt; lia.
  - destruct (existsb _ names) eqn:E.
    + apply existsb_eqb_In in E.
      destruct (IH (S k)) as [n [Hn [Hr [Hall Hfree]]]].
      exists n. split; [lia|]. split; [assumption|]. split.
      * intros j Hj. destruct (Nat.eq_dec j k) as [->|Hne]; [assumption|].
        apply Hall. lia.
      * intros Hlt. apply Hfree. lia.
    + exists k. split; [lia|]. split; [reflexivity|]. split.
      * intros j Hj; lia.
      * intros _ Hin. apply existsb_eqb_In in Hin. congruence.
Qed.

(** The suffixed name the back end picks is not the name of any cell. *)
Lemma first_free_fresh (names : list string) (name : string) :
  exists n,
    (1 <= n)%nat
    /\ KLib.first_free names name 1 (List.length names) = KLib.suffixed name n
    /\ ~ In (KLib.suffixed name n) names.
Proof.
  destruct (first_free_spec names name (List.length names) 1)
    as [n [Hn [Hr [Hall Hfree]]]].
  exists n. split; [lia|]. split; [assumption|].
  destruct (Nat.eq_dec n (1 + List.length names)%nat) as [->|Hne];
    [|apply Hfree; lia].
  intros Hin.
  assert (Hincl : incl (map (KLib.suffixed name) (seq 1 (S (List.length names))))
                    names).
  { intros x Hx. apply in_map_iff in Hx as [j [<- Hj]].
    apply in_seq in Hj.
    destruct (Nat.eq_dec j (1 + List.length names)%nat) as [->|Hne];
      [assumption|apply Hall; lia]. }
  assert (Hnd : List.NoDup (map (KLib.suffixed name)
                              (seq 1 (S (List.length names))))).
  { apply Finite.Injective_map_NoDup; [|apply seq_NoDup].
    intros j k. apply suffixed_inj. }
  pose proof (NoDup_incl_length Hnd Hincl) as Hlen.
  rewrite length_map, length_seq in Hlen. lia.
Qed.

Lemma KLib_cell_Some_In (self : KLib.t) (name : string) (i : nat) :
  KLib.cell self name = Some i -> In name (KLib.cells self).
Proof.
  unfold KLib.cell. generalize 0%nat. generalize (KLib.cells self).
  induction l as [|n l IH]; intros k; [discriminate|].
  destruct (String.eqb_spec n name) as [->|Hne].
  - intros _. now left.
  - intros H. right. eapply IH. exact H.
Qed.


(** C4 as stated fails: with a cell named [straight] in the layout, a second
    [create_cell] for that name without [allow_duplicate] creates nothing
    and registers nothing; it raises. *)
Lemma KLib_create_cell_collision_counterexample :
  KLib.cells registry_example = ["straight"]
  /\ ~ (exists idx lib',
           KLib.create_cell registry_example 1 "straight" false = (Ok idx, lib'))
  /\ KLib.cells (snd (KLib.create_cell registry_example 1 "straight" false))
     = ["straight"].
Proof.
  split; [reflexivity|]. split; [|reflexivity].
  intros [idx [lib' H]]. vm_compute in H. discriminate H.
Qed.

(** C4, amended. When the requested name is the name of a cell of the
    layout and [allow_duplicate] is not set, [create_cell] raises a
    [ValueError] and leaves the registry as it was; only with
    [allow_duplicate] is the cell created, the back end naming it with the
    requested name and a suffix [$n] that no cell has, while [kcells]
    records the new cell under the requested name. *)
Theorem KLib_create_cell_collision :
  forall (self : KLib.t) (kcell : nat) (name : string) (i : nat),
    KLib.cell self name = Some i ->
    (exists msg,
        KLib.create_cell self kcell name false = (Raise (ValueError msg), self))
    /\ (exists n,
           (1 <= n)%nat
           /\ KLib.create_cell self kcell name true
              = (Ok (List.length (KLib.cells self)),
                 KLib.mk (<[name := kcell]> (KLib.kcells self))
                   (KLib.cells self ++ [KLib.suffixed name n]))
           /\ ~ In (KLib.suffixed name n) (KLib.cells self)).
Proof.
  intros self kcell name i Hcell. split.
  - unfold KLib.create_cell. rewrite Hcell. cbn. eexists. reflexivity.
  - destruct (first_free_fresh (KLib.cells self) name) as [n [Hn [Hr Hfresh]]].
    exists n. split; [assumption|]. split; [|assumption].
    unfold KLib.create_cell, KLib.Layout_create_cell, KLib.uniquify_cell_name.
    cbn [orb].
    apply KLib_cell_Some_In, existsb_eqb_In in Hcell. rewrite Hcell, Hr.
    reflexivity.
Qed.

Lemma KLib_create_cell_collision_witness :
  exists msg,
    KLib.create_cell registry_example 1 "straight" false
    = (Raise (ValueError msg), registry_example).
Proof.
  exact (proj1 (KLib_create_cell_collision registry_example 1 "straight" 0
                  eq_refl)).
Defined.

(* ------------------------------------------------------------------ *)
(** ** Bundle routing: the placer loop *)

Section RouteBundleProperties.
Import Routing Generic.

Variable to_dbu : Z -> Z.
Variable routing_function :
  list Port -> list Port -> list Z -> list (list Step) -> list (list Step)
  -> result (list ManhattanRouter).
Variable placer_function :
  cell -> Port -> Port -> list Kdb.Point -> placer_kwargs
  -> result ManhattanRoute * cell.
Variable router_post_process_function :
  option (cell -> list Port -> list Port -> list ManhattanRouter
          -> result (list ManhattanRouter) * cell).
Variable router_collisions : list ManhattanRouter -> bool.
Variable layer_collisions :
  cell -> list ManhattanRoute -> list Kdb.LayerInfo -> bool.

Let bundle :=
  route_bundle to_dbu routing_function placer_function
    router_post_process_function router_collisions layer_collisions.
Let planned := plan to_dbu routing_function router_post_process_function.


Lemma place_one_trace (kw : placer_kwargs) (st : loop_state)
    (x : ManhattanRouter * Port * Port) :
  w_trace (loop_world (place_one placer_function kw st x))
  = w_trace (loop_world st) ++ [placer_event x].
Proof.
  destruct x as [[router ps] pe]. unfold place_one, placer_event.
  cbn [fst snd log w_cell w_trace].
  destruct (placer_function _ ps pe _ kw) as [[route|e] c]; reflexivity.
Qed.

Lemma place_one_count (kw : placer_kwargs) (st : loop_state)
    (x : ManhattanRouter * Port * Port) :
  (List.length (routes (place_one placer_function kw st x))
   + List.length (placer_errors (place_one placer_function kw st x))
   = S (List.length (routes st) + List.length (placer_errors st)))%nat.
Proof.
  destruct x as [[router ps] pe]. unfold place_one.
  destruct (placer_function _ ps pe _ kw) as [[route|e] c];
    cbn [routes placer_errors]; rewrite length_app; cbn; lia.
Qed.

Lemma place_loop_trace (kw : placer_kwargs)
    (l : list (ManhattanRouter * Port * Port)) (st : loop_state) :
  w_trace (loop_world (fold_left (place_one placer_function kw) l st))
  = w_trace (loop_world st) ++ map placer_event l
  /\ (List.length (routes (fold_left (place_one placer_function kw) l st))
      + List.length
          (placer_errors (fold_left (place_one placer_function kw) l st))
      = List.length l + (List.length (routes st)
                         + List.length (placer_errors st)))%nat.
Proof.
  revert st. induction l as [|x l IH]; intros st; cbn [fold_left map].
  - split; [now rewrite app_nil_r|reflexivity].
  - destruct (IH (place_one placer_function kw st x)) as [Ht Hc]. split.
    + rewrite Ht, place_one_trace, <- app_assoc. reflexivity.
    + rewrite Hc, place_one_count. cbn [List.length]. lia.
Qed.

(** An exception once collected stays collected. *)
Lemma place_loop_keeps_errors (kw : placer_kwargs)
    (l : list (ManhattanRouter * Port * Port)) (st : loop_state) (e : exn) :
  In e (placer_errors st) ->
  In e (placer_errors (fold_left (place_one placer_function kw) l st)).
Proof.
  revert st. induction l as [|x l IH]; intros st Hin; [assumption|].
  cbn [fold_left]. apply IH.
  destruct x as [[router ps] pe]. unfold place_one.
  destruct (placer_function _ ps pe _ kw) as [[route|e'] c];
    cbn [placer_errors]; [assumption|].
  apply in_or_app. now left.
Qed.

(** The exception the placer raises for a route is collected. *)
Lemma place_one_collects (kw : placer_kwargs) (st : loop_state)
    (x : ManhattanRouter * Port * Port) (e : exn) (c : cell) :
  placer_function (w_cell (loop_world st)) (snd (fst x)) (snd x)
    (start_pts (fst (fst x))) kw = (Raise e, c) ->
  In e (placer_errors (place_one placer_function kw st x)).
Proof.
  destruct x as [[router ps] pe]. cbn [fst snd]. unfold place_one.
  cbn [log w_cell]. intros ->. cbn [placer_errors].
  apply in_or_app. right. now left.
Qed.

Lemma fold_left_log_errors (errs : list exn) (w : world) :
  fold_left (fun w e => log (EvLogError e) w) errs w
  = mkWorld (w_cell w) (w_trace w ++ map EvLogError errs).
Proof.
  revert w. induction errs as [|e errs IH]; intros w; cbn [fold_left map].
  - rewrite app_nil_r. now destruct w.
  - rewrite IH. unfold log. cbn [w_cell w_trace].
    now rewrite <- app_assoc.
Qed.

(** C10. With no start ports [route_bundle] returns the empty list at once:
    it does not raise, and the world is as before, so neither the routing
    function nor the placer nor the collision check has been called. *)
Theorem route_bundle_without_start_ports :
  forall (a : args) (w : world),
    start_ports a = [] ->
    bundle a w = (Ok [], w).
Proof.
  intros a w H. unfold bundle, route_bundle, plan. now rewrite H.
Qed.

(** C7. Once the routers are planned, every one of them is handed to the
    placer, in order, whether or not the placer raised for an earlier one;
    each call yields a route or a collected exception, and an exception the
    placer raises for any one route is collected; if an exception was
    collected and [on_placer_error] is ["error"], the call raises
    [PlacerError] after the last placer call, having only logged the
    collected exceptions since.  The dual-rail placer raises whenever
    [separation_rails] is not smaller than the route width. *)
Theorem route_bundle_collects_placer_errors :
  forall (a : args) (w w1 : world) (routers : list ManhattanRouter)
         (sps eps : list Port),
    planned a w = (Ok (Some (routers, sps, eps)), w1) ->
    let st := place_all placer_function (placer_kw a) routers sps eps w1 in
    w_trace (loop_world st)
    = w_trace w1 ++ map placer_event (zip3 routers sps eps)
    /\ (List.length (routes st) + List.length (placer_errors st)
        = List.length (zip3 routers sps eps))%nat
    /\ (forall pre x post e c,
           zip3 routers sps eps = pre ++ x :: post ->
           placer_function
             (w_cell (loop_world
                        (fold_left (place_one placer_function (placer_kw a))
                           pre (mkLoop [] [] [] w1))))
             (snd (fst x)) (snd x) (start_pts (fst (fst x))) (placer_kw a)
           = (Raise e, c) ->
           In e (placer_errors st))
    /\ (placer_errors st <> [] ->
        on_placer_error a = Some OnError ->
        bundle a w
        = (Raise PlacerError,
           mkWorld (w_cell (loop_world st))
             (w_trace w1 ++ map placer_event (zip3 routers sps eps)
                ++ map EvLogError (placer_errors st))))
    /\ (forall region_size c p1 p2 pts kw s,
           kw_separation_rails kw = Some (Some s) ->
           or_default (kw_route_width kw) (width p1) <= s ->
           exists msg,
             place_dual_rails region_size c p1 p2 pts kw
             = (Raise (ValueError msg), c)).
Proof.
  intros a w w1 routers sps eps Hplan st.
  destruct (place_loop_trace (placer_kw a) (zip3 routers sps eps)
              (mkLoop [] [] [] w1)) as [Htrace Hcount].
  fold (place_all placer_function (placer_kw a) routers sps eps w1) in Htrace, Hcount.
  fold st in Htrace, Hcount. cbn in Htrace, Hcount.
  split; [exact Htrace|]. split; [lia|]. split; [|split].
  - intros pre x post e c Hzip Hraise.
    unfold st, place_all. rewrite Hzip, fold_left_app. cbn [fold_left].
    apply place_loop_keeps_errors. eapply place_one_collects. exact Hraise.
  - intros Herr Hon.
    unfold bundle, route_bundle. fold planned. rewrite Hplan.
    fold st. rewrite Hon.
    destruct (placer_errors st) as [|e errs] eqn:E; [congruence|].
    rewrite fold_left_log_errors. rewrite Htrace, <- app_assoc. reflexivity.
  - intros region_size c p1 p2 pts kw s Hs Hle.
    unfold place_dual_rails. rewrite Hs.
    destruct (kw_extra kw); [|eexists; reflexivity].
    destruct (Z.leb_spec (or_default (kw_route_width kw) (width p1)) s);
      [eexists; reflexivity|lia].
Qed.

End RouteBundleProperties.


Lemma route_bundle_without_start_ports_witness :
  bundle_example_run [] [bundle_example_b1] = (Ok [], Generic.mkWorld [] []).
Proof.
  apply (route_bundle_without_start_ports (fun z => z) bundle_example_router
           bundle_example_placer None (fun _ => false) (fun _ _ _ => false)
           (bundle_example_args [] [bundle_example_b1])
           (Generic.mkWorld [] [])).
  reflexivity.
Defined.

Lemma route_bundle_collects_placer_errors_witness :
  fst (bundle_example_run [bundle_example_a1; bundle_example_a2]
         [bundle_example_b1; bundle_example_b2])
  = Raise PlacerError
  /\ Generic.w_trace
       (snd (bundle_example_run [bundle_example_a1; bundle_example_a2]
               [bundle_example_b1; bundle_example_b2]))
     = [Generic.EvRoutingFunction;
        Generic.EvPlacer bundle_example_a1 bundle_example_b1
          [Kdb.mkVector 0 0; Kdb.mkVector 50000 0];
        Generic.EvPlacer bundle_example_a2 bundle_example_b2
          [Kdb.mkVector 0 5000; Kdb.mkVector 50000 5000];
        Generic.EvLogError
          (ValueError "separation_rails must be smaller than the route_width")].
Proof.
  pose proof (route_bundle_collects_placer_errors (fun z => z)
                bundle_example_router bundle_example_placer None
                (fun _ => false) (fun _ _ _ => false)
                (bundle_example_args [bundle_example_a1; bundle_example_a2]
                   [bundle_example_b1; bundle_example_b2])
                (Generic.mkWorld [] []) _ _ _ _ eq_refl) as H.
  cbv zeta in H. destruct H as (_ & _ & _ & H & _).
  unfold bundle_example_run. rewrite H.
  - split; reflexivity.
  - vm_compute. discriminate.
  - reflexivity.
Defined.

(* ------------------------------------------------------------------ *)
(** ** The length reported by the single-wire placer *)

(** The loop never moves [pt1]: what it sums are the distances of the
    later points from the first one. *)
Lemma wire_length_from_first_point (pt1 : Kdb.Point) (rest : list Kdb.Point) :
  Routing.wire_length pt1 rest
  = fold_left PrimFloat.add
      (map (fun pt2 => Float.vector_length (Kdb.vsub pt2 pt1)) rest)
      (Float.of_Z 0).
Proof.
  unfold Routing.wire_length. generalize (Float.of_Z 0).
  induction rest as [|q rest IH]; intros acc; [reflexivity|].
  cbn [fold_left map]. apply IH.
Qed.

(** For a backbone of two points the two sums are the same. *)
Lemma wire_length_two_points (p q : Kdb.Point) :
  Routing.wire_length p [q] = Routing.spec_length [p; q].
Proof. reflexivity. Qed.


(** C8 (the code departs from it). The [length_straights] the placer
    reports is the rounded sum of the distances of the later backbone
    points from the first one.  For the backbone (0,0), (3,0), (3,4) the
    segments are 3 and 4 long and the specified value is 7; the placer
    reports 3 + 5 = 8. *)
Theorem place_single_wire_length_measured_from_first_point :
  (forall (c : Routing.cell) (p1 p2 : Routing.Port) (pt1 : Kdb.Point)
          (rest : list Kdb.Point) (route_width : option Z)
          (layer_info : option Kdb.LayerInfo),
      rbind (fst (Routing.place_single_wire c p1 p2 (pt1 :: rest)
                    (Routing.mkPlacerKwargs route_width layer_info None [])))
        (fun route => Ok (Routing.length_straights route))
      = Float.py_round
          (fold_left PrimFloat.add
             (map (fun pt2 => Float.vector_length (Kdb.vsub pt2 pt1)) rest)
             (Float.of_Z 0)))
  /\ rbind (fst (Routing.place_single_wire [] (wire_example_port "a" 0)
                   (wire_example_port "b" 3) wire_example_backbone
                   (Routing.mkPlacerKwargs None None None [])))
       (fun route => Ok (Routing.length_straights route))
     = Ok 8
  /\ Float.py_round (Routing.spec_length wire_example_backbone) = Ok 7.
Proof.
  split; [|split; vm_compute; reflexivity].
  intros c p1 p2 pt1 rest route_width layer_info.
  unfold Routing.place_single_wire.
  cbn [Routing.kw_separation_rails Routing.kw_extra].
  rewrite wire_length_from_first_point.
  destruct (Float.py_round _); reflexivity.
Qed.

(* ------------------------------------------------------------------ *)
(** ** Values, their equality and the order of dictionary items *)


Lemma list_eqb_refl {A : Type} (eqb : A -> A -> bool) (l : list A) :
  Forall (fun x => eqb x x = true) l -> list_eqb eqb l l = true.
Proof.
  induction 1 as [|x l Hx Hl IH]; cbn [list_eqb]; [reflexivity|].
  now rewrite Hx, IH.
Qed.

(** Every value is equal to itself, a float that is a NaN by identity. *)
Lemma Value_eqb_refl (a : Value) : Value_eqb a a = true.
Proof.
  induction a using Value_nested_ind; cbn [Value_eqb].
  - reflexivity.
  - apply Z.eqb_refl.
  - now rewrite Nat.eqb_refl.
  - apply String.eqb_refl.
  - now apply list_eqb_refl.
  - now apply list_eqb_refl.
  - apply list_eqb_refl. eapply List.Forall_impl; [|exact H].
    intros [k v] Hv. cbn in *. now rewrite String.eqb_refl, Hv.
  - apply list_eqb_refl. eapply List.Forall_impl; [|exact H].
    intros [k v] Hv. cbn in *. now rewrite String.eqb_refl, Hv.
  - apply Nat.eqb_refl.
  - apply Nat.eqb_refl.
Qed.

Lemma items_eqb_refl (k : pydict) : items_eqb k k = true.
Proof.
  unfold items_eqb. apply list_eqb_refl.
  apply List.Forall_forall. intros [n v] _. cbn.
  now rewrite String.eqb_refl, Value_eqb_refl.
Qed.

(** Keys compare as Python compares them: an int and a float by their
    value, a NaN only with itself, function objects by identity. *)
Example Value_eqb_numbers :
  Value_eqb (VInt 1) (VFloat 0 (Float.of_Z 1)) = true
  /\ Value_eqb (VFloat 0 (PrimFloat.div (Float.of_Z 1) (Float.of_Z 2))) (VInt 0)
     = false
  /\ Value_eqb (VInt 0) (VFloat 0 (PrimFloat.opp (Float.of_Z 0))) = true
  /\ Value_eqb (VInt (2 ^ 53 + 1)) (VFloat 0 (Float.of_Z (2 ^ 53))) = false
  /\ Value_eqb (VFloat 0 (PrimFloat.div (Float.of_Z 0) (Float.of_Z 0)))
       (VFloat 0 (PrimFloat.div (Float.of_Z 0) (Float.of_Z 0))) = true
  /\ Value_eqb (VFloat 0 (PrimFloat.div (Float.of_Z 0) (Float.of_Z 0)))
       (VFloat 1 (PrimFloat.div (Float.of_Z 0) (Float.of_Z 0))) = false
  /\ Value_eqb (VFunc 1) (VFunc 1) = true
  /\ Value_eqb (VFunc 1) (VFunc 2) = false.
Proof. repeat split; vm_compute; reflexivity. Qed.

(** The order of strings is transitive. *)
Lemma String_compare_le_trans (s1 : string) :
  forall s2 s3,
    String.compare s1 s2 <> Gt -> String.compare s2 s3 <> Gt ->
    String.compare s1 s3 <> Gt.
Proof.
  induction s1 as [|c1 s1 IH]; intros [|c2 s2] [|c3 s3]; cbn; try easy.
  unfold Ascii.compare.
  destruct (N.compare_spec (N_of_ascii c1) (N_of_ascii c2)) as [E12|L12|G12];
    destruct (N.compare_spec (N_of_ascii c2) (N_of_ascii c3)) as [E23|L23|G23];
    destruct (N.compare_spec (N_of_ascii c1) (N_of_ascii c3)) as [E13|L13|G13];
    try easy; try lia.
  apply IH.
Qed.

Lemma String_leb_trans (s1 s2 s3 : string) :
  String.leb s1 s2 = true -> String.leb s2 s3 = true -> String.leb s1 s3 = true.
Proof.
  unfold String.leb. intros H12 H23.
  pose proof (String_compare_le_trans s1 s2 s3) as H.
  destruct (String.compare s1 s2); try discriminate;
    destruct (String.compare s2 s3); try discriminate;
    destruct (String.compare s1 s3); try reflexivity;
    exfalso; apply H; easy.
Qed.

Lemma insert_by_key_comm (x y : string * Value) (l : pydict) :
  fst x <> fst y ->
  insert_by_key x (insert_by_key y l) = insert_by_key y (insert_by_key x l).
Proof.
  intros Hne.
  assert (Hxy : String.leb (fst x) (fst y) = true ->
                String.leb (fst y) (fst x) = false).
  { intros H. destruct (String.leb (fst y) (fst x)) eqn:E; [|reflexivity].
    exfalso. apply Hne. now apply String.leb_antisym. }
  assert (Hyx : String.leb (fst x) (fst y) = false ->
                String.leb (fst y) (fst x) = true).
  { intros H. destruct (String.leb_total (fst x) (fst y)); congruence. }
  induction l as [|z l IH]; cbn [insert_by_key].
  - destruct (String.leb (fst x) (fst y)) eqn:E.
    + now rewrite (Hxy eq_refl).
    + now rewrite (Hyx eq_refl).
  - destruct (String.leb (fst y) (fst z)) eqn:Eyz;
      destruct (String.leb (fst x) (fst z)) eqn:Exz; cbn [insert_by_key].
    + destruct (String.leb (fst x) (fst y)) eqn:E.
      * now rewrite (Hxy eq_refl), Eyz.
      * now rewrite (Hyx eq_refl), Exz.
    + destruct (String.leb (fst x) (fst y)) eqn:E.
      * rewrite (String_leb_trans _ _ _ E Eyz) in Exz. discriminate.
      * now rewrite Exz, Eyz.
    + destruct (String.leb (fst y) (fst x)) eqn:E.
      * rewrite (String_leb_trans _ _ _ E Exz) in Eyz. discriminate.
      * now rewrite Exz, Eyz.
    + now rewrite Exz, Eyz, IH.
Qed.

Lemma NoDup_keys_perm (d d' : pydict) :
  Permutation d d' -> List.NoDup (map fst d) -> List.NoDup (map fst d').
Proof.
  intros Hp. apply Permutation_NoDup. now apply Permutation_map.
Qed.

(** Sorting by key forgets the order of the items. *)
Lemma sort_by_key_perm (d d' : pydict) :
  Permutation d d' -> List.NoDup (map fst d) -> sort_by_key d = sort_by_key d'.
Proof.
  unfold sort_by_key.
  induction 1 as [|x l l' Hp IH|x y l|l l' l'' Hp1 IH1 Hp2 IH2];
    intros Hnd; cbn [fold_right map] in *.
  - reflexivity.
  - rewrite IH; [reflexivity|]. now inversion Hnd.
  - apply insert_by_key_comm.
    inversion Hnd as [|? ? Hin _]. intros E. apply Hin. left. now symmetry.
  - rewrite IH1 by assumption. apply IH2. eapply NoDup_keys_perm; eassumption.
Qed.

Lemma forallb_perm {A : Type} (f : A -> bool) (l l' : list A) :
  Permutation l l' -> forallb f l = forallb f l'.
Proof.
  induction 1; cbn; try congruence.
  - now rewrite !andb_assoc, (andb_comm (f y)).
Qed.

(** Dicts that differ in the order of their items have the same frozen set
    and, as keyword arguments, the same cache key. *)
Lemma dict_order_irrelevant (d d' : pydict) :
  List.NoDup (map fst d) -> Permutation d d' ->
  Autocell.dict_to_frozen_set d = Autocell.dict_to_frozen_set d'
  /\ Autocell.hashkey d = Autocell.hashkey d'.
Proof.
  intros Hnd Hp. unfold Autocell.dict_to_frozen_set, Autocell.hashkey.
  rewrite (forallb_perm _ _ _ Hp), (sort_by_key_perm _ _ Hp Hnd). easy.
Qed.

(* ------------------------------------------------------------------ *)
(** ** The cache of the decorator *)

(** A cell the cache returns is the cell of an entry whose key compares
    equal to the key asked for. *)
Lemma cache_get_In (c : Autocell.cache) (k : pydict) (v : nat) :
  Autocell.cache_get c k = Some v ->
  exists k', In (k', v) (Autocell.data c) /\ items_eqb k' k = true.
Proof.
  unfold Autocell.cache_get.
  destruct (find _ (Autocell.data c)) as [[k' v']|] eqn:E; [|discriminate].
  intros H; injection H as <-.
  apply find_some in E as [Hin Heq]. cbn in Heq. now exists k'.
Qed.

Lemma cache_get_None (c : Autocell.cache) (k : pydict) :
  Autocell.cache_get c k = None ->
  forall v, ~ In (k, v) (Autocell.data c).
Proof.
  unfold Autocell.cache_get.
  destruct (find _ (Autocell.data c)) eqn:E; [discriminate|].
  intros _ v Hin.
  pose proof (find_none _ _ E _ Hin) as H. cbn in H.
  now rewrite items_eqb_refl in H.
Qed.

(** Eviction leaves a suffix of the entries. *)
Lemma evict_suffix (m : nat) (d : list (pydict * nat)) :
  exists pre, d = pre ++ Autocell.evict m d.
Proof.
  induction d as [|e d [pre IH]]; cbn [Autocell.evict].
  - now exists [].
  - destruct (m <? _)%nat.
    + exists (e :: pre). cbn. now f_equal.
    + now exists [].
Qed.

Lemma evict_incl (m : nat) (d : list (pydict * nat)) (e : pydict * nat) :
  In e (Autocell.evict m d) -> In e d.
Proof.
  destruct (evict_suffix m d) as [pre H]. intros Hin.
  rewrite H. apply in_or_app. now right.
Qed.

Lemma evict_NoDup (m : nat) (d : list (pydict * nat)) :
  List.NoDup (map snd d) -> List.NoDup (map snd (Autocell.evict m d)).
Proof.
  destruct (evict_suffix m d) as [pre H]. intros Hnd.
  rewrite H, map_app in Hnd. now apply NoDup_app_remove_l in Hnd.
Qed.

Lemma find_app_None {A : Type} (f : A -> bool) (l l' : list A) :
  find f l = None -> find f (l ++ l') = find f l'.
Proof.
  induction l as [|a l IH]; cbn; [easy|].
  destruct (f a); [discriminate|exact IH].
Qed.

Lemma find_None_suffix {A : Type} (f : A -> bool) (pre l : list A) :
  find f (pre ++ l) = None -> find f l = None.
Proof.
  induction pre as [|a pre IH]; cbn; [easy|].
  destruct (f a); [discriminate|exact IH].
Qed.

(** After a miss the new entry is found, when the cache holds anything. *)
Lemma cache_set_get (c : Autocell.cache) (k : pydict) (v : nat) :
  (1 <= Autocell.maxsize c)%nat ->
  Autocell.cache_get c k = None ->
  Autocell.cache_get (snd (Autocell.cache_set c k v)) k = Some v.
Proof.
  intros Hm Hmiss. unfold Autocell.cache_set.
  destruct (Nat.ltb_spec (Autocell.maxsize c) 1); [lia|].
  rewrite Hmiss. cbn [snd]. unfold Autocell.cache_get in *.
  cbn [Autocell.data].
  destruct (find _ (Autocell.data c)) eqn:E; [discriminate|].
  destruct (evict_suffix (Autocell.maxsize c) (Autocell.data c)) as [pre Hpre].
  rewrite Hpre in E. apply find_None_suffix in E.
  rewrite (find_app_None _ _ _ E). cbn. now rewrite items_eqb_refl.
Qed.

(** After a miss the entries are old ones or the new one. *)
Lemma cache_set_data (c : Autocell.cache) (k : pydict) (v : nat) :
  Autocell.cache_get c k = None ->
  Autocell.maxsize (snd (Autocell.cache_set c k v)) = Autocell.maxsize c
  /\ (Autocell.data (snd (Autocell.cache_set c k v)) = Autocell.data c
      \/ Autocell.data (snd (Autocell.cache_set c k v))
         = Autocell.evict (Autocell.maxsize c) (Autocell.data c) ++ [(k, v)]).
Proof.
  intros Hmiss. unfold Autocell.cache_set.
  destruct (Autocell.maxsize c <? 1)%nat; [now split; [|left]|].
  rewrite Hmiss. split; [reflexivity|now right].
Qed.

(* ------------------------------------------------------------------ *)
(** ** The decorator: one cell per cache key *)

Section AutocellProperties.
Import Autocell.

Variable sig : pydict.
Variable fname : string.
Variable f : pydict -> heap -> result nat * heap.
Variable set_settings : bool.
Variable set_name : bool.
Variable get_component_name : string -> pydict -> string.
Variable dup_name : string -> string.

Let decorated :=
  wrapper_autocell sig fname f set_settings set_name get_component_name dup_name.
Let body :=
  wrapped_cell fname f set_settings set_name get_component_name dup_name.
Let key_of := call_key sig.

(** The cell a miss returns is locked afterwards, and it is none of the
    cells that were locked before the call, which all stay locked. *)
Lemma wrapped_cell_fresh (p : pydict) (h h' : heap) (v : nat) :
  keeps_locked f ->
  body p h = (Ok v, h') ->
  locked_at h' v
  /\ (forall i, locked_at h i -> i <> v /\ locked_at h' i).
Proof.
  intros Hkeep. unfold body, wrapped_cell.
  destruct (f (thaw_frozensets p) h) as [[id|e] h0] eqn:Ef; [|discriminate].
  destruct (h0 !! id) as [cell|] eqn:Eid; [|discriminate].
  pose proof (lookup_lt_Some _ _ _ Eid) as Hid.
  destruct (KCell._locked cell) eqn:El.
  - intros H. injection H as <- <-. split.
    + eexists. split.
      * apply list_lookup_insert_eq. rewrite length_app. cbn. lia.
      * reflexivity.
    + intros i Hi. apply (Hkeep _ _ _ _ Ef) in Hi as [c [Hc Hl]].
      pose proof (lookup_lt_Some _ _ _ Hc) as Hlt.
      split; [lia|]. exists c. split; [|assumption].
      rewrite list_lookup_insert_ne by lia.
      now rewrite lookup_app_l.
  - intros H. injection H as <- <-. split.
    + eexists. split; [now apply list_lookup_insert_eq|reflexivity].
    + intros i Hi. apply (Hkeep _ _ _ _ Ef) in Hi as [c [Hc Hl]].
      assert (Hne : i <> id) by (intros ->; congruence).
      split; [assumption|]. exists c. split; [|assumption].
      now rewrite list_lookup_insert_ne by congruence.
Qed.

(** One call, from a state in which the invariant holds. *)
Lemma decorated_call (args : list Value) (kwargs key : pydict)
    (h h' : heap) (c c' : cache) (v : nat) :
  keeps_locked f ->
  cache_inv (h, c) ->
  key_of args kwargs = Ok key ->
  decorated args kwargs (h, c) = (Ok v, (h', c')) ->
  cache_inv (h', c')
  /\ locked_at h' v
  /\ (cache_get c key = Some v /\ h' = h /\ c' = c
      \/ cache_get c key = None
         /\ (forall i, locked_at h i -> i <> v)
         /\ (forall k0, ~ In (k0, v) (data c))
         /\ (forall e, In e (data c') -> In e (data c) \/ e = (key, v))).
Proof.
  intros Hkeep [Hlocked Hnd] Hkey. cbn [fst snd] in *.
  unfold decorated, wrapper_autocell.
  unfold key_of, call_key in Hkey.
  destruct (freeze_dicts (bind_params sig args kwargs)) as [params|e];
    [|discriminate].
  cbn [rbind] in Hkey. rewrite Hkey.
  destruct (cache_get c key) as [v0|] eqn:Eget.
  - intros H. injection H as <- <- <-.
    split; [now split|]. split.
    + apply cache_get_In in Eget as [k' [Hin _]]. eapply Hlocked. exact Hin.
    + left. easy.
  - destruct (wrapped_cell _ _ _ _ _ _ params h) as [[v1|e] h1] eqn:Ebody;
      [|discriminate].
    intros H. injection H as <- <- <-.
    destruct (wrapped_cell_fresh params h h1 v1 Hkeep Ebody) as [Hv Hold].
    assert (Hfresh : forall k0, ~ In (k0, v1) (data c)).
    { intros k0 Hin. apply Hlocked, Hold in Hin. now destruct Hin. }
    destruct (cache_set_data c key v1 Eget) as [_ [Hd|Hd]].
    + split; [|split; [assumption|]].
      * split; cbn [fst snd]; rewrite Hd; [|assumption].
        intros k v Hin. now apply Hlocked, Hold in Hin.
      * right. split; [reflexivity|].
        split; [intros i Hi; now apply Hold in Hi|]. split; [assumption|].
        intros e. rewrite Hd. now left.
    + split; [|split; [assumption|]].
      * split; cbn [fst snd]; rewrite Hd.
        -- intros k v Hin. apply in_app_or in Hin as [Hin|[E|[]]].
           ++ apply evict_incl in Hin. now apply Hlocked, Hold in Hin.
           ++ now injection E as <- <-.
        -- rewrite map_app. cbn [map snd].
           apply List.NoDup_app;
             [now apply evict_NoDup
             |apply List.NoDup_cons; [easy|apply List.NoDup_nil]|].
           intros x Hx1 [<-|[]].
           apply in_map_iff in Hx1 as [[k0 v0] [E Hin]]. cbn in E. subst v0.
           apply evict_incl in Hin. now apply Hfresh in Hin.
      * right. split; [reflexivity|].
        split; [intros i Hi; now apply Hold in Hi|]. split; [assumption|].
        intros e. rewrite Hd. intros Hin.
        apply in_app_or in Hin as [Hin|[E|[]]].
        -- left. now apply evict_incl in Hin.
        -- now right.
Qed.

(** A call that raises keeps the invariant too: the cache is as before and
    the cell function has left the locked cells locked. *)
Lemma decorated_raise_inv (args : list Value) (kwargs : pydict)
    (st st' : heap * cache) (e : exn) :
  keeps_locked f ->
  cache_inv st ->
  decorated args kwargs st = (Raise e, st') ->
  cache_inv st'.
Proof.
  intros Hkeep Hinv. destruct st as [h c].
  unfold decorated, wrapper_autocell.
  destruct (freeze_dicts (bind_params sig args kwargs)) as [params|e0];
    [|intros H; now injection H as _ <-].
  destruct (hashkey params) as [k|e0]; [|intros H; now injection H as _ <-].
  destruct (cache_get c k); [discriminate|].
  destruct (wrapped_cell _ _ _ _ _ _ params h) as [[v1|e1] h1] eqn:Ebody;
    [discriminate|].
  intros H. injection H as _ <-.
  destruct Hinv as [Hlocked Hnd]. split; [|assumption]. cbn [fst snd] in *.
  intros k0 v0 Hin. apply Hlocked in Hin.
  revert Ebody. unfold wrapped_cell.
  destruct (f (thaw_frozensets params) h) as [[id|e2] h0] eqn:Ef.
  - destruct (h0 !! id) as [cell|]; [destruct (KCell._locked cell); discriminate|].
    intros H. injection H as _ <-. eapply Hkeep; eassumption.
  - intros H. injection H as _ <-. eapply Hkeep; eassumption.
Qed.

(** A call whose key is cached returns the cached cell and changes
    nothing. *)
Lemma decorated_hit (args : list Value) (kwargs key : pydict)
    (h : heap) (c : cache) (v : nat) :
  key_of args kwargs = Ok key ->
  cache_get c key = Some v ->
  decorated args kwargs (h, c) = (Ok v, (h, c)).
Proof.
  unfold key_of, call_key, decorated, wrapper_autocell. intros Hkey Hget.
  destruct (freeze_dicts (bind_params sig args kwargs)) as [params|e];
    [|discriminate].
  cbn [rbind] in Hkey. now rewrite Hkey, Hget.
Qed.

(** After a call that returned a cell, the key of the call is cached with
    that cell, when the cache can hold an entry. *)
Lemma decorated_caches (args : list Value) (kwargs key : pydict)
    (h h' : heap) (c c' : cache) (v : nat) :
  key_of args kwargs = Ok key ->
  (1 <= maxsize c)%nat ->
  decorated args kwargs (h, c) = (Ok v, (h', c')) ->
  cache_get c' key = Some v.
Proof.
  unfold key_of, call_key, decorated, wrapper_autocell. intros Hkey Hm.
  destruct (freeze_dicts (bind_params sig args kwargs)) as [params|e];
    [|discriminate].
  cbn [rbind] in Hkey. rewrite Hkey.
  destruct (cache_get c key) as [v0|] eqn:Eget.
  - intros H. now injection H as <- <- <-.
  - destruct (wrapped_cell _ _ _ _ _ _ params h) as [[v1|e] h1];
      [|discriminate].
    intros H. injection H as <- <- <-. now apply cache_set_get.
Qed.

(** The only error of the key computation is the [TypeError] of an
    unhashable value. *)
Lemma freeze_dicts_error (p : pydict) (e : exn) :
  freeze_dicts p = Raise e -> e = TypeError "unhashable type".
Proof.
  revert e. induction p as [|[k v] p IH]; intros e; cbn [freeze_dicts mapM];
    [discriminate|].
  fold (freeze_dicts p).
  destruct v; cbn [snd fst rbind];
    try (destruct (freeze_dicts p); cbn [rbind]; intros H;
         [discriminate H|injection H as <-; now apply IH]).
  unfold dict_to_frozen_set. destruct (forallb _ d); cbn [rbind].
  - destruct (freeze_dicts p); cbn [rbind]; intros H;
      [discriminate H|injection H as <-; now apply IH].
  - intros H. now injection H as <-.
Qed.

(** Freezing leaves every value that is not a dict where it is. *)
Lemma freeze_dicts_keeps (p q : pydict) (kv : string * Value) :
  freeze_dicts p = Ok q -> In kv p -> (forall d, snd kv <> VDict d) -> In kv q.
Proof.
  revert q. induction p as [|[k v] p IH]; intros q; cbn [freeze_dicts mapM];
    [intros _ []|].
  fold (freeze_dicts p). intros H Hin Hnd.
  destruct (match snd (k, v) with
            | VDict d => do fs <- dict_to_frozen_set d; Ok (fst (k, v), fs)
            | _ => Ok (k, v)
            end) as [kv'|] eqn:E1; [|discriminate H].
  cbn [rbind] in H.
  destruct (freeze_dicts p) as [q'|]; [|discriminate H].
  cbn [rbind] in H. injection H as <-.
  destruct Hin as [<-|Hin].
  - left. cbn [snd] in E1, Hnd.
    destruct v; try (now injection E1). now destruct (Hnd d).
  - right. now apply IH.
Qed.

Lemma freeze_dicts_nested (p : pydict) (k : string) (d : pydict) :
  In (k, VDict d) p ->
  forallb (fun kv => hashable (snd kv)) d = false ->
  freeze_dicts p = Raise (TypeError "unhashable type").
Proof.
  intros Hin Hbad.
  destruct (freeze_dicts p) as [q|e] eqn:E;
    [|now rewrite (freeze_dicts_error _ _ E)].
  exfalso. revert q E.
  induction p as [|[k0 v0] p IH]; intros q; [destruct Hin|].
  cbn [freeze_dicts mapM]. fold (freeze_dicts p).
  destruct Hin as [Heq|Hin].
  - injection Heq as -> ->. cbn [snd]. unfold dict_to_frozen_set.
    rewrite Hbad. discriminate.
  - destruct (match snd (k0, v0) with
              | VDict d => do fs <- dict_to_frozen_set d; Ok (fst (k0, v0), fs)
              | _ => Ok (k0, v0)
              end); [|discriminate].
    cbn [rbind]. destruct (freeze_dicts p) as [q'|]; [|discriminate].
    intros _. now apply (IH Hin q').
Qed.

Lemma hashkey_unhashable (q : pydict) (kv : string * Value) :
  In kv q -> hashable (snd kv) = false ->
  hashkey q = Raise (TypeError "unhashable type").
Proof.
  intros Hin Hbad. unfold hashkey.
  destruct (forallb _ q) eqn:E; [|reflexivity].
  rewrite forallb_forall in E. apply E in Hin. congruence.
Qed.

(** A call whose key cannot be computed raises and changes nothing. *)
Lemma decorated_key_error (args : list Value) (kwargs : pydict)
    (st : heap * cache) (e : exn) :
  key_of args kwargs = Raise e ->
  decorated args kwargs st = (Raise e, st).
Proof.
  unfold key_of, call_key, decorated, wrapper_autocell. destruct st as [h c].
  destruct (freeze_dicts (bind_params sig args kwargs)) as [params|e0];
    cbn [rbind]; [intros ->; reflexivity|].
  intros H. now injection H as <-.
Qed.

(** A list among the bound parameters, or a dict that holds an unhashable
    value, leaves the call without key. *)
Lemma call_key_unhashable (args : list Value) (kwargs : pydict) :
  (exists k l, In (k, VList l) (bind_params sig args kwargs))
  \/ (exists k d, In (k, VDict d) (bind_params sig args kwargs)
                  /\ forallb (fun kv => hashable (snd kv)) d = false) ->
  key_of args kwargs = Raise (TypeError "unhashable type").
Proof.
  unfold key_of, call_key. intros [[k [l Hin]]|[k [d [Hin Hbad]]]].
  - destruct (freeze_dicts (bind_params sig args kwargs)) as [q|e] eqn:E;
      cbn [rbind].
    + apply (hashkey_unhashable q (k, VList l)); [|reflexivity].
      apply (freeze_dicts_keeps _ _ _ E Hin). intros d. discriminate.
    + now rewrite (freeze_dicts_error _ _ E).
  - now rewrite (freeze_dicts_nested _ _ _ Hin Hbad).
Qed.

(** Two calls in a row with the same key: the second returns the cell of
    the first and changes nothing, when the cache can hold an entry. *)
Lemma autocell_same_key_same_cell (args1 args2 : list Value)
    (kwargs1 kwargs2 key : pydict) (st st1 : heap * cache) (id1 : nat) :
  key_of args1 kwargs1 = Ok key ->
  key_of args2 kwargs2 = Ok key ->
  (1 <= maxsize (snd st))%nat ->
  decorated args1 kwargs1 st = (Ok id1, st1) ->
  decorated args2 kwargs2 st1 = (Ok id1, st1).
Proof.
  destruct st as [h c], st1 as [h1 c1]. cbn [snd].
  intros Hk1 Hk2 Hm Hcall1.
  apply (decorated_hit _ _ key); [assumption|].
  exact (decorated_caches args1 kwargs1 key h h1 c c1 id1 Hk1 Hm Hcall1).
Qed.

(** C3 (the code departs from it). The decorator converts the dicts among
    the arguments of a call to frozen sets and nothing else: no list is
    converted to a tuple and the conversion does not go into a dict.  So a
    call with a list among its arguments, or with a dict that holds a list
    or a dict, returns no cell: it raises the [TypeError] of an unhashable
    value and leaves cells and cache as they were.  What the claim says of
    the order of a dict's items does hold: two dicts with the same items
    give the same frozen set and the same key. *)
Theorem autocell_unhashable_arguments_raise :
  forall (args : list Value) (kwargs : pydict) (st : heap * cache),
    (exists k l, In (k, VList l) (bind_params sig args kwargs))
    \/ (exists k d, In (k, VDict d) (bind_params sig args kwargs)
                    /\ forallb (fun kv => hashable (snd kv)) d = false) ->
    decorated args kwargs st = (Raise (TypeError "unhashable type"), st)
    /\ (forall id st', decorated args kwargs st <> (Ok id, st'))
    /\ (forall d d' : pydict,
           List.NoDup (map fst d) -> Permutation d d' ->
           dict_to_frozen_set d = dict_to_frozen_set d'
           /\ hashkey d = hashkey d').
Proof.
  intros args kwargs st Hbad.
  assert (E : decorated args kwargs st
              = (Raise (TypeError "unhashable type"), st)).
  { apply decorated_key_error. now apply call_key_unhashable. }
  split; [exact E|]. split.
  - intros id st' H. rewrite E in H. discriminate H.
  - intros d d'. apply dict_order_irrelevant.
Qed.

End AutocellProperties.

Lemma cache_inv_empty (h : Autocell.heap) (n : nat) :
  Autocell.cache_inv (h, Autocell.mkCache n []).
Proof.
  split; cbn; [intros k v []|apply List.NoDup_nil].
Qed.


Lemma autocell_example_f_keeps_locked : Autocell.keeps_locked autocell_example_f.
Proof.
  intros p h r h' H i [c [Hc Hl]]. injection H as _ <-.
  exists c. split; [|assumption].
  rewrite lookup_app_l; [assumption|]. eapply lookup_lt_Some. eassumption.
Qed.

(** A tuple and the list with the same elements are not interchangeable:
    the call with the tuple returns a cell, the call with the list raises;
    and a dict inside a dict raises too.  A call with the int 1 after a
    call with the float 1.0 returns the cached cell, the two being equal
    as keys. *)
Example autocell_tuple_and_list_differ :
  fst (autocell_example_call (VTuple [VInt 1; VInt 2]) autocell_example_start)
  = Ok 0%nat
  /\ fst (autocell_example_call (VList [VInt 1; VInt 2])
            (snd (autocell_example_call (VTuple [VInt 1; VInt 2])
                    autocell_example_start)))
     = Raise (TypeError "unhashable type")
  /\ fst (autocell_example_call (VDict [("x", VDict [("y", VInt 1)])])
            autocell_example_start)
     = Raise (TypeError "unhashable type")
  /\ autocell_example_call (VInt 1)
       (snd (autocell_example_call (VFloat 0 (Float.of_Z 1))
               autocell_example_start))
     = (Ok 0%nat,
        snd (autocell_example_call (VFloat 0 (Float.of_Z 1))
               autocell_example_start)).
Proof. repeat split; vm_compute; reflexivity. Qed.

(** The argument of the test [test_nested_dict_list_dkcell], a dict that
    holds a list that holds a dict. *)
Lemma autocell_unhashable_arguments_raise_witness :
  autocell_example_call
    (VDict [("a", VInt 5);
            ("b", VList [VInt 5; VDict [("c", VStr "d"); ("e", VInt 6)]])])
    autocell_example_start
  = (Raise (TypeError "unhashable type"), autocell_example_start).
Proof.
  refine (proj1 (autocell_unhashable_arguments_raise [("a", VNone)] "straight"
                   autocell_example_f true true (fun name _ => name)
                   (fun name => (name ++ "$1")%string)
                   [VDict [("a", VInt 5);
                           ("b", VList [VInt 5;
                                        VDict [("c", VStr "d"); ("e", VInt 6)]])]]
                   [] autocell_example_start _)).
  right. exists "a". eexists. split; [now left|reflexivity].
Defined.

(* ================================================================== *)
(** * Ports: copies, rotations, moves and lookups *)

Lemma angle_code_of_Z (z : Z) : Kdb.angle_code (Kdb.angle_of_Z z) = z mod 4.
Proof.
  unfold Kdb.angle_of_Z.
  pose proof (Z.mod_pos_bound z 4 ltac:(lia)) as Hb.
  destruct (z mod 4) as [|[[|[]|]|[|[]|]|]|]; cbn; try reflexivity; lia.
Qed.

Lemma angle_of_Z_mod (z : Z) : Kdb.angle_of_Z (z mod 4) = Kdb.angle_of_Z z.
Proof. unfold Kdb.angle_of_Z. now rewrite Z.mod_mod by lia. Qed.

Lemma angle_of_Z_code (a : Kdb.angle4) : Kdb.angle_of_Z (Kdb.angle_code a) = a.
Proof. now destruct a. Qed.

Lemma angle_of_Z_congr (x y : Z) :
  x mod 4 = y mod 4 -> Kdb.angle_of_Z x = Kdb.angle_of_Z y.
Proof. unfold Kdb.angle_of_Z. now intros ->. Qed.

(** Two rotations one after the other are the rotation by the sum. *)
Lemma Kdb_of_rot_add (a b : Z) :
  Kdb.of_rot a *t Kdb.of_rot b = Kdb.of_rot (a + b).
Proof.
  unfold Kdb.of_rot, Kdb.mul. cbn [Kdb.angle Kdb.is_mirror Kdb.disp xorb].
  unfold Kdb.angle_add. rewrite !angle_code_of_Z.
  f_equal.
  - apply angle_of_Z_congr. now rewrite <- Z.add_mod by lia.
  - now destruct (Kdb.angle_of_Z a).
Qed.

(** Two displacements one after the other are the displacement by the
    sum. *)
Lemma Kdb_of_disp_add (u v : Kdb.Vector) :
  Kdb.of_disp u *t Kdb.of_disp v = Kdb.of_disp (Kdb.vadd u v).
Proof. destruct u, v. reflexivity. Qed.

(** X1. [Port.copy] composes as the transformations do: a copy of a copy is
    the copy with the product, the copy with the identity is the port, and
    copying with a transformation and then with its inverse gives the port
    back. *)
Theorem Port_copy_composes :
  forall (p : Port.t) (t1 t2 : Kdb.Trans),
    Port.copy (Port.copy p t1) t2 = Port.copy p (t2 *t t1)
    /\ Port.copy p Kdb.R0 = p
    /\ Port.copy (Port.copy p t1) (Kdb.inverted t1) = p.
Proof.
  intros [n tr w l pt] t1 t2. unfold Port.copy. cbn [Port.name Port.trans
    Port.width Port.layer Port.port_type].
  split; [|split].
  - now rewrite Kdb_mul_assoc.
  - now rewrite Kdb_mul_R0_l.
  - now rewrite <- Kdb_mul_assoc, Kdb_mul_inverted_l, Kdb_mul_R0_l.
Qed.

(** X2. [Port.rotate] turns the port on the spot: the position and the
    mirror flag stay, the angle of a port that is not mirrored grows by the
    given number of quarter turns and that of a mirrored port shrinks by
    it; rotating twice is rotating by the sum, and by a multiple of four
    quarter turns nothing changes. *)
Theorem Port_rotate_turns_on_the_spot :
  forall (p : Port.t) (a b : Z),
    Kdb.disp (Port.trans (Port.rotate p a)) = Kdb.disp (Port.trans p)
    /\ Kdb.is_mirror (Port.trans (Port.rotate p a))
       = Kdb.is_mirror (Port.trans p)
    /\ Kdb.angle (Port.trans (Port.rotate p a))
       = Kdb.angle_of_Z
           (if Kdb.is_mirror (Port.trans p)
            then Kdb.angle_code (Kdb.angle (Port.trans p)) - a
            else Kdb.angle_code (Kdb.angle (Port.trans p)) + a)
    /\ Port.rotate (Port.rotate p a) b = Port.rotate p (a + b)
    /\ Port.rotate p (4 * a) = p.
Proof.
  intros [n [ang m [x y]] w l pt] a b.
  unfold Port.rotate, Port.set_trans.
  cbn [Port.name Port.trans Port.width Port.layer Port.port_type].
  split; [|split; [|split; [|split]]].
  - unfold Kdb.mul, Kdb.of_rot. cbn [Kdb.disp Kdb.angle Kdb.is_mirror].
    unfold Kdb.vadd. destruct ang, m; cbn; f_equal; lia.
  - unfold Kdb.mul, Kdb.of_rot. cbn [Kdb.is_mirror]. now destruct m.
  - unfold Kdb.mul, Kdb.of_rot, Kdb.angle_add, Kdb.angle_sub.
    cbn [Kdb.disp Kdb.angle Kdb.is_mirror]. rewrite angle_code_of_Z.
    destruct m; apply angle_of_Z_congr.
    + now rewrite Zminus_mod_idemp_r.
    + now rewrite Zplus_mod_idemp_r.
  - now rewrite Kdb_mul_assoc, Kdb_of_rot_add.
  - replace (Kdb.of_rot (4 * a)) with Kdb.R0.
    + now rewrite Kdb_mul_R0_r.
    + unfold Kdb.of_rot, Kdb.R0. f_equal.
      rewrite <- (angle_of_Z_mod (4 * a)).
      now rewrite Z.mul_comm, Z.mod_mul by lia.
Qed.

Lemma wrap32_in_range (z : Z) : Kdb.in_range32 z -> Kdb.wrap32 z = z.
Proof.
  unfold Kdb.in_range32, Kdb.wrap32. intros H.
  rewrite Z.mod_small; lia.
Qed.

Lemma wrap32_range (z : Z) : Kdb.in_range32 (Kdb.wrap32 z).
Proof.
  unfold Kdb.in_range32, Kdb.wrap32.
  pose proof (Z.mod_pos_bound (z + 2 ^ 31) (2 ^ 32) ltac:(lia)). lia.
Qed.

Lemma wrap32_add_l (a b : Z) :
  Kdb.wrap32 (Kdb.wrap32 a + b) = Kdb.wrap32 (a + b).
Proof.
  unfold Kdb.wrap32. f_equal.
  replace ((a + 2 ^ 31) mod 2 ^ 32 - 2 ^ 31 + b + 2 ^ 31)
    with ((a + 2 ^ 31) mod 2 ^ 32 + b) by lia.
  rewrite Zplus_mod_idemp_l. f_equal. lia.
Qed.

(** Wrapping in between changes nothing of a wrapped product. *)
Lemma wrap_trans_mul_l (a b : Kdb.Trans) :
  Kdb.wrap_trans (Kdb.wrap_trans a *t b) = Kdb.wrap_trans (a *t b).
Proof.
  destruct a as [ang m [x y]], b as [ang' m' [x' y']].
  unfold Kdb.wrap_trans, Kdb.mul, Kdb.wrap_vector, Kdb.vadd.
  cbn [Kdb.angle Kdb.is_mirror Kdb.disp Kdb.vx Kdb.vy].
  now rewrite !wrap32_add_l.
Qed.

(** X3. [Port.move], for coordinates that fit in 32 bits, moves the port in
    its own frame: angle and mirror flag stay and the position changes by
    the given vector turned (and mirrored) as the port is, so that only a
    port at angle 0 that is not mirrored moves by the vector itself.  The
    new position is kept in 32 bits: it is the sum when the sum fits, and
    the sum wrapped around when it does not.  With one argument the port
    moves by that argument, and two moves are the move by the sum. *)
Theorem Port_move_in_own_frame :
  forall (p : Port.t) (origin destination : Z * Z),
    Kdb.in_range32 (fst origin) -> Kdb.in_range32 (snd origin) ->
    Kdb.in_range32 (fst destination) -> Kdb.in_range32 (snd destination) ->
    let v := Kdb.mkVector (fst destination - fst origin)
               (snd destination - snd origin) in
    let moved :=
      Kdb.vadd (Kdb.disp (Port.trans p))
        (Kdb.fix_apply (Kdb.angle (Port.trans p))
           (Kdb.is_mirror (Port.trans p)) v) in
    Port.trans (Port.move p origin (Some destination))
    = Kdb.mkTrans (Kdb.angle (Port.trans p)) (Kdb.is_mirror (Port.trans p))
        (Kdb.wrap_vector moved)
    /\ (Kdb.in_range32 (Kdb.vx moved) -> Kdb.in_range32 (Kdb.vy moved) ->
        Kdb.disp (Port.trans (Port.move p origin (Some destination)))
        = moved)
    /\ (Kdb.angle (Port.trans p) = Kdb.A0 ->
        Kdb.is_mirror (Port.trans p) = false ->
        moved = Kdb.vadd (Kdb.disp (Port.trans p)) v)
    /\ Port.move p origin None = Port.move p (0, 0) (Some origin)
    /\ (Kdb.in_range32 (fst origin + fst destination) ->
        Kdb.in_range32 (snd origin + snd destination) ->
        Port.move (Port.move p origin None) destination None
        = Port.move p (fst origin + fst destination,
                       snd origin + snd destination) None).
Proof.
  intros [n [ang m [x y]] w l pt] [ox oy] [dx dy] _ _ _ _ v moved.
  assert (E1 : Port.trans
                 (Port.move (Port.mk n (Kdb.mkTrans ang m (Kdb.mkVector x y))
                               w l pt) (ox, oy) (Some (dx, dy)))
               = Kdb.mkTrans ang m (Kdb.wrap_vector moved)).
  { unfold moved, v, Port.move, Port.set_trans, Kdb.wrap_trans.
    cbn [Port.name Port.trans Port.width Port.layer Port.port_type fst snd].
    destruct ang, m; cbv [Kdb.mul Kdb.of_disp Kdb.vsub Kdb.angle Kdb.is_mirror
      Kdb.disp Kdb.angle_add Kdb.angle_sub Kdb.angle_code Kdb.fix_apply Kdb.vadd
      Kdb.vx Kdb.vy xorb];
      match goal with
      | |- context [Kdb.angle_of_Z ?z] =>
          let r := eval vm_compute in (Kdb.angle_of_Z z) in
          change (Kdb.angle_of_Z z) with r
      end; reflexivity. }
  split; [exact E1|]. split; [|split; [|split]].
  - intros Hx Hy. rewrite E1. cbn [Kdb.disp]. unfold Kdb.wrap_vector.
    rewrite (wrap32_in_range _ Hx), (wrap32_in_range _ Hy).
    now destruct moved.
  - cbn [Port.trans Kdb.angle Kdb.is_mirror]. intros -> ->. reflexivity.
  - unfold Port.move. cbn [fst snd].
    cbv [Kdb.vsub Kdb.vx Kdb.vy]. now rewrite !Z.sub_0_r.
  - intros _ _. unfold Port.move, Port.set_trans.
    cbn [Port.name Port.trans Port.width Port.layer Port.port_type fst snd].
    rewrite wrap_trans_mul_l, Kdb_mul_assoc, Kdb_of_disp_add.
    cbv [Kdb.vsub Kdb.vadd Kdb.vx Kdb.vy]. now rewrite !Z.sub_0_r.
Qed.

(** A port at x = 2000000000 moved by 2000000000 in x ends at
    x = -294967296: the sum 4000000000 does not fit in 32 bits. *)
Lemma Port_move_in_own_frame_witness :
  Port.trans
    (Port.move (Port.mk "o1"
                  (Kdb.mkTrans Kdb.A0 false (Kdb.mkVector 2000000000 5))
                  500 0 "optical") (1, 1) (Some (2000000001, 21)))
  = Kdb.mkTrans Kdb.A0 false (Kdb.mkVector (-294967296) 25).
Proof.
  refine (eq_trans
            (proj1 (Port_move_in_own_frame
                      (Port.mk "o1"
                         (Kdb.mkTrans Kdb.A0 false (Kdb.mkVector 2000000000 5))
                         500 0 "optical") (1, 1) (2000000001, 21) _ _ _ _))
            _);
    try (unfold Kdb.in_range32; cbn [fst snd]; split; [lia|reflexivity]).
  reflexivity.
Defined.

(* ------------------------------------------------------------------ *)
(** ** The port collection *)

Lemma has_name_In (ps : Ports.t) (n : string) :
  Ports.has_name ps n = true <-> In n (map Port.name ps).
Proof.
  unfold Ports.has_name. rewrite existsb_exists, in_map_iff. split.
  - intros [p [Hin E]]. apply String.eqb_eq in E. now exists p.
  - intros [p [E Hin]]. exists p. split; [assumption|].
    now apply String.eqb_eq.
Qed.

Lemma has_name_false (ps : Ports.t) (n : string) :
  Ports.has_name ps n = false <-> ~ In n (map Port.name ps).
Proof.
  rewrite <- has_name_In. destruct (Ports.has_name ps n); split;
    intros H; try reflexivity; try discriminate; try congruence.
Qed.

Lemma find_name_None (ps : Ports.t) (k : string) :
  ~ In k (map Port.name ps) ->
  find (fun p => String.eqb (Port.name p) k) ps = None.
Proof.
  induction ps as [|p ps IH]; [reflexivity|]. cbn [map In find].
  intros H. destruct (String.eqb_spec (Port.name p) k) as [E|E].
  - exfalso. apply H. now left.
  - apply IH. intros Hin. apply H. now right.
Qed.

Lemma getitem_app (ps qs : Ports.t) (k : string) :
  Ports.getitem (ps ++ qs) k
  = if Ports.has_name ps k then Ports.getitem ps k else Ports.getitem qs k.
Proof.
  unfold Ports.getitem, Ports.has_name.
  induction ps as [|p ps IH]; [reflexivity|]. cbn [app find existsb].
  destruct (String.eqb (Port.name p) k); [reflexivity|]. exact IH.
Qed.

(** [add_port] stores a copy of the port, renamed when a name is given,
    unless that name is taken. *)
Lemma add_port_unfold (ps : Ports.t) (port : Port.t) (name : option string) :
  let n := match name with Some n => n | None => Port.name port end in
  let p' := Port.mk n (Port.trans port) (Port.width port) (Port.layer port)
              (Port.port_type port) in
  Ports.add_port ps port name
  = if Ports.has_name ps n
    then (Raise (ValueError "Port hase already been added to this cell"), ps)
    else (Ok tt, ps ++ [p']).
Proof.
  unfold Ports.add_port. rewrite Port_copy_R0.
  destruct name; [reflexivity|]. now destruct port.
Qed.

Lemma find_app_first {A : Type} (f : A -> bool) (l1 l2 : list A) :
  find f (l1 ++ l2)
  = match find f l1 with Some x => Some x | None => find f l2 end.
Proof.
  induction l1 as [|x l1 IH]; [reflexivity|]. cbn [app find].
  now destruct (f x).
Qed.

(** [get_all] keeps, for every name, the last port of that name. *)
Lemma get_all_lookup (ps : Ports.t) (k : string) :
  Ports.get_all ps !! k
  = find (fun p => String.eqb (Port.name p) k) (rev ps).
Proof.
  unfold Ports.get_all.
  assert (G : forall d : gmap string Port.t,
             fold_left (fun d v => <[Port.name v := v]> d) ps d !! k
             = match find (fun p => String.eqb (Port.name p) k) (rev ps) with
               | Some p => Some p
               | None => d !! k
               end).
  { induction ps as [|p ps IH]; intros d; [reflexivity|].
    cbn [fold_left rev]. rewrite IH, find_app_first.
    destruct (find _ (rev ps)) as [q|]; [reflexivity|]. cbn [find].
    destruct (String.eqb_spec (Port.name p) k) as [E|E].
    - subst k. now rewrite lookup_insert_eq.
    - now rewrite lookup_insert_ne. }
  rewrite G. destruct (find _ (rev ps)); [reflexivity|].
  apply lookup_empty.
Qed.

Lemma find_name_unique (ps : Ports.t) (k : string) (p : Port.t) :
  List.NoDup (map Port.name ps) -> In p ps -> Port.name p = k ->
  find (fun p => String.eqb (Port.name p) k) ps = Some p.
Proof.
  induction ps as [|q ps IH]; [intros _ []|].
  cbn [map find]. intros Hnd [->|Hin] Hk.
  - now rewrite Hk, String.eqb_refl.
  - apply List.NoDup_cons_iff in Hnd as [Hq Hnd].
    destruct (String.eqb_spec (Port.name q) k) as [E|E].
    + exfalso. apply Hq. rewrite E, <- Hk. now apply in_map.
    + now apply IH.
Qed.

(** X4. [add_port] keeps the names of a collection distinct: whatever the
    outcome, a collection without two ports of one name is one afterwards;
    a call that raises does so with the [ValueError] for a name already
    taken and leaves the collection as it was. *)
Theorem Ports_add_port_keeps_names_distinct :
  forall (ps : Ports.t) (port : Port.t) (name : option string),
    List.NoDup (map Port.name ps) ->
    List.NoDup (map Port.name (snd (Ports.add_port ps port name)))
    /\ (forall e, fst (Ports.add_port ps port name) = Raise e ->
          e = ValueError "Port hase already been added to this cell"
          /\ snd (Ports.add_port ps port name) = ps
          /\ In (match name with Some n => n | None => Port.name port end)
               (map Port.name ps)).
Proof.
  intros ps port name Hnd. rewrite add_port_unfold. cbv zeta.
  destruct (Ports.has_name ps _) eqn:E; cbn [fst snd].
  - split; [assumption|]. intros e H. injection H as <-.
    split; [reflexivity|]. split; [reflexivity|]. now apply has_name_In.
  - split; [|intros e H; discriminate H].
    rewrite map_app. cbn [map Port.name].
    apply List.NoDup_app; [assumption| |].
    + constructor; [intros []|constructor].
    + intros x Hx [<-|[]]. now apply has_name_false in E.
Qed.

Lemma Ports_add_port_keeps_names_distinct_witness :
  List.NoDup
    (map Port.name
       (snd (Ports.add_port (KCell.ports connect_example_cell)
               (Port.mk "o1" Kdb.R0 500 0 "optical") (Some "o3")))).
Proof.
  refine (proj1 (Ports_add_port_keeps_names_distinct
                   (KCell.ports connect_example_cell)
                   (Port.mk "o1" Kdb.R0 500 0 "optical") (Some "o3") _)).
  repeat constructor; cbn; intuition discriminate.
Defined.

(** X5. A port added under a free name is found again under that name, with
    the transformation, width, layer and type of the port handed in, and
    every other lookup gives what it gave before. *)
Theorem Ports_add_port_then_getitem :
  forall (ps : Ports.t) (port : Port.t) (name : option string),
    let n := match name with Some n => n | None => Port.name port end in
    Ports.has_name ps n = false ->
    fst (Ports.add_port ps port name) = Ok tt
    /\ Ports.getitem (snd (Ports.add_port ps port name)) n
       = Ok (Port.mk n (Port.trans port) (Port.width port) (Port.layer port)
               (Port.port_type port))
    /\ (forall k, k <> n ->
          Ports.getitem (snd (Ports.add_port ps port name)) k
          = Ports.getitem ps k).
Proof.
  intros ps port name n Hfree. rewrite add_port_unfold. fold n.
  rewrite Hfree. cbn [fst snd]. split; [reflexivity|]. split.
  - rewrite getitem_app, Hfree. unfold Ports.getitem. cbn [find Port.name].
    now rewrite String.eqb_refl.
  - intros k Hk. rewrite getitem_app.
    destruct (Ports.has_name ps k) eqn:E; [reflexivity|].
    unfold Ports.getitem. cbn [find Port.name].
    destruct (String.eqb_spec n k) as [E'|E']; [congruence|].
    apply has_name_false in E. now rewrite find_name_None.
Qed.

Lemma Ports_add_port_then_getitem_witness :
  Ports.getitem
    (snd (Ports.add_port (KCell.ports connect_example_cell)
            (Port.mk "o1" Kdb.R0 500 0 "optical") (Some "o3"))) "o3"
  = Ok (Port.mk "o3" Kdb.R0 500 0 "optical").
Proof.
  exact (proj1 (proj2 (Ports_add_port_then_getitem
                         (KCell.ports connect_example_cell)
                         (Port.mk "o1" Kdb.R0 500 0 "optical") (Some "o3")
                         eq_refl))).
Defined.

(** X6. [create_port] does not look at the names: with a name that a port
    of the collection has it succeeds all the same and appends the new
    port; a lookup by that name still gives the earlier port, whereas the
    dictionary of [get_all] holds the new one. *)
Theorem Ports_create_port_shadowed :
  forall (ps : Ports.t) (name : string) (width layer : Z) (port_type : string)
         (tr : Kdb.Trans) (position : option (Z * Z)) (angle : option Z)
         (mirror_x : bool),
    Ports.has_name ps name = true ->
    let port := Port.mk name tr width layer port_type in
    Ports.create_port ps name width layer port_type (Some tr) position angle
      mirror_x
    = (Ok port, ps ++ [port])
    /\ Ports.getitem (ps ++ [port]) name = Ports.getitem ps name
    /\ Ports.get_all (ps ++ [port]) !! name = Some port.
Proof.
  intros ps name width layer port_type tr position angle mirror_x Htaken port.
  split; [reflexivity|]. split.
  - now rewrite getitem_app, Htaken.
  - rewrite get_all_lookup, rev_app_distr. cbn [rev app find Port.name].
    now rewrite String.eqb_refl.
Qed.

Lemma Ports_create_port_shadowed_witness :
  Ports.getitem
    (KCell.ports connect_example_cell
     ++ [Port.mk "o1" Kdb.R0 1000 1 "electrical"]) "o1"
  = Ports.getitem (KCell.ports connect_example_cell) "o1"
  /\ Ports.get_all
       (KCell.ports connect_example_cell
        ++ [Port.mk "o1" Kdb.R0 1000 1 "electrical"]) !! "o1"
     = Some (Port.mk "o1" Kdb.R0 1000 1 "electrical").
Proof.
  exact (proj2 (Ports_create_port_shadowed (KCell.ports connect_example_cell)
                  "o1" 1000 1 "electrical" Kdb.R0 None None false eq_refl)).
Defined.

(** X7. In a collection without two ports of one name, [get_all] and
    [__getitem__] agree: a name is a key of the dictionary exactly when the
    lookup succeeds, and then with the same port. *)
Theorem Ports_get_all_agrees_with_getitem :
  forall (ps : Ports.t) (k : string),
    List.NoDup (map Port.name ps) ->
    Ports.getitem ps k
    = match Ports.get_all ps !! k with
      | Some p => Ok p
      | None => Raise (StopIteration k)
      end.
Proof.
  intros ps k Hnd. rewrite get_all_lookup. unfold Ports.getitem.
  destruct (find _ (rev ps)) as [p|] eqn:E.
  - apply find_some in E as [Hin Hk]. apply String.eqb_eq in Hk.
    apply in_rev in Hin. now rewrite (find_name_unique ps k p).
  - destruct (find _ ps) as [p|] eqn:E'; [|reflexivity].
    apply find_some in E' as [Hin Hk].
    apply in_rev in Hin. apply (find_none _ _ E) in Hin. congruence.
Qed.

Lemma Ports_get_all_agrees_with_getitem_witness :
  Ports.getitem (KCell.ports connect_example_cell) "o2"
  = match Ports.get_all (KCell.ports connect_example_cell) !! "o2" with
    | Some p => Ok p
    | None => Raise (StopIteration "o2")
    end.
Proof.
  apply (Ports_get_all_agrees_with_getitem (KCell.ports connect_example_cell)
           "o2").
  repeat constructor; cbn; intuition discriminate.
Defined.

(* ------------------------------------------------------------------ *)
(** ** The ports of an instance *)

Lemma find_map_copy (tr : Kdb.Trans) (ps : Ports.t) (k : string) :
  find (fun p => String.eqb (Port.name p) k)
    (map (fun port => Port.copy port tr) ps)
  = option_map (fun p => Port.copy p tr)
      (find (fun p => String.eqb (Port.name p) k) ps).
Proof.
  induction ps as [|p ps IH]; [reflexivity|]. cbn [map find Port.copy Port.name].
  destruct (String.eqb (Port.name p) k); [reflexivity|]. exact IH.
Qed.

(** X8. The two ways to the ports of an instance agree: a lookup in the
    collection [InstancePorts.copy] returns gives, for every key, what
    [InstancePorts.__getitem__] gives, and the collection has the names of
    the cell's ports in their order. *)
Theorem InstancePorts_copy_agrees_with_getitem :
  forall (inst : Instance.t) (key : string),
    Ports.getitem (Instance.ports_copy inst) key
    = Instance.ports_getitem inst key
    /\ map Port.name (Instance.ports_copy inst)
       = map Port.name (KCell.ports (KCell.cell inst)).
Proof.
  intros inst key. split.
  - unfold Instance.ports_copy, Instance.ports_getitem, Ports.getitem.
    rewrite find_map_copy.
    now destruct (find _ (KCell.ports (KCell.cell inst))).
  - unfold Instance.ports_copy. rewrite map_map. reflexivity.
Qed.

(** X9. After a [connect] that does not raise, the port of the instance
    lies on the other port and faces the opposite way: seen through the
    instance it has the position of the other port, the angle of the other
    port plus a half turn, and it is mirrored exactly when one of the other
    port and the [mirror] argument is; name, width, layer and type are
    those of the cell's port. *)
Theorem connect_port_meets_other_port :
  forall (self self' : Instance.t) (portname : string) (p op : Port.t)
         (mirror allow_width allow_layer allow_type : bool),
    Ports.getitem (KCell.ports (KCell.cell self)) portname = Ok p ->
    Instance.connect self portname (Instance.OtherPort op) None mirror
      allow_width allow_layer allow_type = (Ok tt, self') ->
    exists q,
      Instance.ports_getitem self' portname = Ok q
      /\ Kdb.disp (Port.trans q) = Kdb.disp (Port.trans op)
      /\ Kdb.angle (Port.trans q)
         = Kdb.angle_add (Kdb.angle (Port.trans op)) Kdb.A180
      /\ Kdb.is_mirror (Port.trans q)
         = xorb (Kdb.is_mirror (Port.trans op)) mirror
      /\ Port.name q = Port.name p /\ Port.width q = Port.width p
      /\ Port.layer q = Port.layer p /\ Port.port_type q = Port.port_type p.
Proof.
  intros self self' portname p op mirror aw al aty Hp Hconn.
  assert (Hself' : self' = KCell.mkInstance (KCell.cell self)
                      (Port.trans op *t (if mirror then Kdb.M90 else Kdb.R180)
                         *t Kdb.inverted (Port.trans p))).
  { revert Hconn. unfold Instance.connect. cbn [Instance.other_port].
    rewrite Hp.
    repeat match goal with
           | |- context [if ?b then (Raise _, _) else _] => destruct b
           end; intros H; try discriminate H.
    now injection H as <-. }
  subst self'. unfold Instance.ports_getitem.
  cbn [KCell.cell KCell.trans]. rewrite Hp. cbn [rbind].
  eexists. split; [reflexivity|]. unfold Port.copy.
  cbn [Port.trans Port.name Port.width Port.layer Port.port_type].
  rewrite Kdb_mul_assoc, Kdb_mul_inverted_l, Kdb_mul_R0_r.
  destruct (Port.trans op) as [[] [] [x y]], mirror;
    cbv [Kdb.mul Kdb.M90 Kdb.R180 Kdb.angle Kdb.is_mirror Kdb.disp
         Kdb.angle_add Kdb.angle_sub Kdb.angle_code Kdb.fix_apply Kdb.vadd
         Kdb.vx Kdb.vy xorb];
    repeat match goal with
           | |- context [Kdb.angle_of_Z ?z] =>
               let r := eval vm_compute in (Kdb.angle_of_Z z) in
               change (Kdb.angle_of_Z z) with r
           end;
    repeat split; f_equal; lia.
Qed.

Lemma connect_port_meets_other_port_witness :
  exists q,
    Instance.ports_getitem
      (KCell.mkInstance connect_example_cell
         (Kdb.mkTrans Kdb.A0 false (Kdb.mkVector 10000 0))) "o1" = Ok q
    /\ Kdb.disp (Port.trans q) = Kdb.mkVector 10000 0.
Proof.
  destruct (connect_port_meets_other_port
              (KCell.mkInstance connect_example_cell Kdb.R0)
              (KCell.mkInstance connect_example_cell
                 (Kdb.mkTrans Kdb.A0 false (Kdb.mkVector 10000 0)))
              "o1"
              (Port.mk "o1" (Kdb.mkTrans Kdb.A180 false (Kdb.mkVector 0 0))
                 500 0 "optical")
              (Port.mk "o2" (Kdb.mkTrans Kdb.A0 false (Kdb.mkVector 10000 0))
                 500 0 "optical")
              false false false false eq_refl eq_refl)
    as [q [Hq [Hd _]]].
  exists q. split; [exact Hq|exact Hd].
Defined.

(* ------------------------------------------------------------------ *)
(** ** Copies of cells and what the cell hash depends on *)

Lemma Ports_copy_id (ps : Ports.t) : Ports.copy ps = ps.
Proof.
  unfold Ports.copy. induction ps as [|p ps IH]; [reflexivity|].
  cbn [map]. now rewrite Port_copy_R0, IH.
Qed.

Lemma create_inst_loop (l : list Instance.t) (c : KCell.t) :
  fold_left
    (fun c inst =>
       snd (KCell.create_inst c (KCell.cell inst) (KCell.trans inst))) l c
  = KCell.set_insts c (KCell.insts c ++ l).
Proof.
  revert c. induction l as [|i l IH]; intros c; cbn [fold_left].
  - rewrite app_nil_r. now destruct c.
  - rewrite IH. unfold KCell.create_inst, KCell.set_insts.
    cbn [snd KCell.name KCell.shapes KCell.ports KCell.insts KCell.settings
         KCell._locked KCell.info].
    rewrite <- app_assoc. now destruct i.
Qed.

(** X10. The copy of a cell has the shapes, the ports and the instances of
    the cell, under the name the back end gave the duplicate; it is not
    locked, also when the cell is, and its settings and info are empty
    whatever the cell's are. *)
Theorem KCell_copy_drops_lock_and_settings :
  forall (c : KCell.t) (dup_name : string),
    KCell.copy c dup_name
    = KCell.mk dup_name (KCell.shapes c) (KCell.ports c) (KCell.insts c)
        [] false [].
Proof.
  intros c dup_name. unfold KCell.copy.
  rewrite create_inst_loop, Ports_copy_id. reflexivity.
Qed.












(* ------------------------------------------------------------------ *)
(** ** The registry: creating, registering and renaming cells *)

Lemma KLib_cell_app (kc kc' : gmap string nat) (l : list string)
    (n name : string) :
  KLib.cell (KLib.mk kc' (l ++ [n])) name
  = match KLib.cell (KLib.mk kc l) name with
    | Some i => Some i
    | None => if String.eqb n name then Some (List.length l) else None
    end.
Proof.
  unfold KLib.cell. cbn [KLib.cells].
  change (Some (List.length l)) with (Some (0 + List.length l)%nat).
  generalize 0%nat.
  induction l as [|x l IH]; intros i; cbn [app List.length].
  - rewrite Nat.add_0_r. reflexivity.
  - destruct (String.eqb x name); [reflexivity|].
    rewrite IH. now rewrite Nat.add_succ_comm.
Qed.

Lemma KLib_cell_None (self : KLib.t) (name : string) :
  KLib.cell self name = None <-> ~ In name (KLib.cells self).
Proof.
  unfold KLib.cell. generalize 0%nat. generalize (KLib.cells self).
  induction l as [|n l IH]; intros i; cbn [In].
  - split; [intros _ []|reflexivity].
  - destruct (String.eqb_spec n name) as [E|E].
    + split; [discriminate|]. intros H. exfalso. apply H. now left.
    + rewrite IH. split; [intros H [H'|H']; [congruence|auto]|auto].
Qed.

Lemma create_cell_free (self : KLib.t) (kcell : nat) (name : string)
    (allow_duplicate : bool) :
  KLib.cell self name = None ->
  KLib.create_cell self kcell name allow_duplicate
  = (Ok (List.length (KLib.cells self)),
     KLib.mk (<[name := kcell]> (KLib.kcells self))
       (KLib.cells self ++ [name])).
Proof.
  intros Hfree. unfold KLib.create_cell. rewrite Hfree, orb_true_r.
  unfold KLib.Layout_create_cell, KLib.uniquify_cell_name.
  apply KLib_cell_None in Hfree.
  destruct (existsb (String.eqb name) (KLib.cells self)) eqn:E;
    [|reflexivity].
  apply existsb_eqb_In in E. contradiction.
Qed.

(** X12. A cell created under a name no cell of the layout has is found
    again: the call returns the next cell index, the layout has the cell
    under that very name and index, the registry has the cell object under
    the name, and every other name gives what it gave before. *)
Theorem KLib_create_cell_then_lookup :
  forall (self : KLib.t) (kcell : nat) (name : string) (allow_duplicate : bool),
    KLib.cell self name = None ->
    let idx := List.length (KLib.cells self) in
    fst (KLib.create_cell self kcell name allow_duplicate) = Ok idx
    /\ KLib.cell (snd (KLib.create_cell self kcell name allow_duplicate)) name
       = Some idx
    /\ KLib.kcells (snd (KLib.create_cell self kcell name allow_duplicate))
       !! name = Some kcell
    /\ (forall other, other <> name ->
          KLib.cell (snd (KLib.create_cell self kcell name allow_duplicate))
            other = KLib.cell self other
          /\ KLib.kcells
               (snd (KLib.create_cell self kcell name allow_duplicate))
             !! other = KLib.kcells self !! other).
Proof.
  intros self kcell name ad Hfree idx.
  rewrite (create_cell_free self kcell name ad Hfree). cbn [fst snd].
  split; [reflexivity|]. split; [|split].
  - rewrite (KLib_cell_app (KLib.kcells self)).
    replace (KLib.mk (KLib.kcells self) (KLib.cells self)) with self
      by now destruct self.
    now rewrite Hfree, String.eqb_refl.
  - cbn [KLib.kcells]. apply lookup_insert_eq.
  - intros other Hne. split.
    + rewrite (KLib_cell_app (KLib.kcells self)).
      replace (KLib.mk (KLib.kcells self) (KLib.cells self)) with self
        by now destruct self.
      destruct (KLib.cell self other); [reflexivity|].
      destruct (String.eqb_spec name other); [congruence|reflexivity].
    + cbn [KLib.kcells]. apply lookup_insert_ne. congruence.
Qed.

Lemma KLib_create_cell_then_lookup_witness :
  KLib.cell (snd (KLib.create_cell registry_example 1 "bend" false)) "bend"
  = Some 1%nat.
Proof.
  exact (proj1 (proj2 (KLib_create_cell_then_lookup registry_example 1 "bend"
                         false eq_refl))).
Defined.

(** X13. [update_cell_name] moves the registry entry: when the old name is
    registered and the new one differs, the cell is registered under the
    new name afterwards (replacing whatever was registered there), the old
    name is not registered any more, and the other names and the back-end
    cells are untouched.  When the old name is not registered the call
    raises [KeyError] and changes nothing; when both names are the same it
    does nothing at all, registered or not. *)
Theorem KLib_update_cell_name_moves_entry :
  forall (self : KLib.t) (name new_name : string),
    (forall k, new_name <> name -> KLib.kcells self !! name = Some k ->
       fst (KLib.update_cell_name self name new_name) = Ok tt
       /\ KLib.kcells (snd (KLib.update_cell_name self name new_name))
          !! new_name = Some k
       /\ KLib.kcells (snd (KLib.update_cell_name self name new_name))
          !! name = None
       /\ (forall other, other <> name -> other <> new_name ->
             KLib.kcells (snd (KLib.update_cell_name self name new_name))
             !! other = KLib.kcells self !! other)
       /\ KLib.cells (snd (KLib.update_cell_name self name new_name))
          = KLib.cells self)
    /\ (new_name <> name -> KLib.kcells self !! name = None ->
        KLib.update_cell_name self name new_name = (Raise (KeyError name), self))
    /\ KLib.update_cell_name self name name = (Ok tt, self).
Proof.
  intros self name new_name. split; [|split].
  - intros k Hne Hk. unfold KLib.update_cell_name.
    destruct (String.eqb_spec new_name name) as [E|_]; [contradiction|].
    cbn [negb]. rewrite Hk. cbn [fst snd KLib.kcells KLib.cells].
    split; [reflexivity|]. split; [|split; [|split]].
    + rewrite lookup_delete_ne by congruence. apply lookup_insert_eq.
    + apply lookup_delete_eq.
    + intros other H1 H2. rewrite lookup_delete_ne by congruence.
      apply lookup_insert_ne. congruence.
    + reflexivity.
  - intros Hne Hk. unfold KLib.update_cell_name.
    destruct (String.eqb_spec new_name name) as [E|_]; [contradiction|].
    cbn [negb]. now rewrite Hk.
  - unfold KLib.update_cell_name. now rewrite String.eqb_refl.
Qed.

(** X14. [register_cell] accepts a cell whose name is free or registered to
    that very cell, and is idempotent: afterwards the name is registered to
    the cell, the back-end cells are as before, and registering again
    changes nothing.  A different cell under a registered name is refused
    with [KeyError] and the registry stays as it was. *)
Theorem KLib_register_cell_idempotent :
  forall (self : KLib.t) (kcell : nat) (name : string),
    ((KLib.kcells self !! name = None
      \/ KLib.kcells self !! name = Some kcell) ->
     fst (KLib.register_cell self kcell name) = Ok tt
     /\ KLib.kcells (snd (KLib.register_cell self kcell name)) !! name
        = Some kcell
     /\ KLib.cells (snd (KLib.register_cell self kcell name))
        = KLib.cells self
     /\ KLib.register_cell (snd (KLib.register_cell self kcell name)) kcell
          name
        = (Ok tt, snd (KLib.register_cell self kcell name)))
    /\ (forall other, KLib.kcells self !! name = Some other ->
          other <> kcell ->
          exists msg,
            KLib.register_cell self kcell name = (Raise (KeyError msg), self)).
Proof.
  intros self kcell name. split.
  - intros H.
    assert (E : KLib.register_cell self kcell name
                = (Ok tt, KLib.mk (<[name := kcell]> (KLib.kcells self))
                            (KLib.cells self))).
    { unfold KLib.register_cell. destruct H as [-> | ->]; [reflexivity|].
      now rewrite Nat.eqb_refl. }
    rewrite E. cbn [fst snd KLib.kcells KLib.cells].
    split; [reflexivity|]. split; [apply lookup_insert_eq|].
    split; [reflexivity|].
    unfold KLib.register_cell. cbn [KLib.kcells KLib.cells].
    rewrite lookup_insert_eq, Nat.eqb_refl. cbn [negb].
    now rewrite insert_insert_eq.
  - intros other Hk Hne. unfold KLib.register_cell. rewrite Hk.
    destruct (Nat.eqb_spec kcell other) as [E|_]; [congruence|].
    cbn [negb]. eexists. reflexivity.
Qed.

Lemma KLib_register_cell_idempotent_witness :
  KLib.register_cell (snd (KLib.register_cell registry_example 0 "straight"))
    0 "straight"
  = (Ok tt, snd (KLib.register_cell registry_example 0 "straight")).
Proof.
  refine (proj2 (proj2 (proj2 (proj1 (KLib_register_cell_idempotent
                                        registry_example 0 "straight") _)))).
  right. reflexivity.
Defined.

Lemma str_of_Z_nonempty (z : Z) : str_of_Z z <> "".
Proof.
  unfold str_of_Z. intros H.
  assert (E : NilZero.int_of_string (NilZero.string_of_int (Z.to_int z))
              = NilZero.int_of_string "") by now rewrite H.
  assert (Hnn : Z.to_int z <> Decimal.Pos Decimal.Nil
                /\ Z.to_int z <> Decimal.Neg Decimal.Nil).
  { destruct z as [|p|p]; cbn; split; try discriminate;
      intros E'; injection E' as E';
      now apply DecimalPos.Unsigned.to_uint_nonnil in E'. }
  rewrite NilZero.isi in E by apply Hnn. discriminate E.
Qed.

Lemma unnamed_name_fresh (z : Z) :
  ("Unnamed_" ++ str_of_Z z)%string <> "Unnamed_".
Proof.
  intros H. apply (str_of_Z_nonempty z).
  apply (string_app_inv_head "Unnamed_"). now rewrite H.
Qed.

(** X15. Building a cell without a name, in a layout that has no cell named
    [Unnamed_], succeeds: the cell gets the next cell index [n], the back
    end and the registry know it as [Unnamed_n], and the name [Unnamed_] is
    free again, in the layout and in the registry, so that the next cell
    without a name can be built too. *)
Theorem KCell_init_unnamed :
  forall (self : KLib.t) (kcell : nat),
    KLib.cell self "Unnamed_" = None ->
    let n := List.length (KLib.cells self) in
    let name := ("Unnamed_" ++ str_of_Z (Z.of_nat n))%string in
    fst (KLib.KCell_init self kcell None) = Ok n
    /\ KLib.cells (snd (KLib.KCell_init self kcell None))
       = KLib.cells self ++ [name]
    /\ KLib.kcells (snd (KLib.KCell_init self kcell None)) !! name
       = Some kcell
    /\ KLib.kcells (snd (KLib.KCell_init self kcell None)) !! "Unnamed_"
       = None
    /\ KLib.cell (snd (KLib.KCell_init self kcell None)) "Unnamed_" = None.
Proof.
  intros self kcell Hfree n name.
  unfold KLib.KCell_init. rewrite (create_cell_free _ _ _ _ Hfree).
  unfold KLib.setattr_name, KLib.name_setter, KLib.Layout_rename.
  cbn [KLib.cells KLib.kcells].
  fold n. fold name.
  rewrite app_nth2 by (unfold n; lia).
  replace (n - List.length (KLib.cells self))%nat with 0%nat by (unfold n; lia).
  cbn [nth].
  replace (<[n := name]> (KLib.cells self ++ ["Unnamed_"]))
    with (KLib.cells self ++ [name]).
  2:{ pose proof (insert_app_r (KLib.cells self) ["Unnamed_"] 0 name) as H.
      rewrite Nat.add_0_r in H. symmetry. exact H. }
  unfold KLib.update_cell_name. cbn [KLib.cells KLib.kcells].
  destruct (String.eqb_spec name "Unnamed_") as [E|Hne];
    [now apply unnamed_name_fresh in E|].
  cbn [negb]. rewrite lookup_insert_eq. cbn [fst snd KLib.cells KLib.kcells].
  assert (Hagain : <[n := name]> (KLib.cells self ++ [name])
                   = KLib.cells self ++ [name]).
  { pose proof (insert_app_r (KLib.cells self) [name] 0 name) as H.
    rewrite Nat.add_0_r in H. exact H. }
  rewrite Hagain.
  split; [reflexivity|]. split; [reflexivity|]. split; [|split].
  - rewrite lookup_delete_ne by congruence. apply lookup_insert_eq.
  - apply lookup_delete_eq.
  - apply KLib_cell_None. cbn [KLib.cells]. intros Hin.
    apply in_app_or in Hin as [Hin|[Hin|[]]].
    + now apply KLib_cell_None in Hfree.
    + contradiction.
Qed.

Lemma KCell_init_unnamed_witness :
  fst (KLib.KCell_init registry_example 1 None) = Ok 1%nat
  /\ KLib.cells (snd (KLib.KCell_init registry_example 1 None))
     = ["straight"; "Unnamed_1"].
Proof.
  split.
  - exact (proj1 (KCell_init_unnamed registry_example 1 eq_refl)).
  - exact (proj1 (proj2 (KCell_init_unnamed registry_example 1 eq_refl))).
Defined.

(* ------------------------------------------------------------------ *)
(** ** The decorator: what a call leaves behind *)

Lemma dict_get_set_eq (d : pydict) (k : string) (v : Value) :
  dict_get (dict_set d k v) k = Some v.
Proof.
  induction d as [|[k' v'] d IH]; cbn [dict_set dict_get].
  - now rewrite String.eqb_refl.
  - destruct (String.eqb_spec k' k) as [E|E]; cbn [dict_get].
    + now rewrite String.eqb_refl.
    + destruct (String.eqb_spec k' k); [contradiction|exact IH].
Qed.

Lemma dict_get_set_ne (d : pydict) (k k0 : string) (v : Value) :
  k0 <> k -> dict_get (dict_set d k v) k0 = dict_get d k0.
Proof.
  intros Hne. induction d as [|[k' v'] d IH]; cbn [dict_set dict_get].
  - destruct (String.eqb_spec k k0); [congruence|reflexivity].
  - destruct (String.eqb_spec k' k) as [E|E]; cbn [dict_get].
    + subst k'. destruct (String.eqb_spec k k0); [congruence|reflexivity].
    + destruct (String.eqb k' k0); [reflexivity|exact IH].
Qed.

(** After [d.update(other)] every item of [other] is in [d]. *)
Lemma dict_update_get (other d : pydict) (k : string) (v : Value) :
  List.NoDup (map fst other) -> In (k, v) other ->
  dict_get (dict_update d other) k = Some v.
Proof.
  unfold dict_update. revert d.
  induction other as [|[k0 v0] other IH]; intros d Hnd Hin; [destruct Hin|].
  cbn [fold_left fst snd]. cbn [map fst] in Hnd.
  apply List.NoDup_cons_iff in Hnd as [Hk0 Hnd].
  destruct Hin as [E|Hin]; [|now apply IH].
  injection E as -> ->.
  assert (G : forall other d,
             ~ In k (map fst other) ->
             dict_get
               (fold_left (fun acc kv => dict_set acc (fst kv) (snd kv)) other d)
               k
             = dict_get d k).
  { clear. induction other as [|[k1 v1] other IH]; intros d Hk; [reflexivity|].
    cbn [fold_left fst snd]. cbn [map fst In] in Hk.
    rewrite IH by tauto. apply dict_get_set_ne.
    intros ->. apply Hk. now left. }
  rewrite G by assumption. apply dict_get_set_eq.
Qed.

Lemma evict_length (m : nat) (d : list (pydict * nat)) :
  (1 <= m)%nat -> (List.length (Autocell.evict m d) + 1 <= m)%nat.
Proof.
  intros Hm. induction d as [|e d IH]; cbn [Autocell.evict List.length].
  - lia.
  - destruct (Nat.ltb_spec m (S (List.length d) + 1)); [exact IH|].
    cbn [List.length]. lia.
Qed.

Lemma cache_set_bounded (c : Autocell.cache) (k : pydict) (v : nat) :
  (List.length (Autocell.data c) <= Autocell.maxsize c)%nat ->
  Autocell.maxsize (snd (Autocell.cache_set c k v)) = Autocell.maxsize c
  /\ (List.length (Autocell.data (snd (Autocell.cache_set c k v)))
      <= Autocell.maxsize c)%nat.
Proof.
  intros Hb. unfold Autocell.cache_set.
  destruct (Nat.ltb_spec (Autocell.maxsize c) 1) as [Hm|Hm];
    [now split|].
  destruct (Autocell.cache_get c k);
    cbn [snd Autocell.maxsize Autocell.data].
  - split; [reflexivity|]. now rewrite length_map.
  - split; [reflexivity|]. rewrite length_app. cbn [List.length].
    now apply evict_length.
Qed.

Section AutocellResults.
Import Autocell.

Variable sig : pydict.
Variable fname : string.
Variable f : pydict -> heap -> result nat * heap.
Variable set_settings : bool.
Variable set_name : bool.
Variable get_component_name : string -> pydict -> string.
Variable dup_name : string -> string.

Let body :=
  wrapped_cell fname f set_settings set_name get_component_name dup_name.


(** X17. With [set_settings] on, the settings of the cell a call returns
    after the cell function ran hold every parameter of the call with its
    value, dictionaries thawed again. *)
Theorem autocell_settings_hold_parameters :
  forall (p : pydict) (h h' : heap) (v : nat),
    set_settings = true ->
    List.NoDup (map fst p) ->
    body p h = (Ok v, h') ->
    exists cell,
      h' !! v = Some cell
      /\ (forall k x, In (k, x) (thaw_frozensets p) ->
            dict_get (KCell.settings cell) k = Some x).
Proof.
  intros p h h' v Hset Hnd. unfold body, wrapped_cell. rewrite Hset.
  assert (Hnd' : List.NoDup (map fst (thaw_frozensets p))).
  { unfold thaw_frozensets. rewrite map_map.
    erewrite map_ext; [exact Hnd|]. intros [k []]; reflexivity. }
  destruct (f (thaw_frozensets p) h) as [[id|e] h0] eqn:Ef; [|discriminate].
  destruct (h0 !! id) as [cell|] eqn:Eid; [|discriminate].
  pose proof (lookup_lt_Some _ _ _ Eid) as Hlt.
  destruct (KCell._locked cell) eqn:El; intros H; injection H as <- <-.
  - eexists. split.
    { apply list_lookup_insert_eq. rewrite length_app. cbn. lia. }
    intros k x Hin. destruct set_name; cbn [KCell.set_locked KCell.settings
      KCell.set_settings KCell.set_name]; now apply dict_update_get.
  - eexists. split; [now apply list_lookup_insert_eq|].
    intros k x Hin. destruct set_name; cbn [KCell.set_locked KCell.settings
      KCell.set_settings KCell.set_name]; now apply dict_update_get.
Qed.

(** X18. The cache never grows beyond its size: a cache that holds at most
    [maxsize] cells holds at most [maxsize] cells after any call of the
    decorated function, whether the call returns or raises, and [maxsize]
    itself never changes. *)
Theorem autocell_cache_bounded :
  forall (args : list Value) (kwargs : pydict) (h h' : heap) (c c' : cache)
         (r : result nat),
    (List.length (data c) <= maxsize c)%nat ->
    wrapper_autocell sig fname f set_settings set_name get_component_name
      dup_name args kwargs (h, c) = (r, (h', c')) ->
    maxsize c' = maxsize c
    /\ (List.length (data c') <= maxsize c')%nat.
Proof.
  intros args kwargs h h' c c' r Hb. unfold wrapper_autocell.
  destruct (freeze_dicts _) as [params|e];
    [|intros H; injection H as <- <- <-; now split].
  destruct (hashkey params) as [k|e];
    [|intros H; injection H as <- <- <-; now split].
  destruct (cache_get c k) as [v|];
    [intros H; injection H as <- <- <-; now split|].
  destruct (wrapped_cell _ _ _ _ _ _ params h) as [[v|e] h1];
    intros H; injection H as <- <- <-; [|now split].
  destruct (cache_set_bounded c k v Hb) as [Hm Hl]. rewrite Hm. now split.
Qed.

End AutocellResults.


Lemma autocell_settings_hold_parameters_witness :
  exists cell,
    snd (Autocell.wrapped_cell "straight" autocell_example_f true true
           (fun name _ => name) (fun name => (name ++ "$1")%string)
           [("a", VInt 5)] []) !! 0%nat = Some cell
    /\ dict_get (KCell.settings cell) "a" = Some (VInt 5).
Proof.
  destruct (autocell_settings_hold_parameters "straight" autocell_example_f
              true true (fun name _ => name)
              (fun name => (name ++ "$1")%string)
              [("a", VInt 5)] [] _ 0%nat eq_refl
              ltac:(repeat constructor; cbn; intuition discriminate) eq_refl)
    as (cell & H1 & H2).
  exists cell. split; [exact H1|]. apply H2. now left.
Defined.

Lemma autocell_cache_bounded_witness :
  (List.length
     (Autocell.data
        (snd (snd (autocell_example_call (VInt 5) autocell_example_start))))
   <= 512)%nat.
Proof.
  refine (proj2 (autocell_cache_bounded [("a", VNone)] "straight"
                   autocell_example_f true true (fun name _ => name)
                   (fun name => (name ++ "$1")%string)
                   [VInt 5] [] [] _ (Autocell.mkCache 512 []) _ _ _ eq_refl)).
  cbn. lia.
Defined.

(* ------------------------------------------------------------------ *)
(** ** Cell names *)

Lemma In_string_app (c : ascii) (s1 s2 : string) :
  In c (list_ascii_of_string (s1 ++ s2))
  <-> In c (list_ascii_of_string s1) \/ In c (list_ascii_of_string s2).
Proof.
  induction s1 as [|a s1 IH]; simpl.
  - tauto.
  - rewrite IH. tauto.
Qed.

(** The characters of [s.replace(k, v)]: those of [s] other than [k], and
    those of [v] when [k] occurs in [s]. *)
Lemma In_replace (k : ascii) (v s : string) (c : ascii) :
  In c (list_ascii_of_string (Naming.replace k v s))
  <-> (c <> k /\ In c (list_ascii_of_string s))
      \/ (In k (list_ascii_of_string s) /\ In c (list_ascii_of_string v)).
Proof.
  induction s as [|a s IH]; cbn [Naming.replace list_ascii_of_string In].
  - tauto.
  - destruct (Ascii.eqb_spec a k) as [E|E].
    + subst a. rewrite In_string_app, IH.
      destruct (ascii_dec c k) as [->|Hc]; intuition congruence.
    + cbn [list_ascii_of_string In]. rewrite IH.
      destruct (ascii_dec c a) as [->|Hc]; intuition congruence.
Qed.

Lemma replace_absent (k : ascii) (v s : string) :
  ~ In k (list_ascii_of_string s) -> Naming.replace k v s = s.
Proof.
  induction s as [|a s IH]; cbn [Naming.replace list_ascii_of_string In];
    [reflexivity|].
  intros H. destruct (Ascii.eqb_spec a k) as [E|E]; [tauto|].
  rewrite IH by tauto. reflexivity.
Qed.

(** A sequence of replacements whose replacement texts contain none of the
    replaced characters leaves none of the replaced characters behind. *)
Lemma replace_all_clean (m : list (ascii * string)) :
  (forall k v c, In (k, v) m -> In c (map fst m) ->
     ~ In c (list_ascii_of_string v)) ->
  forall (s : string) (c : ascii),
    In c (map fst m)
    \/ (~ In c (list_ascii_of_string s)
        /\ forall k v, In (k, v) m -> ~ In c (list_ascii_of_string v)) ->
    ~ In c (list_ascii_of_string
              (fold_left (fun name kv => Naming.replace (fst kv) (snd kv) name)
                 m s)).
Proof.
  induction m as [|[k v] m IH]; intros Hm s c Hc; cbn [fold_left fst snd].
  - cbn in Hc. tauto.
  - apply IH.
    + intros k' v' c' Hin Hc'.
      apply (Hm k' v' c'); [now right|cbn [map fst In]; now right].
    + destruct (ascii_dec c k) as [->|Hne].
      * right. split.
        -- rewrite In_replace. intros [[H _]|[_ H]]; [congruence|].
           apply (Hm k v k); [now left|cbn [map fst In]; now left|exact H].
        -- intros k' v' Hin.
           apply (Hm k' v' k); [now right|cbn [map fst In]; now left].
      * cbn [map fst In] in Hc. destruct Hc as [[E|Hc]|[Hs Hv]].
        -- congruence.
        -- now left.
        -- right. split.
           ++ rewrite In_replace. intros [[_ H]|[_ H]]; [contradiction|].
              apply (Hv k v); [now left|exact H].
           ++ intros k' v' Hin. apply (Hv k' v'). now right.
Qed.

Lemma replace_all_absent (m : list (ascii * string)) (s : string) :
  (forall c, In c (map fst m) -> ~ In c (list_ascii_of_string s)) ->
  fold_left (fun name kv => Naming.replace (fst kv) (snd kv) name) m s = s.
Proof.
  induction m as [|[k v] m IH]; intros H; cbn [fold_left fst snd];
    [reflexivity|].
  rewrite replace_absent by (apply H; cbn [map fst In]; now left).
  apply IH. intros c Hc. apply H. cbn [map fst In]. now right.
Qed.

Lemma replace_map_values_clean :
  forall k v c, In (k, v) Naming.replace_map ->
    In c (map fst Naming.replace_map) -> ~ In c (list_ascii_of_string v).
Proof.
  intros k v c Hin Hc Hv. cbn in Hin.
  repeat (destruct Hin as [E|Hin];
          [injection E as <- <-; cbn in Hv, Hc; intuition (subst; discriminate)|]).
  destruct Hin.
Qed.

(** X19. A cleaned name holds none of the ten characters [clean_name]
    replaces (equals sign, comma, the round and the square brackets, minus,
    full stop, colon, blank), and cleaning a cleaned name changes
    nothing. *)
Theorem clean_name_removes_characters :
  forall (name : string),
    (forall c, In c (map fst Naming.replace_map) ->
       ~ In c (list_ascii_of_string (Naming.clean_name name)))
    /\ Naming.clean_name (Naming.clean_name name) = Naming.clean_name name.
Proof.
  intros name.
  assert (H : forall c, In c (map fst Naming.replace_map) ->
                ~ In c (list_ascii_of_string (Naming.clean_name name))).
  { intros c Hc. unfold Naming.clean_name.
    apply replace_all_clean; [exact replace_map_values_clean|now left]. }
  split; [exact H|].
  unfold Naming.clean_name at 1. now apply replace_all_absent.
Qed.

Lemma split_no_sep (sep : ascii) (s x : string) :
  In x (Naming.split sep s) -> ~ In sep (list_ascii_of_string x).
Proof.
  revert x. induction s as [|a s IH]; intros x; cbn [Naming.split].
  - intros [<-|[]] [].
  - destruct (Ascii.eqb_spec a sep) as [E|E].
    + intros [<-|Hin]; [intros []|now apply IH].
    + destruct (Naming.split sep s) as [|y ys] eqn:Es.
      * intros [<-|[]]. cbn. intuition congruence.
      * intros [<-|Hin].
        -- cbn [list_ascii_of_string In]. intros [H|H]; [congruence|].
           revert H. apply IH. now left.
        -- apply IH. now right.
Qed.

Lemma split_absent (sep : ascii) (s : string) :
  ~ In sep (list_ascii_of_string s) -> Naming.split sep s = [s].
Proof.
  induction s as [|a s IH]; cbn [Naming.split list_ascii_of_string In];
    [reflexivity|].
  intros H. destruct (Ascii.eqb_spec a sep) as [E|E]; [tauto|].
  rewrite IH by tauto. reflexivity.
Qed.

Lemma In_continuation_prefix (c : ascii) (s : string) :
  In c (list_ascii_of_string (Naming.continuation_prefix s)) ->
  In c (list_ascii_of_string s).
Proof.
  induction s as [|a s IH]; cbn [Naming.continuation_prefix]; [easy|].
  destruct (Naming.is_continuation a); [|intros []].
  cbn [list_ascii_of_string In]. tauto.
Qed.

Lemma In_first_char (c : ascii) (x : string) :
  In c (list_ascii_of_string (Naming.first_char x)) ->
  In c (list_ascii_of_string x).
Proof.
  destruct x as [|a x]; [easy|]. cbn [Naming.first_char list_ascii_of_string In].
  intros [H|H]; [now left|right; now apply In_continuation_prefix].
Qed.

Lemma In_concat_empty (c : ascii) (l : list string) :
  In c (list_ascii_of_string (String.concat "" l)) ->
  exists x, In x l /\ In c (list_ascii_of_string x).
Proof.
  induction l as [|x l IH]; [intros []|].
  destruct l as [|y l].
  - cbn [String.concat]. intros H. exists x. split; [now left|assumption].
  - change (String.concat "" (x :: y :: l))
      with (x ++ ("" ++ String.concat "" (y :: l)))%string.
    rewrite In_string_app. intros [H|H].
    + exists x. split; [now left|assumption].
    + destruct (IH H) as [z [Hz Hc]]. exists z. split; [now right|assumption].
Qed.

(** X20. The abbreviation [join_first_letters] builds never holds an
    underscore, and for a name without underscore it is the first character
    of the name (nothing for the empty name). *)
Theorem join_first_letters_no_underscore :
  forall (name : string),
    ~ In "_"%char (list_ascii_of_string (Naming.join_first_letters name))
    /\ (~ In "_"%char (list_ascii_of_string name) ->
        Naming.join_first_letters name = Naming.first_char name).
Proof.
  intros name. split.
  - unfold Naming.join_first_letters. intros H.
    apply In_concat_empty in H as [x [Hx Hc]].
    apply in_map_iff in Hx as [y [<- Hy]].
    apply filter_In in Hy as [Hy _].
    apply In_first_char in Hc. now apply split_no_sep in Hy.
  - intros H. unfold Naming.join_first_letters.
    rewrite (split_absent _ _ H). cbn [List.filter].
    destruct name as [|a name]; reflexivity.
Qed.

Example join_first_letters_taper_length :
  Naming.join_first_letters "taper_length" = "tl"
  /\ Naming.join_first_letters "__a__" = "a"
  /\ Naming.clean_name "bend(R=10.5, w=-1)" = "bendR10p5__wm1".
Proof. repeat split. Qed.

(* ------------------------------------------------------------------ *)
(** ** Bundle routing: argument checks, placer errors and collisions *)

Section RouteBundleOutcomes.
Import Routing Generic.

Variable to_dbu : Z -> Z.
Variable routing_function :
  list Port -> list Port -> list Z -> list (list Step) -> list (list Step)
  -> result (list ManhattanRouter).
Variable placer_function :
  cell -> Port -> Port -> list Kdb.Point -> placer_kwargs
  -> result ManhattanRoute * cell.
Variable router_post_process_function :
  option (cell -> list Port -> list Port -> list ManhattanRouter
          -> result (list ManhattanRouter) * cell).
Variable router_collisions : list ManhattanRouter -> bool.
Variable layer_collisions :
  cell -> list ManhattanRoute -> list Kdb.LayerInfo -> bool.

Let bundle :=
  route_bundle to_dbu routing_function placer_function
    router_post_process_function router_collisions layer_collisions.
Let planned := plan to_dbu routing_function router_post_process_function.

(** X21. The arguments are checked before anything is routed: with start
    ports but a different number of end ports, or with a list of start
    angles that has not one angle for every start port, [route_bundle]
    raises a [ValueError] and the world is as before, so that no routing
    function, placer or collision check has been called. *)
Theorem route_bundle_checks_arguments_first :
  forall (a : args) (w : world),
    start_ports a <> [] ->
    (List.length (start_ports a) <> List.length (end_ports a)
     \/ exists l, start_angles a = UnitsMany l
                  /\ List.length l <> List.length (start_ports a)) ->
    exists msg, bundle a w = (Raise (ValueError msg), w).
Proof.
  intros a w Hne Hbad. unfold bundle, route_bundle, plan.
  destruct (start_ports a) as [|p ps] eqn:Es; [congruence|].
  destruct (Nat.eqb_spec (List.length (p :: ps)) (List.length (end_ports a)))
    as [Hlen|Hlen]; cbn [negb].
  - destruct Hbad as [Hbad|[l [Hl Hbad]]]; [contradiction|].
    rewrite Hl. cbn [angles_to_dbu rotate_ports]. rewrite length_map.
    destruct (Nat.eqb_spec (List.length l) (List.length (p :: ps)));
      [contradiction|].
    cbn [negb]. eexists. reflexivity.
  - eexists. reflexivity.
Qed.






End RouteBundleOutcomes.

Lemma route_bundle_checks_arguments_first_witness :
  exists msg,
    bundle_example_run [bundle_example_a1] []
    = (Raise (ValueError msg), Generic.mkWorld [] []).
Proof.
  apply (route_bundle_checks_arguments_first (fun z => z)
           bundle_example_router bundle_example_placer None
           (fun _ => false) (fun _ _ _ => false)
           (bundle_example_args [bundle_example_a1] [])
           (Generic.mkWorld [] [])).
  - discriminate.
  - left. cbn. lia.
Defined.





(* ------------------------------------------------------------------ *)
(** ** The placers: what a call leaves in the cell *)

(** X26. The dual-rail placer is not all or nothing.  It rejects its
    arguments with a [ValueError] before it touches the cell: a further
    keyword, no separation, or a separation that is not smaller than the
    route width.  With arguments it accepts, what happens follows the
    number of polygons of the region between the two paths: with none the
    call raises [RuntimeError] and the cell is as it was; with one (as for
    a separation of 0) the first rail is inserted and the call then raises
    [TypeError], leaving that one polygon in the cell; with two or more
    both rails are inserted, in this order, and the route returned reports
    them, with all its lengths zero. *)
Theorem place_dual_rails_outcomes :
  forall (region_size : list Kdb.Point -> Z -> Z -> nat) (c : Routing.cell)
         (p1 p2 : Routing.Port) (pts : list Kdb.Point)
         (kw : Routing.placer_kwargs),
    let li := Routing.or_default (Routing.kw_layer_info kw)
                (Routing.layer_info p1) in
    let w := Routing.or_default (Routing.kw_route_width kw)
               (Routing.width p1) in
    let placed := Routing.place_dual_rails region_size c p1 p2 pts kw in
    ((Routing.kw_extra kw <> []
      \/ Routing.kw_separation_rails kw = None
      \/ Routing.kw_separation_rails kw = Some None
      \/ exists s, Routing.kw_separation_rails kw = Some (Some s) /\ w <= s) ->
     exists msg, placed = (Raise (ValueError msg), c))
    /\ (forall s,
          Routing.kw_extra kw = [] ->
          Routing.kw_separation_rails kw = Some (Some s) ->
          s < w ->
          let rail0 := Routing.RailPolygon pts w s 0 in
          let rail1 := Routing.RailPolygon pts w s 1 in
          match region_size pts w s with
          | O => exists msg, placed = (Raise (RuntimeError msg), c)
          | S O =>
              exists msg, placed = (Raise (TypeError msg), c ++ [(li, rail0)])
          | S (S _) =>
              placed
              = (Ok (Routing.mkManhattanRoute pts p1 p2 [] 0 0 0 0 0 0
                       [(li, [rail0; rail1])]),
                 c ++ [(li, rail0); (li, rail1)])
          end)
    /\ (forall e c',
          placed = (Raise e, c') ->
          c' = c \/ exists s, c' = c ++ [(li, Routing.RailPolygon pts w s 0)]).
Proof.
  intros region_size c p1 p2 pts kw li w placed.
  unfold placed, Routing.place_dual_rails. fold li. fold w.
  split; [|split].
  - intros H. destruct (Routing.kw_extra kw) as [|x xs];
      [|eexists; reflexivity].
    destruct H as [H|[H|[H|[s [H Hle]]]]]; [congruence| | |];
      rewrite H; try (eexists; reflexivity).
    destruct (Z.leb_spec w s); [eexists; reflexivity|lia].
  - intros s -> -> Hlt. cbv zeta.
    destruct (Z.leb_spec w s); [lia|].
    destruct (region_size pts w s) as [|[|n]]; cbn [Nat.leb].
    + eexists. reflexivity.
    + eexists. reflexivity.
    + unfold Routing.insert_shape. now rewrite <- app_assoc.
  - intros e c'. destruct (Routing.kw_extra kw) as [|x xs];
      [|intros H; injection H as _ <-; now left].
    destruct (Routing.kw_separation_rails kw) as [[s|]|];
      [|intros H; injection H as _ <-; now left..].
    destruct (w <=? s); [intros H; injection H as _ <-; now left|].
    destruct (region_size pts w s) as [|[|n]]; cbn [Nat.leb].
    + intros H; injection H as _ <-. now left.
    + intros H; injection H as _ <-. right. now exists s.
    + discriminate.
Qed.

(** With a separation of 600 in a route 1000 wide and a region of two
    polygons both rails are placed; with a region of one polygon the first
    rail stays in the cell although the call raises. *)
Lemma place_dual_rails_outcomes_witness :
  snd (bundle_example_placer [] bundle_example_a2 bundle_example_b2
         [Kdb.mkVector 0 5000; Kdb.mkVector 50000 5000]
         (Routing.mkPlacerKwargs None None (Some (Some 600)) []))
  = [(bundle_example_layer,
      Routing.RailPolygon [Kdb.mkVector 0 5000; Kdb.mkVector 50000 5000]
        1000 600 0);
     (bundle_example_layer,
      Routing.RailPolygon [Kdb.mkVector 0 5000; Kdb.mkVector 50000 5000]
        1000 600 1)]
  /\ exists msg,
       Routing.place_dual_rails (fun _ _ _ => 1%nat) [] bundle_example_a2
         bundle_example_b2 [Kdb.mkVector 0 5000; Kdb.mkVector 50000 5000]
         (Routing.mkPlacerKwargs None None (Some (Some 0)) [])
       = (Raise (TypeError msg),
          [(bundle_example_layer,
            Routing.RailPolygon [Kdb.mkVector 0 5000; Kdb.mkVector 50000 5000]
              1000 0 0)]).
Proof.
  split.
  - exact (f_equal snd
             (proj1 (proj2 (place_dual_rails_outcomes (fun _ _ _ => 2%nat) []
                              bundle_example_a2 bundle_example_b2
                              [Kdb.mkVector 0 5000; Kdb.mkVector 50000 5000]
                              (Routing.mkPlacerKwargs None None
                                 (Some (Some 600)) [])))
                600 eq_refl eq_refl eq_refl)).
  - exact (proj1 (proj2 (place_dual_rails_outcomes (fun _ _ _ => 1%nat) []
                           bundle_example_a2 bundle_example_b2
                           [Kdb.mkVector 0 5000; Kdb.mkVector 50000 5000]
                           (Routing.mkPlacerKwargs None None
                              (Some (Some 0)) [])))
             0 eq_refl eq_refl eq_refl).
Defined.

(** X27. The single-wire placer takes no keyword besides the width and the
    layer: with any other, also with [separation_rails], it raises
    [ValueError] and leaves the cell as it was.  Otherwise it inserts the
    polygon of the path first, so that the cell has the polygon also when
    the call then fails, as it does with [IndexError] for a backbone
    without points; a route it returns has the backbone and the two ports it was given,
    that one polygon, and a [length] of zero. *)
Theorem place_single_wire_outcomes :
  forall (c : Routing.cell) (p1 p2 : Routing.Port) (pts : list Kdb.Point)
         (kw : Routing.placer_kwargs),
    let li := Routing.or_default (Routing.kw_layer_info kw)
                (Routing.layer_info p1) in
    let w := Routing.or_default (Routing.kw_route_width kw)
               (Routing.width p1) in
    ((Routing.kw_separation_rails kw <> None \/ Routing.kw_extra kw <> []) ->
     exists msg,
       Routing.place_single_wire c p1 p2 pts kw = (Raise (ValueError msg), c))
    /\ (Routing.kw_separation_rails kw = None -> Routing.kw_extra kw = [] ->
        snd (Routing.place_single_wire c p1 p2 pts kw)
        = c ++ [(li, Routing.PathPolygon pts w)]
        /\ (pts = [] ->
            fst (Routing.place_single_wire c p1 p2 pts kw) = Raise IndexError)
        /\ (forall route,
              fst (Routing.place_single_wire c p1 p2 pts kw) = Ok route ->
              pts <> []
              /\ Routing.backbone route = pts
              /\ Routing.start_port route = p1
              /\ Routing.end_port route = p2
              /\ Routing.polygons route = [(li, [Routing.PathPolygon pts w])]
              /\ Routing.length route = 0)).
Proof.
  intros c p1 p2 pts kw li w. unfold Routing.place_single_wire. split.
  - intros [H|H].
    + destruct (Routing.kw_separation_rails kw); [|congruence].
      eexists. reflexivity.
    + destruct (Routing.kw_separation_rails kw), (Routing.kw_extra kw);
        try congruence; eexists; reflexivity.
  - intros -> ->. fold li. fold w. destruct pts as [|pt1 rest].
    + cbn [fst snd]. split; [reflexivity|]. split; [reflexivity|].
      intros route H. discriminate H.
    + destruct (Float.py_round _) as [n|e]; cbn [fst snd].
      * split; [reflexivity|]. split; [discriminate|].
        intros route H. injection H as <-. now repeat split.
      * split; [reflexivity|]. split; [discriminate|].
        intros route H. discriminate H.
Qed.

(* ------------------------------------------------------------------ *)
(** ** Cross-sections: which error comes first *)

(** The checks of a [SymmetricalCrossSection] come in a fixed order,
    and the first that fails decides the message: a missing main layer
    whatever the width is; then an odd width, also when it is negative;
    then a width that is not positive.  When all pass, the cross-section
    has the width and the enclosure it was given, the default name
    [<enclosure name>_<width>] for a missing or empty name, no radius and
    the [bbox_sections] given (none when left out). *)
Theorem SymmetricalCrossSection_first_error :
  forall (w : Z) (enc : CrossSection.LayerEnclosure) (n : option string)
         (bbox : option (list (CrossSection.LayerInfo * (Z * Z * Z * Z)))),
    (CrossSection.main_layer enc = None ->
     CrossSection.init w enc n bbox
     = Raise (ValueError "Enclosures of cross sections must have a main layer."))
    /\ (CrossSection.main_layer enc <> None -> w mod 2 <> 0 ->
        CrossSection.init w enc n bbox
        = Raise (ValueError
            "Width of symmetrical cross sections must have be a multiple of 2."))
    /\ (CrossSection.main_layer enc <> None -> w mod 2 = 0 -> w <= 0 ->
        CrossSection.init w enc n bbox
        = Raise (ValueError "Width must be greater than 0."))
    /\ (CrossSection.main_layer enc <> None -> w mod 2 = 0 -> 0 < w ->
        CrossSection.init w enc n bbox
        = Ok (CrossSection.mkSymmetricalCrossSection w enc
                (CrossSection.name_or_default n enc w) None None
                (match bbox with Some b => b | None => [] end))).
Proof.
  intros w enc n bbox.
  unfold CrossSection.init, CrossSection._validate_enclosure_main_layer,
    CrossSection._validate_width.
  cbn [CrossSection.enclosure CrossSection.width].
  destruct (CrossSection.main_layer enc) as [ml|].
  - split; [discriminate|].
    destruct (Z.eqb_spec (w / 2 * 2) w) as [He|Ho]; cbn [negb rbind].
    + apply even_iff_double in He. cbn [CrossSection.width].
      destruct (Z.leb_spec w 0) as [Hle|Hgt].
      * split; [congruence|]. split; [reflexivity|]. intros; lia.
      * split; [congruence|]. split; [intros; lia|]. reflexivity.
    + assert (Hodd : w mod 2 <> 0) by (intros E; now apply even_iff_double in E).
      split; [reflexivity|]. split; intros; contradiction.
  - split; [reflexivity|]. repeat split; congruence.
Qed.

(* ------------------------------------------------------------------ *)
(** ** Renaming a cell, connecting again, and dictionary arguments *)

(** X28. The setter of [KCell.name] renames the back-end cell first and
    tells the registry afterwards.  For a cell registered under its old
    name both end up in step: the back-end cell has the new name, the
    registry has the cell under the new name and nothing under the old
    one.  For a cell whose old name the registry does not know the call
    raises [KeyError], and the back-end cell has the new name all the same
    while the registry is as it was. *)
Theorem KCell_name_setter_renames :
  forall (self : KLib.t) (idx : nat) (old new_name : string),
    KLib.cells self !! idx = Some old ->
    new_name <> old ->
    (forall k, KLib.kcells self !! old = Some k ->
       fst (KLib.name_setter self idx new_name) = Ok tt
       /\ KLib.cells (snd (KLib.name_setter self idx new_name)) !! idx
          = Some new_name
       /\ KLib.kcells (snd (KLib.name_setter self idx new_name)) !! new_name
          = Some k
       /\ KLib.kcells (snd (KLib.name_setter self idx new_name)) !! old
          = None)
    /\ (KLib.kcells self !! old = None ->
        fst (KLib.name_setter self idx new_name) = Raise (KeyError old)
        /\ KLib.cells (snd (KLib.name_setter self idx new_name)) !! idx
           = Some new_name
        /\ KLib.kcells (snd (KLib.name_setter self idx new_name))
           = KLib.kcells self).
Proof.
  intros self idx old new_name Hidx Hne.
  pose proof (lookup_lt_Some _ _ _ Hidx) as Hlt.
  assert (Hnth : nth idx (KLib.cells self) "" = old)
    by now apply nth_lookup_Some with (d := "") in Hidx.
  unfold KLib.name_setter, KLib.Layout_rename, KLib.update_cell_name.
  rewrite Hnth. cbn [KLib.kcells KLib.cells].
  destruct (String.eqb_spec new_name old) as [E|_]; [contradiction|].
  cbn [negb]. split.
  - intros k Hk. rewrite Hk. cbn [fst snd KLib.kcells KLib.cells].
    split; [reflexivity|]. split; [now apply list_lookup_insert_eq|].
    split.
    + rewrite lookup_delete_ne by congruence. apply lookup_insert_eq.
    + apply lookup_delete_eq.
  - intros Hk. rewrite Hk. cbn [fst snd KLib.kcells KLib.cells].
    split; [reflexivity|]. split; [now apply list_lookup_insert_eq|].
    reflexivity.
Qed.

Lemma KCell_name_setter_renames_witness :
  fst (KLib.name_setter registry_example 0 "straight_L10") = Ok tt
  /\ KLib.kcells (snd (KLib.name_setter registry_example 0 "straight_L10"))
     !! "straight_L10" = Some 0%nat.
Proof.
  pose proof (proj1 (KCell_name_setter_renames registry_example 0 "straight"
                       "straight_L10" eq_refl ltac:(discriminate))
                0%nat eq_refl) as H.
  split; [exact (proj1 H)|exact (proj1 (proj2 (proj2 H)))].
Defined.

(** X29. Connected to a port, or to a port of another instance, an
    instance is placed where that port says, wherever it was: whether
    [connect] raises and the transformation it sets are the same for any
    two instances of one cell, so that connecting again with the same
    arguments changes nothing.  Connected to a port of itself, the
    instance is moved from where it is: the other port is read through its
    present transformation [t], which becomes
    [t * (q.trans * conn * p.trans.inverted())], and connecting again moves
    it again by as much. *)
Theorem connect_forgets_previous_trans :
  forall (cell : KCell.t) (t1 t2 : Kdb.Trans) (portname : string)
         (other : Instance.other_arg) (other_port_name : option string)
         (mirror aw al aty : bool),
    let connect_from t :=
      Instance.connect (KCell.mkInstance cell t) portname other
        other_port_name mirror aw al aty in
    fst (connect_from t1) = fst (connect_from t2)
    /\ (fst (connect_from t1) = Ok tt ->
        snd (connect_from t1) = snd (connect_from t2)
        /\ Instance.connect (snd (connect_from t1)) portname other
             other_port_name mirror aw al aty
           = connect_from t1)
    /\ (forall (own_port : string) (p q : Port.t) (self' : Instance.t),
          Ports.getitem (KCell.ports cell) portname = Ok p ->
          Ports.getitem (KCell.ports cell) own_port = Ok q ->
          Instance.connect (KCell.mkInstance cell t1) portname
            (Instance.OtherInstance (KCell.mkInstance cell t1))
            (Some own_port) mirror aw al aty = (Ok tt, self') ->
          let step :=
            Port.trans q *t (if mirror then Kdb.M90 else Kdb.R180)
              *t Kdb.inverted (Port.trans p) in
          self' = KCell.mkInstance cell (t1 *t step)
          /\ Instance.connect self' portname (Instance.OtherInstance self')
               (Some own_port) mirror aw al aty
             = (Ok tt, KCell.mkInstance cell (t1 *t step *t step))).
Proof.
  intros cell t1 t2 portname other opn mirror aw al aty connect_from.
  split; [|split].
  - unfold connect_from, Instance.connect. cbn [KCell.cell].
    destruct (Instance.other_port other opn) as [op|e]; [|reflexivity].
    destruct (Ports.getitem (KCell.ports cell) portname) as [p|e];
      [|reflexivity].
    repeat match goal with
           | |- context [if ?b then (Raise _, _) else _] => destruct b
           end; reflexivity.
  - unfold connect_from, Instance.connect. cbn [KCell.cell].
    destruct (Instance.other_port other opn) as [op|e]; [|discriminate].
    destruct (Ports.getitem (KCell.ports cell) portname) as [p|e] eqn:Ep;
      [|discriminate].
    destruct (negb (Port.width p =? Port.width op) && negb aw) eqn:E1;
      [discriminate|].
    destruct (negb (Port.layer p =? Port.layer op) && negb al) eqn:E2;
      [discriminate|].
    destruct (negb (String.eqb (Port.port_type p) (Port.port_type op))
              && negb aty) eqn:E3;
      [discriminate|].
    intros _. split; [reflexivity|].
    cbn [snd KCell.cell]. now rewrite Ep, E1, E2, E3.
  - intros own_port p q self' Hp Hq.
    unfold Instance.connect, Instance.other_port, Instance.ports_getitem.
    cbn [KCell.cell KCell.trans]. rewrite Hq, Hp. cbn [rbind].
    unfold Port.copy.
    cbn [Port.width Port.layer Port.port_type Port.trans].
    destruct (negb (Port.width p =? Port.width q) && negb aw) eqn:E1;
      [discriminate|].
    destruct (negb (Port.layer p =? Port.layer q) && negb al) eqn:E2;
      [discriminate|].
    destruct (negb (String.eqb (Port.port_type p) (Port.port_type q))
              && negb aty) eqn:E3;
      [discriminate|].
    intros H. injection H as <-. cbv zeta.
    rewrite !Kdb_mul_assoc. split; [reflexivity|].
    cbn [KCell.cell KCell.trans]. rewrite Hq, Hp. cbn [rbind].
    cbn [Port.width Port.layer Port.port_type Port.trans].
    rewrite E1, E2, E3. now rewrite !Kdb_mul_assoc.
Qed.

(** The example cell is 10000 long: connected by its port [o1] to its own
    port [o2] it moves on by 10000 each time. *)
Lemma connect_forgets_previous_trans_witness :
  snd (Instance.connect (KCell.mkInstance connect_example_cell Kdb.R0) "o1"
         (Instance.OtherPort
            (Port.mk "o2" (Kdb.mkTrans Kdb.A0 false (Kdb.mkVector 10000 0))
               500 0 "optical")) None false false false false)
  = snd (Instance.connect (KCell.mkInstance connect_example_cell Kdb.M90) "o1"
           (Instance.OtherPort
              (Port.mk "o2" (Kdb.mkTrans Kdb.A0 false (Kdb.mkVector 10000 0))
                 500 0 "optical")) None false false false false)
  /\ Instance.connect
       (KCell.mkInstance connect_example_cell
          (Kdb.mkTrans Kdb.A0 false (Kdb.mkVector 10000 0))) "o1"
       (Instance.OtherInstance
          (KCell.mkInstance connect_example_cell
             (Kdb.mkTrans Kdb.A0 false (Kdb.mkVector 10000 0))))
       (Some "o2") false false false false
     = (Ok tt,
        KCell.mkInstance connect_example_cell
          (Kdb.mkTrans Kdb.A0 false (Kdb.mkVector 20000 0))).
Proof.
  split.
  - exact (proj1 (proj1 (proj2 (connect_forgets_previous_trans
                                  connect_example_cell Kdb.R0 Kdb.M90 "o1"
                                  (Instance.OtherPort
                                     (Port.mk "o2"
                                        (Kdb.mkTrans Kdb.A0 false
                                           (Kdb.mkVector 10000 0))
                                        500 0 "optical"))
                                  None false false false false)) eq_refl)).
  - exact (proj2 (proj2 (proj2 (connect_forgets_previous_trans
                                  connect_example_cell Kdb.R0 Kdb.R0 "o1"
                                  Instance.OtherObject None false false false
                                  false))
                    "o2" _ _ _ eq_refl eq_refl eq_refl)).
Defined.

Lemma insert_by_key_perm (kv : string * Value) (l : pydict) :
  Permutation (kv :: l) (insert_by_key kv l).
Proof.
  induction l as [|kv' l IH]; cbn [insert_by_key]; [reflexivity|].
  destruct (String.leb (fst kv) (fst kv')); [reflexivity|].
  rewrite perm_swap. now constructor.
Qed.

Lemma sort_by_key_is_perm (d : pydict) : Permutation d (sort_by_key d).
Proof.
  unfold sort_by_key. induction d as [|kv d IH]; cbn [fold_right];
    [constructor|].
  rewrite <- insert_by_key_perm. now constructor.
Qed.

(** X30. What the cell function is handed for the arguments of a call:
    the parameters keep their names and their order; a dictionary goes
    through freezing and thawing and arrives as a dictionary with the same
    items; a frozen set of items arrives as a dictionary too; every other
    value arrives as it was passed. *)
Theorem autocell_arguments_round_trip :
  forall (p q : pydict),
    Autocell.freeze_dicts p = Ok q ->
    Forall2
      (fun kv kv' =>
         fst kv' = fst kv
         /\ match snd kv with
            | VDict d => exists d', snd kv' = VDict d' /\ Permutation d d'
            | VFrozenset items => snd kv' = VDict items
            | v => snd kv' = v
            end)
      p (Autocell.thaw_frozensets q).
Proof.
  induction p as [|[k v] p IH]; intros q;
    cbn [Autocell.freeze_dicts mapM].
  - intros H. injection H as <-. constructor.
  - fold (Autocell.freeze_dicts p).
    destruct (match snd (k, v) with
              | VDict d =>
                  do fs <- Autocell.dict_to_frozen_set d; Ok (fst (k, v), fs)
              | _ => Ok (k, v)
              end) as [kv'|] eqn:E1; [|discriminate].
    cbn [rbind].
    destruct (Autocell.freeze_dicts p) as [q'|]; [|discriminate].
    cbn [rbind]. intros H. injection H as <-.
    cbn [Autocell.thaw_frozensets map]. constructor; [|now apply IH].
    cbn [fst snd] in *.
    destruct v; try (injection E1 as <-; cbn; now split).
    unfold Autocell.dict_to_frozen_set in E1.
    destruct (forallb _ d); [|discriminate E1]. cbn [rbind] in E1.
    injection E1 as <-. cbn. split; [reflexivity|].
    eexists. split; [reflexivity|apply sort_by_key_is_perm].
Qed.

Lemma autocell_arguments_round_trip_witness :
  Forall2
    (fun kv kv' =>
       fst kv' = fst kv
       /\ match snd kv with
          | VDict d => exists d', snd kv' = VDict d' /\ Permutation d d'
          | VFrozenset items => snd kv' = VDict items
          | v => snd kv' = v
          end)
    [("a", VDict [("y", VInt 2); ("x", VInt 1)]); ("b", VInt 3)]
    (Autocell.thaw_frozensets
       [("a", VFrozenset [("x", VInt 1); ("y", VInt 2)]); ("b", VInt 3)]).
Proof.
  exact (autocell_arguments_round_trip
           [("a", VDict [("y", VInt 2); ("x", VInt 1)]); ("b", VInt 3)]
           [("a", VFrozenset [("x", VInt 1); ("y", VInt 2)]); ("b", VInt 3)]
           eq_refl).
Defined.

(* ------------------------------------------------------------------ *)
(** ** The properties above on the example cells *)

Lemma KLib_update_cell_name_moves_entry_witness :
  KLib.kcells (snd (KLib.update_cell_name registry_example "straight" "bend"))
  !! "bend" = Some 0%nat
  /\ KLib.kcells (snd (KLib.update_cell_name registry_example "straight" "bend"))
     !! "straight" = None.
Proof.
  pose proof (proj1 (KLib_update_cell_name_moves_entry registry_example
                       "straight" "bend") 0%nat ltac:(discriminate) eq_refl)
    as H.
  split; [exact (proj1 (proj2 H))|exact (proj1 (proj2 (proj2 H)))].
Defined.

Lemma join_first_letters_no_underscore_witness :
  Naming.join_first_letters "taper" = "t".
Proof.
  refine (proj2 (join_first_letters_no_underscore "taper") _).
  cbn. intuition discriminate.
Defined.

Lemma place_single_wire_outcomes_witness :
  fst (Routing.place_single_wire [] (wire_example_port "a" 0)
         (wire_example_port "b" 3) []
         (Routing.mkPlacerKwargs None None None []))
  = Raise IndexError
  /\ snd (Routing.place_single_wire [] (wire_example_port "a" 0)
            (wire_example_port "b" 3) []
            (Routing.mkPlacerKwargs None None None []))
     = [(Kdb.mkLayerInfo 1 0, Routing.PathPolygon [] 1000)].
Proof.
  pose proof (proj2 (place_single_wire_outcomes [] (wire_example_port "a" 0)
                       (wire_example_port "b" 3) []
                       (Routing.mkPlacerKwargs None None None []))
                eq_refl eq_refl) as H.
  split; [exact (proj1 (proj2 H) eq_refl)|exact (proj1 H)].
Defined.
